(** * Portfolio simulation engine: shallow embedding and verified properties

    The development follows the Python sources
    [strategy/portfolio_manager.py], [strategy/backtester.py] and the
    day loop of [main.py].

    Numbers.  Prices, cash and values are Python / NumPy floats in the
    source; they are idealised here as exact rationals [Q] (no rounding
    error, no overflow).  Share counts are Python integers, here [Z].
    Where the source divides, the behaviour at a zero divisor is modelled
    explicitly (an exception for Python floats, [nan] / [inf] for NumPy
    floats).

    Scope.  The statements below are chosen so that they do not depend
    on the idealisation: equalities between amounts are written in the
    operation order of the source, inequalities are those the source
    itself tests, and results about priced rows of the single-instrument
    engine carry the hypothesis that no close is [nan]
    ([numeric_closes]).  A [nan] close and an overflowing quotient are
    outside the model: the source goes on with [nan] arithmetic, or
    raises [OverflowError] in [int], where the model has no value. *)

From Stdlib Require Import ZArith QArith Qround Qminmax Lqa Lia List.
From stdpp Require Import gmap strings list sorting.

(** ** Python arithmetic on rationals *)

Module Py.

Definition Qltb (x y : Q) : bool := negb (Qle_bool y x).

(** [max(a, b)]: the second argument wins only when strictly greater. *)
Definition max (a b : Q) : Q := if Qltb a b then b else a.

(** [min(a, b)]: the second argument wins only when strictly smaller. *)
Definition min (a b : Q) : Q := if Qltb b a then b else a.

(** [int(x)] truncates towards zero. *)
Definition int (x : Q) : Z := Z.quot (Qnum x) (Zpos (Qden x)).

(** [round(x, n)]: round half to even at [n] decimals. *)
Definition round_half_even (x : Q) : Z :=
  let f := Qfloor x in
  let r := (x - inject_Z f)%Q in
  match Qcompare r (1 # 2) with
  | Lt => f
  | Gt => (f + 1)%Z
  | Eq => if Z.even f then f else (f + 1)%Z
  end.

Definition round (x : Q) (n : nat) : Q :=
  let k := inject_Z (10 ^ Z.of_nat n) in
  (inject_Z (round_half_even (x * k)) / k)%Q.

(** Exceptions the modelled code can raise. *)
Inductive exn :=
| KeyError (k : string)
| ZeroDivisionError
| ValueError
| OverflowError
| NameError.

Inductive result (A : Type) :=
| Ok (a : A)
| Raise (e : exn).
Arguments Ok {A} a.
Arguments Raise {A} e.

(** State-and-exception monad: the object state survives a raise, as the
    attributes of a Python object do. *)
Definition M (S A : Type) : Type := S -> result A * S.

Definition ret {S A} (a : A) : M S A := fun s => (Ok a, s).
Definition raise {S A} (e : exn) : M S A := fun s => (Raise e, s).
Definition bind {S A B} (m : M S A) (k : A -> M S B) : M S B :=
  fun s => match m s with
           | (Ok a, s') => k a s'
           | (Raise e, s') => (Raise e, s')
           end.
Definition get {S} : M S S := fun s => (Ok s, s).
Definition modify {S} (f : S -> S) : M S unit := fun s => (Ok tt, f s).
Definition lift {S A} (r : result A) : M S A := fun s => (r, s).

(** [for x in xs: body x] *)
Fixpoint for_each {S A} (xs : list A) (body : A -> M S unit) : M S unit :=
  match xs with
  | [] => ret tt
  | x :: xs' => bind (body x) (fun _ => for_each xs' body)
  end.

(** A Python [dict] with string keys: insertion ordered, unique keys. *)
Definition dict (V : Type) : Type := list (string * V).

Fixpoint dict_get {V} (d : dict V) (k : string) : option V :=
  match d with
  | [] => None
  | (k', v) :: d' => if String.eqb k k' then Some v else dict_get d' k
  end.

(** [d[k] = v]: overwrite in place, or append a new key. *)
Fixpoint dict_set {V} (d : dict V) (k : string) (v : V) : dict V :=
  match d with
  | [] => [(k, v)]
  | (k', v') :: d' =>
      if String.eqb k k' then (k', v) :: d' else (k', v') :: dict_set d' k v
  end.

Definition keys {V} (d : dict V) : list string := map fst d.

(** The value of a NumPy float64 expression over exact operands: the
    quotient by zero is [nan] or an infinity (a warning, no exception). *)
Inductive float64 :=
| Fin (q : Q)
| PInf
| NInf
| NaN.

Definition np_div (a b : Q) : float64 :=
  if Qeq_bool b 0 then
    if Qeq_bool a 0 then NaN else if Qltb 0 a then PInf else NInf
  else Fin (a / b).

Definition np_mul (x : float64) (k : Q) : float64 :=
  match x with
  | Fin q => Fin (q * k)
  | NaN => NaN
  | PInf => if Qltb 0 k then PInf else if Qltb k 0 then NInf else NaN
  | NInf => if Qltb 0 k then NInf else if Qltb k 0 then PInf else NaN
  end.

(** [x > y]; every comparison with [nan] is false. *)
Definition np_gt (x y : float64) : bool :=
  match x, y with
  | NaN, _ | _, NaN => false
  | PInf, PInf => false
  | PInf, _ => true
  | _, PInf => false
  | NInf, _ => false
  | Fin _, NInf => true
  | Fin a, Fin b => Qltb b a
  end.

Definition np_max (a b : float64) : float64 := if np_gt b a then b else a.

(** [0 <= x] on float64 values. *)
Definition np_nonneg (x : float64) : Prop :=
  match x with
  | Fin q => (0 <= q)%Q
  | PInf => True
  | NInf | NaN => False
  end.

(** [x + k] for a finite [k]. *)
Definition np_add (x : float64) (k : Q) : float64 :=
  match x with
  | Fin q => Fin (q + k)
  | PInf => PInf
  | NInf => NInf
  | NaN => NaN
  end.

End Py.

Notation "'let*' x ':=' m 'in' k" := (Py.bind m (fun x => k))
  (at level 10, x pattern, m at level 100, k at level 200).

Import Py.

(** The two order sides, the strings ["BUY"] and ["SELL"] of the source. *)
Inductive side := BUY | SELL.

Definition side_eqb (a b : side) : bool :=
  match a, b with
  | BUY, BUY | SELL, SELL => true
  | _, _ => false
  end.

(** ** strategy/portfolio_manager.py *)

Module portfolio_manager.

Record PortfolioConfig := {
  initial_cash : Q;
  commission : Q;
  max_position_size : Q;
  min_cash_reserve : Q
}.

(** One entry of [trade_log]. *)
Record Trade := {
  t_date : Z;
  t_stock : string;
  t_type : side;
  t_price : Q;
  t_quantity : Z;
  t_value : Q;
  t_commission : Q;
  t_cash_after : Q
}.

(** One entry of [daily_values]. *)
Record Snapshot := {
  d_date : Z;
  d_cash : Q;
  d_stock_value : Q;
  d_total_value : Q;
  d_positions : gmap string Z
}.

Record PortfolioManager := {
  config : PortfolioConfig;
  stocks : list string;
  cash : Q;
  positions : gmap string Z;
  trade_log : list Trade;
  daily_values : list Snapshot
}.

Definition set_cash (c : Q) (s : PortfolioManager) : PortfolioManager :=
  {| config := config s; stocks := stocks s; cash := c;
     positions := positions s; trade_log := trade_log s;
     daily_values := daily_values s |}.

Definition set_position (k : string) (n : Z) (s : PortfolioManager)
  : PortfolioManager :=
  {| config := config s; stocks := stocks s; cash := cash s;
     positions := <[k := n]> (positions s); trade_log := trade_log s;
     daily_values := daily_values s |}.

Definition append_trade (t : Trade) (s : PortfolioManager)
  : PortfolioManager :=
  {| config := config s; stocks := stocks s; cash := cash s;
     positions := positions s; trade_log := trade_log s ++ [t];
     daily_values := daily_values s |}.

Definition append_daily (d : Snapshot) (s : PortfolioManager)
  : PortfolioManager :=
  {| config := config s; stocks := stocks s; cash := cash s;
     positions := positions s; trade_log := trade_log s;
     daily_values := daily_values s ++ [d] |}.

Abbreviation PM := (M PortfolioManager).

(** [{stock: 0 for stock in self.stocks}] *)
Definition zero_positions (l : list string) : gmap string Z :=
  foldl (fun m k => <[k := 0%Z]> m) ∅ l.

(** [__init__] followed by [reset]. *)
Definition reset (cfg : PortfolioConfig) (l : list string)
  : PortfolioManager :=
  {| config := cfg; stocks := l; cash := initial_cash cfg;
     positions := zero_positions l; trade_log := [];
     daily_values := [] |}.

Definition __init__ (cfg : PortfolioConfig) (l : list string)
  : result PortfolioManager := Ok (reset cfg l).

(** [self.positions[stock]] *)
Definition position_of (stock : string) : PM Z :=
  let* s := get in
  match positions s !! stock with
  | Some n => ret n
  | None => raise (KeyError stock)
  end.

(** [prices.get(stock, 0)] *)
Definition price_or_zero (prices : dict Q) (stock : string) : Q :=
  match dict_get prices stock with Some p => p | None => 0%Q end.

(** The generator sum of [get_portfolio_value], left to right from 0. *)
Fixpoint sum_positions (prices : dict Q) (l : list string) (acc : Q)
  : PM Q :=
  match l with
  | [] => ret acc
  | stock :: l' =>
      let* n := position_of stock in
      sum_positions prices l'
        (acc + inject_Z n * price_or_zero prices stock)%Q
  end.

Definition get_portfolio_value (prices : dict Q) : PM Q :=
  let* s := get in
  let* stock_value := sum_positions prices (stocks s) 0%Q in
  ret (cash s + stock_value)%Q.

Definition get_available_cash_for_stock (current_prices : dict Q) : PM Q :=
  let* current_portfolio_value := get_portfolio_value current_prices in
  let* s := get in
  let max_allocation :=
    (current_portfolio_value * max_position_size (config s))%Q in
  let min_cash_needed :=
    (current_portfolio_value * min_cash_reserve (config s))%Q in
  let available_cash := Py.max 0%Q (cash s - min_cash_needed)%Q in
  ret (Py.min available_cash max_allocation).

(** [int(available_cash / price)] on NumPy floats: a zero price gives
    [nan] or [inf], which [int] refuses.  The quotient is exact here; the
    binary64 quotient of the source is rounded, so it can reach the next
    whole number (250 / 14.705882352941178 gives 17), and it overflows to
    [inf] for a large enough ratio. *)
Definition int_div (a p : Q) : result Z :=
  if Qeq_bool p 0 then
    if Qeq_bool a 0 then Raise ValueError else Raise OverflowError
  else Ok (Py.int (a / p)%Q).

Definition can_buy (stock : string) (price : Q) (current_prices : dict Q)
  : PM (bool * Z) :=
  let* held := position_of stock in
  if (0 <? held)%Z then ret (false, 0%Z)
  else
    let* available_cash := get_available_cash_for_stock current_prices in
    if Qltb available_cash price then ret (false, 0%Z)
    else
      let* max_qty := lift (int_div available_cash price) in
      ret ((0 <? max_qty)%Z, max_qty).

Definition can_sell (stock : string) : PM (bool * Z) :=
  let* qty := position_of stock in
  ret ((0 <? qty)%Z, qty).

Definition execute_buy (stock : string) (price : Q) (date : Z)
    (current_prices : dict Q) : PM bool :=
  let* (ok, max_qty) := can_buy stock price current_prices in
  if negb ok then ret false
  else
    let trade_value := (price * inject_Z max_qty)%Q in
    let* s := get in
    let fee := (trade_value * commission (config s))%Q in
    let total_cost := (trade_value + fee)%Q in
    let* _ := modify (set_cash (cash s - total_cost)%Q) in
    let* held := position_of stock in
    let* _ := modify (set_position stock (held + max_qty)%Z) in
    let* s' := get in
    let* _ := modify (append_trade
      {| t_date := date; t_stock := stock; t_type := BUY;
         t_price := price; t_quantity := max_qty;
         t_value := trade_value; t_commission := fee;
         t_cash_after := cash s' |}) in
    ret true.

Definition execute_sell (stock : string) (price : Q) (date : Z)
  : PM bool :=
  let* (ok, qty) := can_sell stock in
  if negb ok then ret false
  else
    let trade_value := (price * inject_Z qty)%Q in
    let* s := get in
    let fee := (trade_value * commission (config s))%Q in
    let total_received := (trade_value - fee)%Q in
    let* _ := modify (set_cash (cash s + total_received)%Q) in
    let* _ := modify (set_position stock 0%Z) in
    let* s' := get in
    let* _ := modify (append_trade
      {| t_date := date; t_stock := stock; t_type := SELL;
         t_price := price; t_quantity := qty;
         t_value := trade_value; t_commission := fee;
         t_cash_after := cash s' |}) in
    ret true.

Definition update_daily_value (date : Z) (prices : dict Q) : PM unit :=
  let* portfolio_value := get_portfolio_value prices in
  let* s := get in
  modify (append_daily
    {| d_date := date; d_cash := cash s;
       d_stock_value := (portfolio_value - cash s)%Q;
       d_total_value := portfolio_value;
       d_positions := positions s |}).

(** The loop of [_calculate_max_drawdown]: running peak and the largest
    drawdown so far.  The totals are NumPy float64 values (cash plus a
    sum over the frames' NumPy prices), so the quotient by a zero peak is
    [nan] or [inf] and is fed to [max] like any other value. *)
Fixpoint drawdown_loop (values : list Q) (peak : Q) (max_drawdown : float64)
  : float64 :=
  match values with
  | [] => max_drawdown
  | value :: rest =>
      let peak' := if Qltb peak value then value else peak in
      let drawdown := np_mul (np_div (peak' - value) peak') 100 in
      drawdown_loop rest peak' (np_max max_drawdown drawdown)
  end.

Definition max_drawdown_of (daily : list Snapshot) : float64 :=
  if (length daily <? 2)%nat then Fin 0
  else
    let values := map d_total_value daily in
    match values with
    | [] => Fin 0
    | peak :: _ => drawdown_loop values peak (Fin 0)
    end.

Definition _calculate_max_drawdown : PM float64 :=
  let* s := get in
  ret (max_drawdown_of (daily_values s)).

(** The dictionary returned by [get_summary]; [max_drawdown] is [None]
    when the key is absent. *)
Record SummaryDict := {
  initial_value : Q;
  final_value : Q;
  total_return_pct : float64;
  total_trades : nat;
  current_cash : Q;
  current_positions : nat;
  max_drawdown : option float64
}.

(** [sum(1 for pos in self.positions.values() if pos > 0)] *)
Definition count_open (pos : gmap string Z) : nat :=
  length (List.filter (fun kv : string * Z => (0 <? snd kv)%Z)
            (map_to_list pos)).

(** [get_summary].  The final value is a NumPy float64, so the return on a
    zero initial cash is [nan] or an infinity. *)
Definition get_summary : PM SummaryDict :=
  let* s := get in
  match last (daily_values s) with
  | None =>
      ret {| initial_value := initial_cash (config s);
             final_value := initial_cash (config s);
             total_return_pct := Fin 0;
             total_trades := 0;
             current_cash := cash s;
             current_positions := count_open (positions s);
             max_drawdown := None |}
  | Some d =>
      let initial := initial_cash (config s) in
      let final := d_total_value d in
      let* mdd := _calculate_max_drawdown in
      ret {| initial_value := initial;
             final_value := final;
             total_return_pct :=
               np_mul (np_add (np_div final initial) (-1)) 100;
             total_trades := length (trade_log s);
             current_cash := cash s;
             current_positions := count_open (positions s);
             max_drawdown := Some mdd |}
  end.

End portfolio_manager.

(** ** main.py: the day loop of [run_portfolio_backtest] *)

Module main.
Import portfolio_manager.

(** One row of an instrument's signal frame: the close price and the two
    boolean signal columns produced by the strategy.  The close is a
    number: a frame with a [nan] close, which the source carries into
    the snapshot values, is not a [Frame]. *)
Record Row := {
  close : Q;
  buy : bool;
  sell : bool
}.

(** A signal frame, indexed by date (dates as day ordinals). *)
Abbreviation Frame := (gmap Z Row).

(** The sorted union of the frames' indexes. *)
Definition all_dates (all_signals : dict Frame) : list Z :=
  merge_sort Z.le
    (elements
       (⋃ (map (fun kv : string * Frame => dom (snd kv)) all_signals))).

(** The dictionary of the prices available on [date]. *)
Definition prices_on (all_signals : dict Frame) (date : Z) : dict Q :=
  foldl (fun cp (kv : string * Frame) =>
           match snd kv !! date with
           | Some r => dict_set cp (fst kv) (close r)
           | None => cp
           end) [] all_signals.

(** The body of [for ticker in current_prices.keys()]. *)
Definition process_ticker (all_signals : dict Frame) (date : Z)
    (current_prices : dict Q) (ticker : string) : PM unit :=
  match dict_get all_signals ticker with
  | None => raise (KeyError ticker)
  | Some df =>
      match df !! date with
      | None => ret tt
      | Some signals =>
          match dict_get current_prices ticker with
          | None => raise (KeyError ticker)
          | Some price =>
              if buy signals then
                let* _ := execute_buy ticker price date current_prices in
                ret tt
              else if sell signals then
                let* _ := execute_sell ticker price date in
                ret tt
              else ret tt
          end
      end
  end.

(** The body of [for date in all_dates]. *)
Definition simulate_day (all_signals : dict Frame) (date : Z) : PM unit :=
  let current_prices := prices_on all_signals date in
  let* _ := for_each (keys current_prices)
              (process_ticker all_signals date current_prices) in
  match current_prices with
  | [] => ret tt
  | _ :: _ => update_daily_value date current_prices
  end.

(** [run_portfolio_backtest], from the signal frames on (the strategy
    that computes them is outside the engine).  Returns the outcome and
    the portfolio object. *)
Definition run_portfolio_backtest (cfg : PortfolioConfig)
    (all_signals : dict Frame) : result unit * PortfolioManager :=
  for_each (all_dates all_signals) (simulate_day all_signals)
    (reset cfg (keys all_signals)).

End main.

(** ** strategy/backtester.py *)

Module backtester.

(** A cell of a pandas column: a number, a boolean or [nan]. *)
Inductive cell :=
| VNum (q : Q)
| VBool (b : bool)
| VNaN.

(** A DataFrame: the index labels (dates as day ordinals), whether the
    index has a datetime64 dtype, and the columns, each as long as the
    index.  Indexes are ascending and unique, as the data model has them. *)
Record DataFrame := {
  index : list Z;
  index_is_datetime : bool;
  columns : dict (list cell)
}.

Definition loc := positive.

(** The objects a run can touch: the store of DataFrames, addressed by
    object identity, and the two live attributes of the [Backtester]. *)
Record World := {
  heap : gmap loc DataFrame;
  _cash : Q;
  _position : Z
}.

(** The dataclass fields set by the caller. *)
Record Backtester := {
  initial_cash : Q;
  commission : Q
}.

(** One dictionary of [executed_trades]. *)
Record Fill := {
  f_date : Z;
  f_type : side;
  f_price : Q;
  f_qty : Z;
  f_cash : Q
}.

Record Summary := {
  Initial_Cash : Q;
  Final_NAV : Q;
  Total_Return : Q;
  Trades : nat;
  Win_Ratio : option Q
}.

Abbreviation BT := (M World).

Definition set_heap (h : gmap loc DataFrame) (w : World) : World :=
  {| heap := h; _cash := _cash w; _position := _position w |}.

Definition set_live (c : Q) (n : Z) (w : World) : World :=
  {| heap := heap w; _cash := c; _position := n |}.

(** A new DataFrame object. *)
Definition alloc (d : DataFrame) : BT loc :=
  fun w =>
    let l := fresh (dom (heap w)) in
    (Ok l, set_heap (<[l := d]> (heap w)) w).

Definition read (l : loc) : BT DataFrame :=
  fun w =>
    match heap w !! l with
    | Some d => (Ok d, w)
    | None => (Raise NameError, w)
    end.

(** In-place update of the object at [l]. *)
Definition update (l : loc) (f : DataFrame -> DataFrame) : BT unit :=
  fun w =>
    match heap w !! l with
    | Some d => (Ok tt, set_heap (<[l := f d]> (heap w)) w)
    | None => (Raise NameError, w)
    end.

(** [df[name]] *)
Definition column (d : DataFrame) (name : string) : result (list cell) :=
  match dict_get (columns d) name with
  | Some c => Ok c
  | None => Raise (KeyError name)
  end.

(** [df[name] = col] *)
Definition with_column (name : string) (col : list cell) (d : DataFrame)
  : DataFrame :=
  {| index := index d; index_is_datetime := index_is_datetime d;
     columns := dict_set (columns d) name col |}.

(** [df[name] = v] for a scalar [v] *)
Definition with_constant (name : string) (v : cell) (d : DataFrame)
  : DataFrame :=
  with_column name (map (fun _ => v) (index d)) d.

(** [df.at[ts, name] = v]: every row labelled [ts]. *)
Definition with_at (ts : Z) (name : string) (v : cell) (d : DataFrame)
  : DataFrame :=
  match dict_get (columns d) name with
  | Some col =>
      with_column name
        (zip_with (fun t c => if (t =? ts)%Z then v else c) (index d) col) d
  | None => d
  end.

(** The value propagated to label [t] by [reindex(..., method="ffill")]:
    that of the last source row labelled at most [t], [nan] if none. *)
Definition ffill_at (rows : list (Z * cell)) (t : Z) : cell :=
  match last (filter (fun r : Z * cell => (fst r <= t)%Z) rows) with
  | Some r => snd r
  | None => VNaN
  end.

Definition reindex_ffill (d : DataFrame) (target : list Z)
    (target_is_datetime : bool) : DataFrame :=
  {| index := target; index_is_datetime := target_is_datetime;
     columns :=
       map (fun kc : string * list cell =>
              (fst kc, map (ffill_at (zip (index d) (snd kc))) target))
           (columns d) |}.

(** [fillna(False)] *)
Definition fill_false (c : cell) : cell :=
  match c with VNaN => VBool false | _ => c end.

Definition fillna_false (d : DataFrame) : DataFrame :=
  {| index := index d; index_is_datetime := index_is_datetime d;
     columns := map (fun kc : string * list cell =>
                       (fst kc, map fill_false (snd kc))) (columns d) |}.

(** [bool(x)], also the element-wise [astype(bool)]. *)
Definition truthy (c : cell) : bool :=
  match c with
  | VBool b => b
  | VNum q => negb (Qeq_bool q 0)
  | VNaN => true
  end.

Definition astype_bool (col : list cell) : list cell :=
  map (fun c => VBool (truthy c)) col.

(** [Series.ffill()] *)
Fixpoint ffill_from (prev : cell) (col : list cell) : list cell :=
  match col with
  | [] => []
  | VNaN :: rest => prev :: ffill_from prev rest
  | c :: rest => c :: ffill_from c rest
  end.

(** [_scalar(x)] on a cell.  The source only unwraps the value and goes
    on with [nan] arithmetic on a [nan] close.  A [nan] price has no
    rational value: the model stops the run there, so a modelled run that
    returns is a run over numeric closes. *)
Definition _scalar (c : cell) : result Q :=
  match c with
  | VNum q => Ok q
  | VBool b => Ok (if b then 1 else 0)%Q
  | VNaN => Raise ValueError
  end.

Definition cell_at (d : DataFrame) (name : string) (i : nat) : result cell :=
  match column d name with
  | Ok col =>
      match col !! i with
      | Some c => Ok c
      | None => Raise (KeyError name)
      end
  | Raise e => Raise e
  end.

Definition _execute (self : Backtester) (book : list Fill) (ts : Z)
    (sd : side) (price : Q) (qty : Z) : BT (list Fill) :=
  let pv := (price * inject_Z qty)%Q in
  let sign := match sd with BUY => 1%Z | SELL => (-1)%Z end in
  let* w := get in
  let* _ := modify (set_live
              (_cash w - (inject_Z sign * pv + commission self))%Q
              (_position w)) in
  let* w1 := get in
  let* _ := modify (set_live (_cash w1) (_position w1 + sign * qty)%Z) in
  let* w2 := get in
  ret (book ++ [{| f_date := ts; f_type := sd;
                   f_price := Py.round price 4; f_qty := qty;
                   f_cash := Py.round (_cash w2) 4 |}]).

(** The entry / exit decision of one row. *)
Definition trade_row (self : Backtester) (book : list Fill) (ts : Z)
    (px : Q) (buy sell : bool) : BT (list Fill) :=
  let* w := get in
  if buy && (_position w =? 0)%Z then
    if Qeq_bool px 0 then raise ZeroDivisionError
    else
      let qty := Qfloor (_cash w / px) in
      if negb (qty =? 0)%Z then _execute self book ts BUY px qty
      else ret book
  else if sell && (0 <? _position w)%Z then
    _execute self book ts SELL px (_position w)
  else ret book.

(** The body of [for ts, row in df.iterrows()], at row number [i]. *)
Definition row_body (self : Backtester) (df : loc) (book : list Fill)
    (i : nat) : BT (list Fill) :=
  let* d := read df in
  match index d !! i with
  | None => raise (KeyError "index")
  | Some ts =>
      let* c := lift (cell_at d "close" i) in
      let* px := lift (_scalar c) in
      let* b := lift (cell_at d "buy" i) in
      let* sl := lift (cell_at d "sell" i) in
      let* book' := trade_row self book ts px (truthy b) (truthy sl) in
      let* w := get in
      let* _ := update df (with_at ts "equity"
                  (VNum (_cash w + inject_Z (_position w) * px)%Q)) in
      ret book'
  end.

Fixpoint rows_loop (self : Backtester) (df : loc) (rows : list nat)
    (book : list Fill) : BT (list Fill) :=
  match rows with
  | [] => ret book
  | i :: rest =>
      let* book' := row_body self df book i in
      rows_loop self df rest book'
  end.

(** [trades["price"].diff()]; [None] is [nan]. *)
Fixpoint diff_from (prev : option Q) (prices : list Q) : list (option Q) :=
  match prices with
  | [] => []
  | p :: rest =>
      match prev with
      | Some p0 => Some (p - p0)%Q
      | None => None
      end :: diff_from (Some p) rest
  end.

Definition gt_zero (x : option Q) : bool :=
  match x with Some d => Qltb 0 d | None => false end.

(** [(trades["type"] == "SELL") & (trades["price"].diff() > 0.0)] *)
Definition win_mask (trades : list Fill) : list bool :=
  zip_with andb
    (map (fun t => side_eqb (f_type t) SELL) trades)
    (map gt_zero (diff_from None (map f_price trades))).

(** [mask.mean()] *)
Definition mean (mask : list bool) : Q :=
  (inject_Z (Z.of_nat (length (List.filter (fun b => b) mask)))
   / inject_Z (Z.of_nat (length mask)))%Q.

(** The [win_ratio] variable; [None] is [nan]. *)
Definition win_ratio (trades : list Fill) : option Q :=
  match trades with
  | [] => None
  | _ :: _ => Some (mean (win_mask trades))
  end.

Definition _build_summary (self : Backtester) (trades : list Fill)
    (pnl : DataFrame) : result Summary :=
  let final :=
    match index pnl with
    | [] => Ok (initial_cash self)
    | _ :: _ =>
        match column pnl "equity" with
        | Ok col =>
            match last col with
            | Some c => _scalar c
            | None => Raise (KeyError "equity")
            end
        | Raise e => Raise e
        end
    end in
  match final with
  | Raise e => Raise e
  | Ok final_nav =>
      if Qeq_bool (initial_cash self) 0 then Raise ZeroDivisionError
      else
        let total_return :=
          ((final_nav / initial_cash self - 1) * 100)%Q in
        Ok {| Initial_Cash := initial_cash self;
              Final_NAV := Py.round final_nav 2;
              Total_Return := Py.round total_return 2;
              Trades := length trades;
              Win_Ratio :=
                match win_ratio trades with
                | Some r => Some (Py.round r 2)
                | None => None
                end |}
  end.

Definition only_equity (d : DataFrame) : DataFrame :=
  {| index := index d; index_is_datetime := index_is_datetime d;
     columns := List.filter (fun kc : string * list cell =>
                               String.eqb (fst kc) "equity") (columns d) |}.

Definition ffill_equity (d : DataFrame) : DataFrame :=
  match dict_get (columns d) "equity" with
  | Some col => with_column "equity" (ffill_from VNaN col) d
  | None => d
  end.

(** [run], first part: the datetime check, the working copy [df], the
    aligned signal columns, the preallocated columns and the live state.
    Returns the identity of [df]. *)
Definition prepare (self : Backtester) (price_df signals : loc) : BT loc :=
  let* p := read price_df in
  if negb (index_is_datetime p) then raise ValueError
  else
    let* df := alloc p in
    let* sg := read signals in
    let* reindexed :=
      alloc (reindex_ffill sg (index p) (index_is_datetime p)) in
    let* r := read reindexed in
    let* sigs := alloc (fillna_false r) in
    let* sf := read sigs in
    let* bcol := lift (column sf "buy") in
    let* _ := update df (with_column "buy" (astype_bool bcol)) in
    let* scol := lift (column sf "sell") in
    let* _ := update df (with_column "sell" (astype_bool scol)) in
    let* _ := update df (with_constant "qty" (VNum 0)) in
    let* _ := update df (with_constant "cash" VNaN) in
    let* _ := update df (with_constant "equity" VNaN) in
    let* _ := modify (set_live (initial_cash self) 0%Z) in
    ret df.

(** [run], last part: the copy with the equity forward-filled, the
    equity frame and the summary. *)
Definition finish (self : Backtester) (df : loc)
    (executed_trades : list Fill) : BT (list Fill * loc * Summary) :=
  let* d := read df in
  let* df2 := alloc d in
  let* _ := update df2 ffill_equity in
  let* d2 := read df2 in
  let* pnl_df := alloc (only_equity d2) in
  let* pnl := read pnl_df in
  let* summary := lift (_build_summary self executed_trades pnl) in
  ret (executed_trades, pnl_df, summary).

(** [Backtester.run]: the arguments are the identities of the caller's
    two DataFrames; the result is the trade list, the identity of the new
    equity frame and the summary. *)
Definition run (self : Backtester) (price_df signals : loc)
  : BT (list Fill * loc * Summary) :=
  let* df := prepare self price_df signals in
  let* d := read df in
  let* executed_trades :=
    rows_loop self df (seq 0 (length (index d))) [] in
  finish self df executed_trades.

End backtester.

(** ** Specification-side definitions *)

Module Spec.
Import portfolio_manager.

(** The stock value as a plain sum, a missing ledger entry counting 0. *)
Fixpoint stock_sum (pos : gmap string Z) (prices : dict Q)
    (l : list string) (acc : Q) : Q :=
  match l with
  | [] => acc
  | k :: l' =>
      stock_sum pos prices l'
        (acc + inject_Z (default 0%Z (pos !! k)) * price_or_zero prices k)%Q
  end.

(** The allocation formula of the specification. *)
Definition available_cash (portfolio_value cash_now max_fraction
    reserve_fraction : Q) : Q :=
  Qmin (Qmax 0 (cash_now - portfolio_value * reserve_fraction))
       (portfolio_value * max_fraction).

(** The trade records of one instrument, in log order. *)
Definition trades_of (k : string) (log : list Trade) : list Trade :=
  filter (fun t => t_stock t = k) log.

Definition flip (sd : side) : side :=
  match sd with BUY => SELL | SELL => BUY end.

(** [l] reads [expect], then the other side, and so on. *)
Fixpoint alternates (expect : side) (l : list side) : bool :=
  match l with
  | [] => true
  | x :: l' => side_eqb x expect && alternates (flip expect) l'
  end.

Definition sides_of (k : string) (log : list Trade) : list side :=
  map t_type (trades_of k log).

(** The state after an executed BUY of [q] shares held on top of [held]. *)
Definition bought (stock : string) (price : Q) (date : Z) (held q : Z)
    (s : PortfolioManager) : PortfolioManager :=
  let trade_value := (price * inject_Z q)%Q in
  let fee := (trade_value * commission (config s))%Q in
  let c := (cash s - (trade_value + fee))%Q in
  append_trade
    {| t_date := date; t_stock := stock; t_type := BUY; t_price := price;
       t_quantity := q; t_value := trade_value; t_commission := fee;
       t_cash_after := c |}
    (set_position stock (held + q)%Z (set_cash c s)).

(** The state after an executed SELL of the [q] shares held. *)
Definition sold (stock : string) (price : Q) (date : Z) (q : Z)
    (s : PortfolioManager) : PortfolioManager :=
  let trade_value := (price * inject_Z q)%Q in
  let fee := (trade_value * commission (config s))%Q in
  let c := (cash s + (trade_value - fee))%Q in
  append_trade
    {| t_date := date; t_stock := stock; t_type := SELL; t_price := price;
       t_quantity := q; t_value := trade_value; t_commission := fee;
       t_cash_after := c |}
    (set_position stock 0%Z (set_cash c s)).

(** The states of a portfolio object: it starts from [reset] and changes
    only through its three mutating methods, here called with prices that
    satisfy [okp].  A call that raises leaves the state it had reached. *)
Inductive reachable (okp : Q -> Prop) (cfg : PortfolioConfig)
    (l : list string) : PortfolioManager -> Prop :=
| reach_reset : reachable okp cfg l (reset cfg l)
| reach_buy s stock price date prices :
    reachable okp cfg l s -> okp price ->
    Forall (fun kv : string * Q => okp (snd kv)) prices ->
    reachable okp cfg l (snd (execute_buy stock price date prices s))
| reach_sell s stock price date :
    reachable okp cfg l s -> okp price ->
    reachable okp cfg l (snd (execute_sell stock price date s))
| reach_daily s date prices :
    reachable okp cfg l s ->
    Forall (fun kv : string * Q => okp (snd kv)) prices ->
    reachable okp cfg l (snd (update_daily_value date prices s)).

(** Ledger and log of instrument [k] agree: the records alternate from
    BUY, the holding is never negative, and it is positive exactly when
    the last record of [k] is a BUY. *)
Definition ledger_inv (s : PortfolioManager) (k : string) : Prop :=
  alternates BUY (sides_of k (trade_log s)) = true /\
  match positions s !! k with
  | Some n =>
      (0 <= n)%Z /\
      ((0 < n)%Z <-> last (sides_of k (trade_log s)) = Some BUY)
  | None => sides_of k (trade_log s) = []
  end.

(** The object keeps its configuration, its instrument list and one
    ledger entry per instrument. *)
Definition shape_inv (cfg : PortfolioConfig) (l : list string)
    (s : PortfolioManager) : Prop :=
  config s = cfg /\ stocks s = l /\
  forall k, k ∈ l -> is_Some (positions s !! k).

(** Every close price of every frame satisfies [okp]. *)
Definition closes_ok (okp : Q -> Prop) (all_signals : dict main.Frame)
  : Prop :=
  forall kv d r, kv ∈ all_signals -> snd kv !! d = Some r ->
                 okp (main.close r).

(** An executed order: the method returned [True]. *)
Inductive executes (s : PortfolioManager)
  : side -> string -> Q -> PortfolioManager -> Prop :=
| executes_buy stock price date prices :
    fst (execute_buy stock price date prices s) = Ok true ->
    executes s BUY stock price
      (snd (execute_buy stock price date prices s))
| executes_sell stock price date :
    fst (execute_sell stock price date s) = Ok true ->
    executes s SELL stock price (snd (execute_sell stock price date s)).

(** Each value is at least the one before it. *)
Fixpoint nondecreasing (l : list Q) : Prop :=
  match l with
  | a :: (b :: _) as rest => (a <= b)%Q /\ nondecreasing rest
  | _ => True
  end.

(** A configuration the specification calls valid. *)
Definition valid_config (cfg : PortfolioConfig) : Prop :=
  (0 < initial_cash cfg)%Q /\
  (0 < max_position_size cfg)%Q /\ (max_position_size cfg <= 1)%Q /\
  (0 <= min_cash_reserve cfg)%Q /\ (min_cash_reserve cfg < 1)%Q /\
  (0 <= commission cfg)%Q.

(** A configuration the specification calls invalid. *)
Definition invalid_config (cfg : PortfolioConfig) : Prop :=
  (initial_cash cfg <= 0)%Q \/
  ~ ((0 < max_position_size cfg)%Q /\ (max_position_size cfg <= 1)%Q) \/
  (min_cash_reserve cfg < 0)%Q.

(** A boolean check of [closes_ok]. *)
Definition closes_okb (f : Q -> bool) (all_signals : dict main.Frame)
  : bool :=
  forallb (fun kv : string * main.Frame =>
             forallb (fun dr : Z * main.Row => f (main.close (snd dr)))
                     (map_to_list (snd kv)))
          all_signals.

End Spec.

(** ** Concrete inputs *)

Module Examples.
Import portfolio_manager main.

Definition frame (rows : list (Z * Row)) : Frame := list_to_map rows.

Definition row (c : Q) (b s : bool) : Row :=
  {| close := c; buy := b; sell := s |}.

(** The sizing of [main.py] (25% per position, 10% reserve), no fee. *)
Definition cfg_plain : PortfolioConfig :=
  {| initial_cash := 1000; commission := 0;
     max_position_size := 1 # 4; min_cash_reserve := 1 # 10 |}.

(** The defaults of [PortfolioConfig] with a cash of 1000. *)
Definition cfg_default : PortfolioConfig :=
  {| initial_cash := 1000; commission := 1 # 2000;
     max_position_size := 1 # 4; min_cash_reserve := 1 # 10 |}.

(** Valid by the specification: full allocation, no reserve, 0.05% fee. *)
Definition cfg_all_in : PortfolioConfig :=
  {| initial_cash := 1000; commission := 1 # 2000;
     max_position_size := 1; min_cash_reserve := 0 |}.

(** Invalid by the specification: negative cash. *)
Definition cfg_negative_cash : PortfolioConfig :=
  {| initial_cash := -100; commission := 1 # 2000;
     max_position_size := 1 # 4; min_cash_reserve := 1 # 10 |}.

(** A portfolio object holding the given daily totals. *)
Definition with_totals (totals : list Q) : PortfolioManager :=
  {| config := cfg_default; stocks := []; cash := 0; positions := ∅;
     trade_log := [];
     daily_values :=
       map (fun v => {| d_date := 0; d_cash := v; d_stock_value := 0;
                        d_total_value := v; d_positions := ∅ |}) totals |}.

(** Invalid by the specification: position fraction 2, reserve -1. *)
Definition cfg_out_of_range : PortfolioConfig :=
  {| initial_cash := 1000; commission := 0;
     max_position_size := 2; min_cash_reserve := -1 |}.

(** One instrument: a buy signal on day 1, both signals on day 2. *)
Definition both_flags : dict Frame :=
  [("A"%string, frame [(1%Z, row 100 true false);
                       (2%Z, row 100 true true)])].

(** One instrument, one day, a buy signal at 100. *)
Definition one_buy : dict Frame :=
  [("A"%string, frame [(1%Z, row 100 true false)])].

(** Half the portfolio per position, no reserve, no fee. *)
Definition cfg_half : PortfolioConfig :=
  {| initial_cash := 1000; commission := 0;
     max_position_size := 1 # 2; min_cash_reserve := 0 |}.

(** Two instruments, both with a buy signal at 100 on the same day. *)
Definition two_buyers : dict Frame :=
  [("A"%string, frame [(1%Z, row 100 true false)]);
   ("B"%string, frame [(1%Z, row 100 true false)])].

(** Two instruments over three days: A is bought and sold, B bought. *)
Definition two_stocks : dict Frame :=
  [("A"%string, frame [(1%Z, row 100 true false);
                       (2%Z, row 110 false false);
                       (3%Z, row 120 false true)]);
   ("B"%string, frame [(1%Z, row 50 true false);
                       (3%Z, row 40 false false)])].

End Examples.

(** ** Specification-side definitions for the single-instrument engine *)

Module BtSpec.
Import backtester.

(** The SELL records whose price exceeds that of the record before. *)
Fixpoint winning_sells (prev : option Q) (trades : list Fill) : nat :=
  match trades with
  | [] => 0
  | t :: rest =>
      (if side_eqb (f_type t) SELL &&
          match prev with Some p => Qltb p (f_price t) | None => false end
       then 1 else 0)%nat
      + winning_sells (Some (f_price t)) rest
  end.

Definition sells (trades : list Fill) : nat :=
  length (List.filter (fun t => side_eqb (f_type t) SELL) trades).

(** The flag the engine uses on price date [t] for a signal column [col]
    over the signal index [idx]: reindexed with forward fill, [nan]
    replaced by [False], cast to bool. *)
Definition flag_on (idx : list Z) (col : list cell) (t : Z) : bool :=
  truthy (fill_false (ffill_at (zip idx col) t)).

(** The signal column [name] carries no value on date [t]: the date is
    missing from the index, or the value there is [nan]. *)
Definition no_signal (sg : DataFrame) (name : string) (t : Z) : Prop :=
  forall col c, column sg name = Ok col ->
                (t, c) ∈ zip (index sg) col -> c = VNaN.

(** Rows in strictly ascending date order. *)
Definition ascending (rows : list (Z * cell)) : Prop :=
  StronglySorted (fun a b : Z * cell => (fst a < fst b)%Z) rows.

(** Column [col] triggers on date [t]: the latest signal row dated on
    or before [t] exists and carries a value that is not [nan] and is
    true. *)
Definition triggers (idx : list Z) (col : list cell) (t : Z) : Prop :=
  exists d c,
    (d, c) ∈ zip idx col /\ (d <= t)%Z /\
    (forall r, r ∈ zip idx col -> (fst r <= t)%Z -> (fst r <= d)%Z) /\
    c <> VNaN /\ truthy c = true.

(** The working copy carries the price index and the two aligned
    boolean columns. *)
Definition aligned_frame (idx : list Z) (fb fs : Z -> bool)
    (d : DataFrame) : Prop :=
  index d = idx /\
  column d "buy" = Ok (map (fun t => VBool (fb t)) idx) /\
  column d "sell" = Ok (map (fun t => VBool (fs t)) idx).

(** Every record of the book falls on a date where a flag is true. *)
Definition flagged (fb fs : Z -> bool) (book : list Fill) : Prop :=
  Forall (fun f => fb (f_date f) || fs (f_date f) = true) book.

(** The object at [l] is the frame [d]. *)
Definition holds (w : World) (l : loc) (d : DataFrame) : Prop :=
  heap w !! l = Some d.

(** The computation [m], raising or not, leaves the caller's two frames
    as they are, and a returned value satisfies [post]. *)
Definition keeps {A} (p s : loc) (pf sg : DataFrame) (m : BT A)
    (post : A -> Prop) : Prop :=
  forall w, holds w p pf -> holds w s sg ->
    holds (snd (m w)) p pf /\ holds (snd (m w)) s sg /\
    forall a, fst (m w) = Ok a -> post a.

End BtSpec.

Module BtExamples.
Import backtester.

Definition bt_plain : Backtester :=
  {| initial_cash := 1000; commission := 0 |}.

(** Prices on days 1 and 2. *)
Definition prices_two_days : DataFrame :=
  {| index := [1; 2]%Z; index_is_datetime := true;
     columns := [("close"%string, [VNum 100; VNum 110])] |}.

(** Signals on day 1 only: buy and sell both set. *)
Definition signals_day_one : DataFrame :=
  {| index := [1]%Z; index_is_datetime := true;
     columns := [("buy"%string, [VBool true]);
                 ("sell"%string, [VBool true])] |}.

(** Signals on both days, with [nan] on day 2. *)
Definition signals_with_nan : DataFrame :=
  {| index := [1; 2]%Z; index_is_datetime := true;
     columns := [("buy"%string, [VBool true; VNaN]);
                 ("sell"%string, [VBool true; VNaN])] |}.

(** Five falling closes, bought on day 1 and sold on day 5. *)
Definition prices_falling : DataFrame :=
  {| index := [1; 2; 3; 4; 5]%Z; index_is_datetime := true;
     columns := [("close"%string,
                  [VNum 100; VNum 90; VNum 80; VNum 70; VNum 60])] |}.

Definition signals_in_out : DataFrame :=
  {| index := [1; 2; 3; 4; 5]%Z; index_is_datetime := true;
     columns :=
       [("buy"%string, [VBool true; VBool false; VBool false; VBool false;
                        VBool false]);
        ("sell"%string, [VBool false; VBool false; VBool false; VBool false;
                         VBool true])] |}.

(** The caller's store: prices at 1, signals at 2. *)
Definition world_of (pf sg : DataFrame) : World :=
  {| heap := <[2%positive := sg]> (<[1%positive := pf]> ∅);
     _cash := 0; _position := 0 |}.

Definition fill (d : Z) (sd : side) (p : Q) (n : Z) (c : Q) : Fill :=
  {| f_date := d; f_type := sd; f_price := p; f_qty := n; f_cash := c |}.

(** A round trip: bought at 100, sold at 110. *)
Definition round_trip : list Fill :=
  [fill 1 BUY 100 10 0; fill 2 SELL 110 10 1100].

(** The records of the run over [prices_two_days] and
    [signals_day_one]: all cash in on day 1, all out on day 2. *)
Definition two_day_trades : list Fill :=
  [fill 1 BUY (Py.round 100 4) 10
     (Py.round (1000 - (1 * (100 * 10) + 0)) 4);
   fill 2 SELL (Py.round 110 4) 10
     (Py.round (1000 - (1 * (100 * 10) + 0) - (-1 * (110 * 10) + 0)) 4)].

Definition equity_frame (vals : list Q) : DataFrame :=
  {| index := map (fun _ => 0%Z) vals; index_is_datetime := true;
     columns := [("equity"%string, map VNum vals)] |}.

End BtExamples.

(** ** Further specification-side definitions for the portfolio engine *)

Module Ledger.
Import portfolio_manager.

(** The cash a record moves: out on a BUY, in on a SELL, fee included. *)
Definition cash_flow (c : Q) (t : Trade) : Q :=
  match t_type t with
  | BUY => (c - (t_value t + t_commission t))%Q
  | SELL => (c + (t_value t - t_commission t))%Q
  end.

(** The cash after replaying a log from the cash [c0]. *)
Definition replay (c0 : Q) (log : list Trade) : Q :=
  fold_left cash_flow log c0.

(** The shares a record adds to the holding of instrument [k]. *)
Definition share_flow (k : string) (n : Z) (t : Trade) : Z :=
  if decide (t_stock t = k) then
    match t_type t with
    | BUY => (n + t_quantity t)%Z
    | SELL => (n - t_quantity t)%Z
    end
  else n.

(** Bought minus sold shares of [k] over a log. *)
Definition net_quantity (k : string) (log : list Trade) : Z :=
  fold_left (share_flow k) log 0%Z.

(** No frame row carries a buy flag. *)
Definition never_buys (all_signals : dict main.Frame) : Prop :=
  forall kv d r, kv ∈ all_signals -> snd kv !! d = Some r ->
                 main.buy r = false.

Definition never_buysb (all_signals : dict main.Frame) : bool :=
  forallb (fun kv : string * main.Frame =>
             forallb (fun dr : Z * main.Row => negb (main.buy (snd dr)))
                     (map_to_list (snd kv)))
          all_signals.

(** The records of instrument [k] dated [d]. *)
Definition trades_on (k : string) (d : Z) (log : list Trade) : list Trade :=
  filter (fun t => t_stock t = k /\ t_date t = d) log.

End Ledger.

Module LedgerExamples.
Import portfolio_manager main Examples.

(** The object after the run over [two_stocks] with the default sizing. *)
Definition after_two_stocks : PortfolioManager :=
  snd (run_portfolio_backtest cfg_default two_stocks).

(** Sell flags only. *)
Definition only_sells : dict Frame :=
  [("A"%string, frame [(1%Z, row 100 false true);
                       (2%Z, row 90 false false)]);
   ("B"%string, frame [(2%Z, row 50 false true)])].

End LedgerExamples.


(** ** Further definitions for the single-instrument engine *)

Module BtMore.
Import backtester BtSpec BtExamples.


(** Mark-to-market equity of the live state at price [px]. *)
Definition equity (w : World) (px : Q) : Q :=
  (_cash w + inject_Z (_position w) * px)%Q.

(** The working copy also carries a close column whose numbers all
    satisfy [okpx]. *)
Definition priced_frame (okpx : Q -> Prop) (d : DataFrame) : Prop :=
  match column d "close" with
  | Ok cl => Forall (fun c => forall q, _scalar c = Ok q -> okpx q) cl
  | Raise _ => True
  end.

(** A price frame without rows. *)
Definition prices_no_rows : DataFrame :=
  {| index := []; index_is_datetime := true;
     columns := [("close"%string, [])] |}.

Definition signals_no_rows : DataFrame :=
  {| index := []; index_is_datetime := true;
     columns := [("buy"%string, []); ("sell"%string, [])] |}.

(** A price frame with a plain integer index. *)
Definition prices_not_dated : DataFrame :=
  {| index := [1; 2]%Z; index_is_datetime := false;
     columns := [("close"%string, [VNum 100; VNum 110])] |}.

(** A signal frame without a buy column. *)
Definition signals_no_buy : DataFrame :=
  {| index := [1]%Z; index_is_datetime := true;
     columns := [("sell"%string, [VBool true])] |}.




End BtMore.

(** ** The equity column of the single-instrument engine *)

Module BtEquity.
Import backtester BtSpec BtExamples BtMore.

(** Rows before [i] of the equity column are filled with numbers, and the
    row just before [i] holds the live equity at that row's close. *)
Definition marked (i : nat) (d : DataFrame) (w : World) : Prop :=
  exists col, column d "equity" = Ok col /\
    length col = length (index d) /\
    (forall j, (j < i)%nat -> exists q, col !! j = Some (VNum q)) /\
    (forall j, i = S j -> exists c px,
        cell_at d "close" j = Ok c /\ _scalar c = Ok px /\
        col !! j = Some (VNum (equity w px))).

(** A frame of one numeric equity column over the index [idx]. *)
Definition equity_curve (idx : list Z) (d : DataFrame) : Prop :=
  index d = idx /\
  Forall (fun kc : string * list cell => fst kc = "equity"%string)
    (columns d) /\
  exists col, column d "equity" = Ok col /\
    length col = length idx /\
    Forall (fun c => exists q, c = VNum q) col.

End BtEquity.

(** ** strategy/indicators.py *)

Module indicators.
Import Py.

(** A float Series over finite data; [None] is [nan]. *)
Abbreviation Series := (list (option Q)).

(** [k / x] for a finite [k]. *)
Definition np_rdiv (k : Q) (x : float64) : float64 :=
  match x with
  | Fin q => np_div k q
  | PInf | NInf => Fin 0
  | NaN => NaN
  end.

(** [k - x] for a finite [k]. *)
Definition np_rsub (k : Q) (x : float64) : float64 :=
  match x with
  | Fin q => Fin (k - q)
  | PInf => NInf
  | NInf => PInf
  | NaN => NaN
  end.

(** [a / b] on two cells of float Series. *)
Definition cell_div (a b : option Q) : float64 :=
  match a, b with
  | Some x, Some y => np_div x y
  | _, _ => NaN
  end.

Fixpoint diff_after (prev : option Q) (series : Series) : Series :=
  match series with
  | [] => []
  | x :: rest =>
      match prev, x with
      | Some a, Some b => Some (b - a)%Q
      | _, _ => None
      end :: diff_after x rest
  end.

(** [series.diff()]: the first row is [nan]. *)
Definition diff (series : Series) : Series := diff_after None series.

(** [clip(lower=lo)] and [clip(upper=hi)] on one cell. *)
Definition clip_lower (lo : Q) (x : option Q) : option Q :=
  option_map (fun v => if Qltb v lo then lo else v) x.

Definition clip_upper (hi : Q) (x : option Q) : option Q :=
  option_map (fun v => if Qltb hi v then hi else v) x.

Definition neg (x : option Q) : option Q := option_map Qopp x.

(** The sum of a window, [None] when it holds a [nan]. *)
Fixpoint total (xs : list (option Q)) : option Q :=
  match xs with
  | [] => Some 0%Q
  | Some x :: rest =>
      match total rest with
      | Some t => Some (x + t)%Q
      | None => None
      end
  | None :: _ => None
  end.

(** The value of [rolling(window).mean()] at row [i]: [nan] until
    [window] rows are there, and when one of them is [nan]. *)
Definition rolling_mean_at (window : nat) (series : Series) (i : nat)
  : option Q :=
  match window with
  | O => None
  | S _ =>
      if (window <=? S i)%nat then
        match total (take window (drop (S i - window) series)) with
        | Some t => Some (t / inject_Z (Z.of_nat window))%Q
        | None => None
        end
      else None
  end.

Definition rolling_mean (window : nat) (series : Series) : Series :=
  map (rolling_mean_at window series) (seq 0 (length series)).

Definition sma (series : Series) (window : nat) : Series :=
  rolling_mean window series.

Definition rsi (series : Series) (period : nat) : list float64 :=
  let delta := diff series in
  let up := map (clip_lower 0) delta in
  let down := map neg (map (clip_upper 0) delta) in
  let roll_up := rolling_mean period up in
  let roll_down := rolling_mean period down in
  let rs := zip_with cell_div roll_up roll_down in
  map (fun x => np_rsub 100 (np_rdiv 100 (np_add x 1))) rs.

End indicators.

(** ** strategy/rsi_ma_strategy.py *)

Module rsi_ma_strategy.
Import Py indicators.

Record RSIMAStrategyConfig := {
  rsi_period : nat;
  fast_ma : nat;
  slow_ma : nat;
  buy_rsi : Q;
  sell_rsi : Q
}.

(** The columns the strategy adds to the frame, next to the close. *)
Record SignalFrame := {
  col_close : Series;
  col_rsi : list float64;
  col_ma_fast : Series;
  col_ma_slow : Series;
  col_ma_cross : list bool;
  col_ma_cross_prev : list bool;
  col_bullish_crossover : list bool;
  col_bearish_crossover : list bool;
  col_buy : list bool;
  col_sell : list bool
}.

(** [a > b] on two cells; a comparison with [nan] is false. *)
Definition cell_gt (a b : option Q) : bool :=
  match a, b with
  | Some x, Some y => Qltb y x
  | _, _ => false
  end.

Definition np_lt (x y : float64) : bool := np_gt y x.

(** [shift(1).fillna(False).astype(bool)] *)
Definition shift_false (col : list bool) : list bool :=
  take (length col) (false :: col).

(** [_compute_indicators]; the two signal columns are still empty. *)
Definition _compute_indicators (cfg : RSIMAStrategyConfig) (close : Series)
  : SignalFrame :=
  let r := rsi close (rsi_period cfg) in
  let f := sma close (fast_ma cfg) in
  let s := sma close (slow_ma cfg) in
  let cross := zip_with cell_gt f s in
  let prev := shift_false cross in
  {| col_close := close; col_rsi := r; col_ma_fast := f; col_ma_slow := s;
     col_ma_cross := cross; col_ma_cross_prev := prev;
     col_bullish_crossover := zip_with andb cross (map negb prev);
     col_bearish_crossover := zip_with andb (map negb cross) prev;
     col_buy := []; col_sell := [] |}.

Definition generate_signals (cfg : RSIMAStrategyConfig) (close : Series)
  : SignalFrame :=
  let df := _compute_indicators cfg close in
  let buy_cond_1 := map (fun x => np_lt x (Fin (buy_rsi cfg))) (col_rsi df) in
  let buy_cond_2 :=
    zip_with andb (map (fun x => np_lt x (Fin 45)) (col_rsi df))
      (col_bullish_crossover df) in
  let buy_cond := zip_with orb buy_cond_1 buy_cond_2 in
  let sell_cond_1 :=
    map (fun x => np_gt x (Fin (sell_rsi cfg))) (col_rsi df) in
  let sell_cond_2 :=
    zip_with andb (map (fun x => np_gt x (Fin 55)) (col_rsi df))
      (col_bearish_crossover df) in
  let sell_cond := zip_with orb sell_cond_1 sell_cond_2 in
  {| col_close := col_close df; col_rsi := col_rsi df;
     col_ma_fast := col_ma_fast df; col_ma_slow := col_ma_slow df;
     col_ma_cross := col_ma_cross df;
     col_ma_cross_prev := col_ma_cross_prev df;
     col_bullish_crossover := col_bullish_crossover df;
     col_bearish_crossover := col_bearish_crossover df;
     col_buy := buy_cond; col_sell := sell_cond |}.

End rsi_ma_strategy.

(** ** Specification-side definitions for the strategy *)

Module StrategySpec.
Import Py indicators rsi_ma_strategy.

(** A cell is [nan] or satisfies [P]. *)
Definition nan_or (P : Q -> Prop) (x : option Q) : Prop :=
  match x with
  | Some q => P q
  | None => True
  end.


(** The RSI of one row, from its two rolling means. *)
Definition rsi_cell (a b : option Q) : float64 :=
  np_rsub 100 (np_rdiv 100 (np_add (cell_div a b) 1)).

(** No close is below the one before it. *)
Definition never_falls (close : Series) : Prop :=
  Forall (nan_or (fun d => (0 <= d)%Q)) (diff close).

(** No close is above the one before it. *)
Definition never_rises (close : Series) : Prop :=
  Forall (nan_or (fun d => (d <= 0)%Q)) (diff close).

(** The buy side of the thresholds lies below the sell side. *)
Definition thresholds_apart (cfg : RSIMAStrategyConfig) : Prop :=
  (buy_rsi cfg <= sell_rsi cfg)%Q /\ (buy_rsi cfg <= 55)%Q /\
  (45 <= sell_rsi cfg)%Q.

(** The defaults of [RSIMAStrategyConfig]. *)
Definition default_config : RSIMAStrategyConfig :=
  {| rsi_period := 14; fast_ma := 20; slow_ma := 50;
     buy_rsi := 30; sell_rsi := 70 |}.

(** Short windows, the default thresholds. *)
Definition quick_config : RSIMAStrategyConfig :=
  {| rsi_period := 2; fast_ma := 2; slow_ma := 3;
     buy_rsi := 30; sell_rsi := 70 |}.

Definition rising : Series := [Some 1; Some 2; Some 3; Some 4; Some 5]%Q.

Definition falling : Series := [Some 5; Some 4; Some 3; Some 2; Some 1]%Q.

End StrategySpec.

(** ** Specification-side definitions: the decisions of the loop *)

Module ReplaySpec.
Import Py backtester BtSpec.

(** The entry / exit decisions of the loop over explicit rows, each a
    date, a close, a buy flag and a sell flag. *)
Fixpoint decisions (self : Backtester) (rows : list (Z * Q * bool * bool))
    (book : list Fill) : BT (list Fill) :=
  match rows with
  | [] => ret book
  | (ts, px, b, sl) :: rest =>
      let* book' := trade_row self book ts px b sl in
      decisions self rest book'
  end.

(** The rows of a price frame, each with the flags of its date. *)
Definition flagged_rows (idx : list Z) (prices : list Q)
    (fb fs : Z -> bool) : list (Z * Q * bool * bool) :=
  zip_with (fun ts px => (ts, px, fb ts, fs ts)) idx prices.

(** The close column holds the numbers [prices], one per row: no close
    is [nan]. *)
Definition numeric_closes (d : DataFrame) (prices : list Q) : Prop :=
  column d "close" = Ok (map VNum prices) /\
  length prices = length (index d).

End ReplaySpec.

(** ** Specification-side definitions for the drawdown metric *)

Module DrawdownSpec.
Import Py portfolio_manager.

(** [peak] is the running peak at row [i]: one of the first [i + 1]
    totals, and none of them is above it. *)
Definition is_running_peak (values : list Q) (i : nat) (peak : Q) : Prop :=
  (exists j, (j <= i)%nat /\ values !! j = Some peak) /\
  forall j v, (j <= i)%nat -> values !! j = Some v -> (v <= peak)%Q.

(** [(peak - value) / peak * 100] *)
Definition drawdown_of (peak value : Q) : float64 :=
  np_mul (np_div (peak - value) peak) 100.

(** [d] is the drawdown of some row against its running peak. *)
Definition observed (values : list Q) (d : float64) : Prop :=
  exists i peak value,
    values !! i = Some value /\ is_running_peak values i peak /\
    d = drawdown_of peak value.

(** The same float64 value: equal numbers, or the same special value. *)
Definition same_float (x y : float64) : Prop :=
  match x, y with
  | Fin a, Fin b => (a == b)%Q
  | PInf, PInf | NInf, NInf | NaN, NaN => True
  | _, _ => False
  end.

End DrawdownSpec.

Module MoreExamples.
Import portfolio_manager main Examples.

(** The sizing of [main.py] with a fee of five times the trade value. *)
Definition cfg_heavy_fee : PortfolioConfig :=
  {| initial_cash := 1000; commission := 5;
     max_position_size := 1 # 4; min_cash_reserve := 1 # 10 |}.

End MoreExamples.

(** ** Facts about the Python arithmetic *)

Module PyFacts.

Lemma Qltb_true (x y : Q) : Qltb x y = true <-> (x < y)%Q.
Proof.
  unfold Qltb. rewrite negb_true_iff.
  split.
  - intros H. apply Qnot_le_lt. intros Hle.
    apply Qle_bool_iff in Hle. congruence.
  - intros H. destruct (Qle_bool y x) eqn:E; [|reflexivity].
    apply Qle_bool_iff in E. lra.
Qed.

Lemma Qltb_false (x y : Q) : Qltb x y = false <-> (y <= x)%Q.
Proof.
  unfold Qltb. rewrite negb_false_iff. apply Qle_bool_iff.
Qed.

Lemma max_Qmax (a b : Q) : (Py.max a b == Qmax a b)%Q.
Proof.
  unfold Py.max. destruct (Qltb a b) eqn:E.
  - apply Qltb_true in E. symmetry. apply Q.max_r. lra.
  - apply Qltb_false in E. symmetry. apply Q.max_l. lra.
Qed.

Lemma min_Qmin (a b : Q) : (Py.min a b == Qmin a b)%Q.
Proof.
  unfold Py.min. destruct (Qltb b a) eqn:E.
  - apply Qltb_true in E. symmetry. apply Q.min_r. lra.
  - apply Qltb_false in E. symmetry. apply Q.min_l. lra.
Qed.

Lemma int_floor (x : Q) : (0 <= x)%Q -> Py.int x = Qfloor x.
Proof.
  destruct x as [n d]. unfold Qle, Py.int, Qfloor. simpl.
  intros H. apply Z.quot_div_nonneg; lia.
Qed.

End PyFacts.

(** ** The methods of [PortfolioManager], one equation each *)

Module ManagerFacts.
Import portfolio_manager Spec PyFacts.

Lemma position_of_eq (k : string) (s : PortfolioManager) :
  position_of k s =
  (match positions s !! k with
   | Some n => Ok n
   | None => Raise (KeyError k)
   end, s).
Proof.
  unfold position_of, bind, get. destruct (positions s !! k); reflexivity.
Qed.

Lemma sum_positions_state (prices : dict Q) (l : list string) :
  forall acc s, snd (sum_positions prices l acc s) = s.
Proof.
  induction l as [|k l IH]; intros acc s; simpl; [reflexivity|].
  unfold bind. rewrite position_of_eq.
  destruct (positions s !! k); simpl; [apply IH | reflexivity].
Qed.

Lemma sum_positions_ok (prices : dict Q) (l : list string) :
  forall acc s,
    (forall k, k ∈ l -> is_Some (positions s !! k)) ->
    sum_positions prices l acc s =
    (Ok (stock_sum (positions s) prices l acc), s).
Proof.
  induction l as [|k l IH]; intros acc s Hk; simpl; [reflexivity|].
  unfold bind. rewrite position_of_eq.
  destruct (Hk k) as [n Hn]; [left|]. rewrite Hn. simpl.
  apply IH. intros k' Hk'. apply Hk. by right.
Qed.

Lemma get_portfolio_value_state (prices : dict Q) (s : PortfolioManager) :
  snd (get_portfolio_value prices s) = s.
Proof.
  unfold get_portfolio_value, bind, get.
  pose proof (sum_positions_state prices (stocks s) 0%Q s) as H.
  destruct (sum_positions prices (stocks s) 0%Q s) as [[v|e] s']; simpl in *;
    congruence.
Qed.

Lemma get_portfolio_value_ok (prices : dict Q) (s : PortfolioManager) :
  (forall k, k ∈ stocks s -> is_Some (positions s !! k)) ->
  get_portfolio_value prices s =
  (Ok (cash s + stock_sum (positions s) prices (stocks s) 0)%Q, s).
Proof.
  intros Hk. unfold get_portfolio_value, bind, get.
  rewrite (sum_positions_ok prices (stocks s) 0%Q s Hk). reflexivity.
Qed.

(** The allocator as one equation: the value as the source computes it,
    and the object left as it was. *)
Lemma get_available_cash_eq (prices : dict Q) (s : PortfolioManager) :
  get_available_cash_for_stock prices s =
  (match fst (get_portfolio_value prices s) with
   | Ok pv =>
       Ok (Py.min
             (Py.max 0 (cash s - pv * min_cash_reserve (config s)))
             (pv * max_position_size (config s)))
   | Raise e => Raise e
   end, s).
Proof.
  unfold get_available_cash_for_stock, bind.
  pose proof (get_portfolio_value_state prices s) as H.
  destruct (get_portfolio_value prices s) as [[pv|e] s']; simpl in *;
    subst s'; reflexivity.
Qed.

Lemma can_buy_state stock price prices s :
  snd (can_buy stock price prices s) = s.
Proof.
  unfold can_buy, bind. rewrite position_of_eq.
  destruct (positions s !! stock) as [held|]; [|reflexivity].
  destruct (0 <? held)%Z; [reflexivity|].
  rewrite get_available_cash_eq.
  destruct (fst (get_portfolio_value prices s)) as [pv|e]; [|reflexivity].
  match goal with |- context [Qltb ?a price] => destruct (Qltb a price) end;
    [reflexivity|].
  unfold lift.
  match goal with
  | |- context [int_div ?a price] => destruct (int_div a price)
  end;
    reflexivity.
Qed.

(** When [can_buy] says yes. *)
Lemma can_buy_true stock price prices s q :
  fst (can_buy stock price prices s) = Ok (true, q) ->
  exists held avail,
    positions s !! stock = Some held /\ (held <= 0)%Z /\
    fst (get_available_cash_for_stock prices s) = Ok avail /\
    (price <= avail)%Q /\ ~ (price == 0)%Q /\
    q = Py.int (avail / price) /\ (0 < q)%Z.
Proof.
  unfold can_buy, bind. rewrite position_of_eq.
  destruct (positions s !! stock) as [held|]; [|discriminate].
  destruct (0 <? held)%Z eqn:Hh; [discriminate|].
  apply Z.ltb_ge in Hh.
  destruct (get_available_cash_for_stock prices s) as [[avail|e] s1] eqn:Ha;
    [|discriminate].
  pose proof (get_available_cash_eq prices s) as Hst.
  rewrite Ha in Hst. injection Hst as _ Hs1. subst s1.
  destruct (Qltb avail price) eqn:Hlt; [discriminate|].
  apply Qltb_false in Hlt.
  unfold lift, int_div.
  destruct (Qeq_bool price 0) eqn:Hz.
  { destruct (Qeq_bool avail 0); discriminate. }
  simpl. intros H. injection H as Hpos Hq. subst q.
  exists held, avail. repeat split; auto.
  - intros Hp. apply Qeq_bool_iff in Hp. congruence.
  - apply Z.ltb_lt. exact Hpos.
Qed.

Lemma execute_buy_cases stock price date prices s :
  (snd (execute_buy stock price date prices s) = s /\
   fst (execute_buy stock price date prices s) <> Ok true) \/
  (exists held avail q,
     positions s !! stock = Some held /\ (held <= 0)%Z /\
     fst (get_available_cash_for_stock prices s) = Ok avail /\
     (price <= avail)%Q /\ ~ (price == 0)%Q /\
     q = Py.int (avail / price) /\ (0 < q)%Z /\
     execute_buy stock price date prices s =
     (Ok true, bought stock price date held q s)).
Proof.
  unfold execute_buy, bind, get, modify, ret.
  pose proof (can_buy_state stock price prices s) as Hst.
  pose proof (can_buy_true stock price prices s) as Htrue.
  destruct (can_buy stock price prices s) as [[[ok q]|e] s1];
    simpl in Hst; subst s1.
  2: { left. split; [reflexivity | simpl; discriminate]. }
  destruct ok; simpl.
  2: { left. split; [reflexivity | discriminate]. }
  right.
  destruct (Htrue q eq_refl)
    as (held & avail & Hp & Hh & Ha & Hle & Hz & Hq & Hpos).
  exists held, avail, q. repeat split; auto.
  rewrite position_of_eq. simpl. rewrite Hp. reflexivity.
Qed.

Lemma execute_sell_cases stock price date s :
  (snd (execute_sell stock price date s) = s /\
   fst (execute_sell stock price date s) <> Ok true) \/
  (exists q,
     positions s !! stock = Some q /\ (0 < q)%Z /\
     execute_sell stock price date s = (Ok true, sold stock price date q s)).
Proof.
  unfold execute_sell, can_sell, bind. rewrite position_of_eq.
  destruct (positions s !! stock) as [q|] eqn:Hp.
  2: { left. split; [reflexivity | simpl; discriminate]. }
  simpl. destruct (0 <? q)%Z eqn:Hq; simpl.
  2: { left. split; [reflexivity | discriminate]. }
  right. exists q. apply Z.ltb_lt in Hq. repeat split; auto.
Qed.

Lemma update_daily_value_eq date prices s :
  update_daily_value date prices s =
  match fst (get_portfolio_value prices s) with
  | Ok pv =>
      (Ok tt, append_daily
        {| d_date := date; d_cash := cash s;
           d_stock_value := (pv - cash s)%Q; d_total_value := pv;
           d_positions := positions s |} s)
  | Raise e => (Raise e, s)
  end.
Proof.
  unfold update_daily_value, bind.
  pose proof (get_portfolio_value_state prices s) as H.
  destruct (get_portfolio_value prices s) as [[pv|e] s']; simpl in *;
    subst s'; reflexivity.
Qed.

End ManagerFacts.

(** ** The position ledger and the trade log *)

Module LedgerFacts.
Import portfolio_manager Spec PyFacts ManagerFacts.

Lemma sides_of_snoc (k : string) (log : list Trade) (t : Trade) :
  sides_of k (log ++ [t]) =
  if decide (t_stock t = k) then sides_of k log ++ [t_type t]
  else sides_of k log.
Proof.
  unfold sides_of, trades_of. rewrite filter_app, filter_cons, filter_nil.
  destruct (decide (t_stock t = k)) as [E|E].
  - rewrite map_app. reflexivity.
  - rewrite app_nil_r. reflexivity.
Qed.

(** The side a log that alternates from [e] expects next. *)
Lemma alternates_snoc (l : list side) :
  forall e x,
    alternates e (l ++ [x]) =
    alternates e l &&
    side_eqb x (match last l with Some y => flip y | None => e end).
Proof.
  induction l as [|a l IH]; intros e x; simpl.
  - rewrite andb_true_r. reflexivity.
  - rewrite IH. destruct l as [|b l].
    + destruct a, e, x; reflexivity.
    + change (last (a :: b :: l)) with (last (b :: l)).
      destruct (last (b :: l)) as [y|] eqn:E.
      * rewrite andb_assoc. reflexivity.
      * apply last_None in E. discriminate.
Qed.

Lemma zero_positions_lookup (l : list string) (k : string) :
  zero_positions l !! k = if decide (k ∈ l) then Some 0%Z else None.
Proof.
  unfold zero_positions.
  assert (G : forall (m : gmap string Z),
    foldl (fun m k => <[k := 0%Z]> m) m l !! k =
    if decide (k ∈ l) then Some 0%Z else m !! k).
  { induction l as [|a l IH]; intros m; simpl.
    - destruct (decide (k ∈ [])) as [H|H]; [inversion H | reflexivity].
    - rewrite IH. destruct (decide (k ∈ l)) as [H|H].
      + rewrite decide_True; [reflexivity | by right].
      + destruct (decide (a = k)) as [->|Hne].
        * rewrite lookup_insert_eq, decide_True; [reflexivity | by left].
        * rewrite lookup_insert_ne by assumption.
          rewrite decide_False; [reflexivity|].
          intros Hin. apply elem_of_cons in Hin as [->|Hin]; auto. }
  rewrite G. destruct (decide (k ∈ l)); [reflexivity | apply lookup_empty].
Qed.

Lemma ledger_inv_reset cfg l k : ledger_inv (reset cfg l) k.
Proof.
  unfold ledger_inv. simpl. split; [reflexivity|].
  rewrite zero_positions_lookup. destruct (decide (k ∈ l)); [|reflexivity].
  split; [lia|]. split; [lia | discriminate].
Qed.

Lemma ledger_inv_bought stock price date held q s :
  positions s !! stock = Some held -> (held <= 0)%Z -> (0 < q)%Z ->
  (forall k, ledger_inv s k) ->
  forall k, ledger_inv (bought stock price date held q s) k.
Proof.
  intros Hp Hh Hq Hinv k. specialize (Hinv k).
  unfold ledger_inv in *. simpl. rewrite sides_of_snoc. simpl.
  destruct (decide (stock = k)) as [<-|Hne].
  - rewrite Hp in Hinv. destruct Hinv as (Halt & Hn & Hlast).
    rewrite lookup_insert_eq, alternates_snoc, last_snoc, Halt. simpl.
    assert (Hnot : last (sides_of stock (trade_log s)) <> Some BUY).
    { intros E. apply Hlast in E. lia. }
    split.
    + destruct (last (sides_of stock (trade_log s))) as [[|]|];
        simpl; congruence.
    + split; [lia|]. split; [reflexivity | lia].
  - rewrite lookup_insert_ne by assumption. exact Hinv.
Qed.

Lemma ledger_inv_sold stock price date q s :
  positions s !! stock = Some q -> (0 < q)%Z ->
  (forall k, ledger_inv s k) ->
  forall k, ledger_inv (sold stock price date q s) k.
Proof.
  intros Hp Hq Hinv k. specialize (Hinv k).
  unfold ledger_inv in *. simpl. rewrite sides_of_snoc. simpl.
  destruct (decide (stock = k)) as [<-|Hne].
  - rewrite Hp in Hinv. destruct Hinv as (Halt & Hn & Hlast).
    rewrite lookup_insert_eq, alternates_snoc, last_snoc, Halt.
    apply Hlast in Hq. rewrite Hq. simpl.
    split; [reflexivity|]. split; [lia|]. split; [lia | discriminate].
  - rewrite lookup_insert_ne by assumption. exact Hinv.
Qed.

Lemma reachable_ledger okp cfg l s :
  reachable okp cfg l s -> forall k, ledger_inv s k.
Proof.
  induction 1 as [|s stock price date prices _ IH _ _
                  |s stock price date _ IH _
                  |s date prices _ IH _].
  - intros k. apply ledger_inv_reset.
  - destruct (execute_buy_cases stock price date prices s)
      as [[-> _]|(held & avail & q & Hp & Hh & _ & _ & _ & _ & Hq & ->)].
    + exact IH.
    + simpl. by apply ledger_inv_bought.
  - destruct (execute_sell_cases stock price date s)
      as [[-> _]|(q & Hp & Hq & ->)].
    + exact IH.
    + simpl. by apply ledger_inv_sold.
  - rewrite update_daily_value_eq.
    destruct (fst (get_portfolio_value prices s)); exact IH.
Qed.

Lemma shape_inv_reset cfg l : shape_inv cfg l (reset cfg l).
Proof.
  unfold shape_inv. simpl. repeat split.
  intros k Hk. rewrite zero_positions_lookup, decide_True by assumption.
  by eexists.
Qed.

Lemma reachable_shape okp cfg l s :
  reachable okp cfg l s -> shape_inv cfg l s.
Proof.
  induction 1 as [|s stock price date prices _ IH _ _
                  |s stock price date _ IH _
                  |s date prices _ IH _].
  - apply shape_inv_reset.
  - destruct (execute_buy_cases stock price date prices s)
      as [[-> _]|(held & avail & q & Hp & _ & _ & _ & _ & _ & _ & ->)].
    + exact IH.
    + destruct IH as (Hc & Hs & Hk). unfold shape_inv. simpl.
      repeat split; auto. intros k Hin.
      destruct (decide (stock = k)) as [<-|Hne].
      * rewrite lookup_insert_eq. by eexists.
      * rewrite lookup_insert_ne by assumption. by apply Hk.
  - destruct (execute_sell_cases stock price date s)
      as [[-> _]|(q & Hp & Hq & ->)].
    + exact IH.
    + destruct IH as (Hc & Hs & Hk). unfold shape_inv. simpl.
      repeat split; auto. intros k Hin.
      destruct (decide (stock = k)) as [<-|Hne].
      * rewrite lookup_insert_eq. by eexists.
      * rewrite lookup_insert_ne by assumption. by apply Hk.
  - rewrite update_daily_value_eq.
    destruct (fst (get_portfolio_value prices s)); exact IH.
Qed.

End LedgerFacts.

(** ** The day loop *)

Module RunFacts.
Import portfolio_manager main Spec PyFacts ManagerFacts LedgerFacts.

Lemma for_each_inv {S A} (I : S -> Prop) (xs : list A)
    (body : A -> M S unit) :
  (forall x s, x ∈ xs -> I s ->
               fst (body x s) = Ok tt /\ I (snd (body x s))) ->
  forall s, I s ->
    fst (for_each xs body s) = Ok tt /\ I (snd (for_each xs body s)).
Proof.
  induction xs as [|x xs IH]; intros Hbody s Hs; simpl.
  - split; [reflexivity | exact Hs].
  - unfold bind. destruct (Hbody x s) as [Hok Hi]; [by left | exact Hs |].
    destruct (body x s) as [[[]|e] s1]; simpl in *; [|discriminate].
    apply IH; [|exact Hi].
    intros y s' Hy. apply Hbody. by right.
Qed.

Lemma dict_get_is_Some {V} (d : dict V) (k : string) :
  k ∈ keys d -> is_Some (dict_get d k).
Proof.
  unfold keys. induction d as [|[k' v] d IH]; simpl.
  - intros H. inversion H.
  - intros H. destruct (String.eqb k k') eqn:E; [by eexists|].
    apply String.eqb_neq in E.
    apply elem_of_cons in H as [H|H]; [congruence | by apply IH].
Qed.

Lemma keys_dict_set {V} (d : dict V) (k : string) (v : V) (x : string) :
  x ∈ keys (dict_set d k v) -> x = k \/ x ∈ keys d.
Proof.
  unfold keys. induction d as [|[k' v'] d IH]; simpl.
  - intros H. apply elem_of_cons in H as [H|H]; [by left | inversion H].
  - destruct (String.eqb k k'); simpl; [by right|].
    intros H. apply elem_of_cons in H as [H|H].
    + right. subst. by left.
    + destruct (IH H) as [?|?]; [by left | right; by right].
Qed.

Lemma Forall_dict_set {V} (P : V -> Prop) (d : dict V) (k : string) (v : V) :
  Forall (fun kv : string * V => P (snd kv)) d -> P v ->
  Forall (fun kv : string * V => P (snd kv)) (dict_set d k v).
Proof.
  intros Hd Hv. induction Hd as [|[k' v'] d Hx Hd IH]; simpl.
  - constructor; [exact Hv | constructor].
  - destruct (String.eqb k k'); constructor; auto.
Qed.

Lemma prices_on_spec okp (all_signals : dict Frame) (date : Z) :
  closes_ok okp all_signals ->
  Forall (fun kv : string * Q => okp (snd kv)) (prices_on all_signals date) /\
  forall x, x ∈ keys (prices_on all_signals date) -> x ∈ keys all_signals.
Proof.
  unfold prices_on, closes_ok.
  assert (G : forall (l : dict Frame) (acc : dict Q),
    (forall kv d r, kv ∈ l -> snd kv !! d = Some r -> okp (close r)) ->
    Forall (fun kv : string * Q => okp (snd kv)) acc ->
    let res := foldl (fun cp (kv : string * Frame) =>
                 match snd kv !! date with
                 | Some r => dict_set cp (fst kv) (close r)
                 | None => cp
                 end) acc l in
    Forall (fun kv : string * Q => okp (snd kv)) res /\
    forall x, x ∈ keys res -> x ∈ keys acc \/ x ∈ keys l).
  { induction l as [|[k df] l IH]; intros acc Hok Hacc; simpl.
    - split; [exact Hacc | intros x Hx; by left].
    - destruct (df !! date) as [r|] eqn:E.
      + destruct (IH (dict_set acc k (close r))) as [H1 H2].
        * intros kv d r' Hin. apply Hok. by right.
        * apply Forall_dict_set; [exact Hacc|].
          apply (Hok (k, df) date r); [by left | exact E].
        * split; [exact H1|]. intros x Hx.
          destruct (H2 x Hx) as [Hx'|Hx'].
          -- apply keys_dict_set in Hx' as [->|Hx'];
               [right; by left | by left].
          -- right. by right.
      + destruct (IH acc) as [H1 H2].
        * intros kv d r' Hin. apply Hok. by right.
        * exact Hacc.
        * split; [exact H1|]. intros x Hx.
          destruct (H2 x Hx) as [Hx'|Hx']; [by left | right; by right]. }
  intros Hok. destruct (G all_signals [] Hok) as [H1 H2]; [constructor|].
  split; [exact H1|]. intros x Hx.
  destruct (H2 x Hx) as [Hx'|Hx']; [inversion Hx' | exact Hx'].
Qed.

End RunFacts.

(** ** The multi-instrument engine: verified properties *)

Module EngineClaims.
Import portfolio_manager main Spec Examples DrawdownSpec MoreExamples.
Import PyFacts ManagerFacts LedgerFacts RunFacts.

Lemma closes_okb_sound (okp : Q -> Prop) (f : Q -> bool)
    (all_signals : dict Frame) :
  (forall p, f p = true -> okp p) ->
  closes_okb f all_signals = true -> closes_ok okp all_signals.
Proof.
  intros Hf Hb kv d r Hin Hr.
  unfold closes_okb in Hb. rewrite forallb_forall in Hb.
  apply list_elem_of_In in Hin. specialize (Hb kv Hin).
  rewrite forallb_forall in Hb.
  apply Hf. apply (Hb (d, r)).
  apply list_elem_of_In. by apply elem_of_map_to_list.
Qed.

(** Whatever the prices, the state a run ends in (or stops in, when it
    raises) is one the three mutating methods can reach. *)
Lemma run_reachable (cfg : PortfolioConfig) (all_signals : dict Frame) :
  reachable (fun _ => True) cfg (keys all_signals)
    (snd (run_portfolio_backtest cfg all_signals)).
Proof.
  unfold run_portfolio_backtest.
  set (l := keys all_signals).
  assert (Hfor : forall {A} (xs : list A) (body : A -> PM unit),
    (forall x s, reachable (fun _ => True) cfg l s ->
                 reachable (fun _ => True) cfg l (snd (body x s))) ->
    forall s, reachable (fun _ => True) cfg l s ->
              reachable (fun _ => True) cfg l (snd (for_each xs body s))).
  { intros A xs body Hbody. induction xs as [|x xs IH]; intros s Hs; simpl.
    - exact Hs.
    - unfold bind. specialize (Hbody x s Hs).
      destruct (body x s) as [[[]|e] s1]; simpl in *; auto. }
  assert (Hall : forall (prices : dict Q),
    Forall (fun kv : string * Q => True) prices).
  { intros prices. apply Forall_forall. auto. }
  apply Hfor; [|apply reach_reset].
  intros date s Hs. unfold simulate_day, bind.
  assert (Hs1 : reachable (fun _ => True) cfg l
            (snd (for_each (keys (prices_on all_signals date))
                    (process_ticker all_signals date
                       (prices_on all_signals date)) s))).
  { apply Hfor; [|exact Hs]. intros ticker s' Hs'. unfold process_ticker.
    destruct (dict_get all_signals ticker) as [df|]; [|exact Hs'].
    destruct (df !! date) as [signals|]; [|exact Hs'].
    destruct (dict_get (prices_on all_signals date) ticker) as [price|];
      [|exact Hs'].
    destruct (buy signals).
    - pose proof (reach_buy _ cfg l s' ticker price date
                    (prices_on all_signals date) Hs' I (Hall _)) as Hr.
      unfold bind.
      destruct (execute_buy ticker price date _ s') as [[b|e] s2];
        exact Hr.
    - destruct (sell signals); [|exact Hs'].
      pose proof (reach_sell _ cfg l s' ticker price date Hs' I) as Hr.
      unfold bind.
      destruct (execute_sell ticker price date s') as [[b|e] s2];
        exact Hr. }
  destruct (for_each _ _ s) as [[[]|e] s1]; simpl in *; [|exact Hs1].
  destruct (prices_on all_signals date) as [|kv rest] eqn:E; [exact Hs1|].
  apply reach_daily; [exact Hs1 | apply Hall].
Qed.

(** While an instrument is held, a true buy flag ends the day's
    processing of that instrument: the sell flag is not looked at. *)
Lemma buy_flag_shadows_sell (all_signals : dict Frame) (date : Z)
    (prices : dict Q) (ticker : string) (df : Frame) (signals : Row)
    (price : Q) (n : Z) (s : PortfolioManager) :
  dict_get all_signals ticker = Some df -> df !! date = Some signals ->
  dict_get prices ticker = Some price ->
  buy signals = true -> positions s !! ticker = Some n -> (0 < n)%Z ->
  process_ticker all_signals date prices ticker s = (Ok tt, s).
Proof.
  intros Hdf Hrow Hprice Hbuy Hpos Hn.
  unfold process_ticker. rewrite Hdf, Hrow, Hprice, Hbuy.
  unfold bind, execute_buy, bind, can_buy, bind.
  rewrite position_of_eq, Hpos.
  apply Z.ltb_lt in Hn. rewrite Hn. reflexivity.
Qed.

(** C1, evaluated on the code.  Instrument A is bought on day 1; on day 2
    its buy and sell flags are both true while 2 shares are held.  The run
    records no SELL: the log holds the day-1 BUY only and the 2 shares are
    still held at the end. *)
Theorem both_flags_long_no_sell :
  let s := snd (run_portfolio_backtest cfg_plain both_flags) in
  fst (run_portfolio_backtest cfg_plain both_flags) = Ok tt /\
  (frame [(1%Z, row 100 true false); (2%Z, row 100 true true)] !! 2%Z
   = Some (row 100 true true)) /\
  map d_positions (daily_values s)
  = [{["A"%string := 2%Z]}; {["A"%string := 2%Z]}] /\
  map (fun t => (t_date t, t_stock t, t_type t, t_quantity t)) (trade_log s)
  = [(1%Z, "A"%string, BUY, 2%Z)] /\
  positions s !! "A"%string = Some 2%Z.
Proof. vm_compute. repeat split; reflexivity. Qed.

(** C3, the claim as stated fails: with a cash of -100 and nothing held
    the portfolio value is -100, the cash is below the reserve amount
    -10, and the allocator returns -25, not 0. *)
Lemma allocator_zero_counterexample :
  ~ (forall (prices : dict Q) (s : PortfolioManager) (pv v : Q),
       fst (get_portfolio_value prices s) = Ok pv ->
       fst (get_available_cash_for_stock prices s) = Ok v ->
       (cash s <= pv * min_cash_reserve (config s))%Q -> (v == 0)%Q).
Proof.
  intros H.
  specialize (H [("A"%string, 100%Q)] (reset cfg_negative_cash ["A"%string])
                (-100)%Q (-100 # 4)%Q eq_refl eq_refl).
  assert (Hle : (-100 <= -100 * (1 # 10))%Q) by (vm_compute; discriminate).
  specialize (H Hle). vm_compute in H. discriminate.
Qed.

(** C3, amended.  The allocator returns
    min(max(0, cash - pv*reserve), pv*maxFraction) and leaves the
    portfolio object as it was; the result is 0 whenever
    cash <= pv*reserve and pv*maxFraction >= 0. *)
Theorem allocator_formula (prices : dict Q) (s : PortfolioManager) (pv : Q) :
  fst (get_portfolio_value prices s) = Ok pv ->
  snd (get_available_cash_for_stock prices s) = s /\
  exists v,
    fst (get_available_cash_for_stock prices s) = Ok v /\
    (v == available_cash pv (cash s) (max_position_size (config s))
            (min_cash_reserve (config s)))%Q /\
    ((cash s <= pv * min_cash_reserve (config s))%Q ->
     (0 <= pv * max_position_size (config s))%Q -> (v == 0)%Q).
Proof.
  intros Hpv. rewrite get_available_cash_eq, Hpv. simpl.
  split; [reflexivity|]. eexists. split; [reflexivity|].
  set (r := min_cash_reserve (config s)).
  set (m := max_position_size (config s)).
  split.
  - unfold available_cash.
    rewrite min_Qmin. rewrite (max_Qmax 0 (cash s - pv * r)). reflexivity.
  - intros Hle Hm. unfold Py.min, Py.max.
    destruct (Qltb 0 (cash s - pv * r)) eqn:E1;
      [apply Qltb_true in E1; lra | apply Qltb_false in E1].
    destruct (Qltb (pv * m) 0) eqn:E2;
      [apply Qltb_true in E2; lra | reflexivity].
Qed.

Lemma allocator_formula_witness :
  snd (get_available_cash_for_stock [("A"%string, 100%Q)]
         (reset cfg_default ["A"%string]))
  = reset cfg_default ["A"%string] /\
  exists v,
    fst (get_available_cash_for_stock [("A"%string, 100%Q)]
           (reset cfg_default ["A"%string])) = Ok v /\
    (v == available_cash 1000 1000 (1 # 4) (1 # 10))%Q /\
    ((1000 <= 1000 * (1 # 10))%Q -> (0 <= 1000 * (1 # 4))%Q -> (v == 0)%Q).
Proof.
  apply (allocator_formula [("A"%string, 100%Q)]
           (reset cfg_default ["A"%string]) 1000%Q).
  reflexivity.
Defined.

(** C4.  For every executed order the commission is
    price * quantity * rate; a BUY lowers the cash by value + commission,
    a SELL raises it by value - commission; exactly one record is
    appended, and its [cash_after] is the cash after the update. *)
Theorem trade_cash_conservation (s s' : PortfolioManager) (sd : side)
    (stock : string) (price : Q) :
  executes s sd stock price s' ->
  exists t,
    trade_log s' = trade_log s ++ [t] /\
    t_type t = sd /\ t_stock t = stock /\ t_price t = price /\
    t_value t = (price * inject_Z (t_quantity t))%Q /\
    t_commission t
    = (price * inject_Z (t_quantity t) * commission (config s))%Q /\
    cash s' = match sd with
              | BUY => (cash s - (t_value t + t_commission t))%Q
              | SELL => (cash s + (t_value t - t_commission t))%Q
              end /\
    t_cash_after t = cash s'.
Proof.
  intros [stock0 price0 date prices Hex | stock0 price0 date Hex].
  - destruct (execute_buy_cases stock0 price0 date prices s)
      as [[_ Hno]|(held & avail & q & _ & _ & _ & _ & _ & _ & _ & ->)];
      [contradiction|].
    simpl. eexists. repeat split.
  - destruct (execute_sell_cases stock0 price0 date s)
      as [[_ Hno]|(q & _ & _ & ->)]; [contradiction|].
    simpl. eexists. repeat split.
Qed.

Lemma trade_cash_conservation_witness :
  exists t,
    trade_log (snd (execute_buy "A" 100 1 [("A"%string, 100%Q)]
                      (reset cfg_default ["A"%string])))
    = trade_log (reset cfg_default ["A"%string]) ++ [t] /\
    t_type t = BUY /\ t_stock t = "A"%string /\ t_price t = 100%Q /\
    t_value t = (100 * inject_Z (t_quantity t))%Q /\
    t_commission t
    = (100 * inject_Z (t_quantity t) * commission cfg_default)%Q /\
    cash (snd (execute_buy "A" 100 1 [("A"%string, 100%Q)]
                 (reset cfg_default ["A"%string])))
    = (cash (reset cfg_default ["A"%string])
       - (t_value t + t_commission t))%Q /\
    t_cash_after t
    = cash (snd (execute_buy "A" 100 1 [("A"%string, 100%Q)]
                   (reset cfg_default ["A"%string]))).
Proof.
  apply (trade_cash_conservation (reset cfg_default ["A"%string]) _ BUY
           "A"%string 100%Q).
  apply (executes_buy _ "A"%string 100%Q 1%Z [("A"%string, 100%Q)]).
  vm_compute. reflexivity.
Defined.

(** C5, evaluated on the code.  The engine does not keep the cash
    non-negative: [can_buy] sizes the order from the available cash
    alone and [execute_buy] charges the commission on top.  With the valid configuration (cash 1000, full
    allocation, no reserve, fee 0.05%) and one buy signal at 100, ten
    shares are bought for 1000 plus a fee of 0.5: the record's
    [cash_after] and the snapshot's cash are -0.5.  With the sizing of
    [main.py] (25% per position, 10% reserve) and a fee of five times the
    trade value, two shares are bought for 200 plus a fee of 1000: the
    cash is -200. *)
Theorem buy_overdraws_cash :
  valid_config cfg_all_in /\
  closes_ok (fun p => (0 < p)%Q) one_buy /\
  (exists t d,
     run_portfolio_backtest cfg_all_in one_buy
     = (Ok tt, snd (run_portfolio_backtest cfg_all_in one_buy)) /\
     trade_log (snd (run_portfolio_backtest cfg_all_in one_buy)) = [t] /\
     daily_values (snd (run_portfolio_backtest cfg_all_in one_buy)) = [d] /\
     t_type t = BUY /\ t_quantity t = 10%Z /\
     (t_value t == 1000)%Q /\ (t_commission t == 1 # 2)%Q /\
     (t_cash_after t == - (1 # 2))%Q /\ (d_cash d == - (1 # 2))%Q) /\
  valid_config cfg_heavy_fee /\
  (exists t d,
     trade_log (snd (run_portfolio_backtest cfg_heavy_fee one_buy)) = [t] /\
     daily_values (snd (run_portfolio_backtest cfg_heavy_fee one_buy))
     = [d] /\
     t_type t = BUY /\ t_quantity t = 2%Z /\
     (t_value t == 200)%Q /\ (t_commission t == 1000)%Q /\
     (t_cash_after t == -200)%Q /\ (d_cash d == -200)%Q).
Proof.
  split; [unfold valid_config, cfg_all_in; simpl; repeat split; lra|].
  split.
  { apply (closes_okb_sound _ (Qltb 0)).
    - intros p Hp. by apply Qltb_true.
    - vm_compute. reflexivity. }
  split.
  { eexists _, _. split; [vm_compute; reflexivity|].
    split; [vm_compute; reflexivity|].
    split; [vm_compute; reflexivity|].
    repeat split; vm_compute; reflexivity. }
  split; [unfold valid_config, cfg_heavy_fee; simpl; repeat split; lra|].
  eexists _, _. split; [vm_compute; reflexivity|].
  split; [vm_compute; reflexivity|].
  repeat split; vm_compute; reflexivity.
Qed.

(** C6.  In every state a portfolio object can reach (every state of
    every run is one, [run_reachable]), the trade records of each
    instrument alternate BUY, SELL, BUY, ... from BUY, the holding is
    never negative, and it is positive exactly when the instrument's last
    record is a BUY, that is between a BUY and the next SELL. *)
Theorem no_pyramiding (okp : Q -> Prop) (cfg : PortfolioConfig)
    (l : list string) (s : PortfolioManager) (k : string) :
  reachable okp cfg l s -> k ∈ l ->
  alternates BUY (sides_of k (trade_log s)) = true /\
  exists n,
    positions s !! k = Some n /\ (0 <= n)%Z /\
    ((0 < n)%Z <-> last (sides_of k (trade_log s)) = Some BUY).
Proof.
  intros Hr Hk.
  pose proof (reachable_ledger _ _ _ _ Hr k) as [Halt Hpos].
  pose proof (reachable_shape _ _ _ _ Hr) as (_ & _ & Hkeys).
  destruct (Hkeys k Hk) as [n Hn]. rewrite Hn in Hpos.
  split; [exact Halt|]. exists n. split; [exact Hn | exact Hpos].
Qed.

Lemma no_pyramiding_witness :
  let s := snd (execute_buy "A" 100 1 [("A"%string, 100%Q)]
                  (reset cfg_default ["A"%string])) in
  alternates BUY (sides_of "A" (trade_log s)) = true /\
  exists n,
    positions s !! "A"%string = Some n /\ (0 <= n)%Z /\
    ((0 < n)%Z <-> last (sides_of "A" (trade_log s)) = Some BUY).
Proof.
  apply (no_pyramiding (fun _ => True) cfg_default ["A"%string]).
  - apply reach_buy; [apply reach_reset | exact I | repeat constructor].
  - set_solver.
Defined.

Lemma np_max_nonneg (a d : float64) :
  np_nonneg a -> np_nonneg (np_max a d).
Proof.
  unfold np_max. destruct (np_gt d a) eqn:E; [|auto].
  destruct d as [b| | |], a as [a| | |]; simpl in *;
    try discriminate; try contradiction; auto.
  apply Qltb_true in E. lra.
Qed.

Lemma drawdown_loop_nonneg (values : list Q) :
  forall peak acc, np_nonneg acc ->
                   np_nonneg (drawdown_loop values peak acc).
Proof.
  induction values as [|v values IH]; intros peak acc Hacc; simpl.
  - exact Hacc.
  - apply IH. by apply np_max_nonneg.
Qed.

(** At the running peak the drawdown does not raise the maximum. *)
Lemma drawdown_at_peak (peak value : Q) :
  (peak == value)%Q ->
  np_max (Fin 0) (np_mul (np_div (peak - value) peak) 100) = Fin 0.
Proof.
  intros He. unfold np_div.
  assert (Hz : (peak - value == 0)%Q) by lra.
  destruct (Qeq_bool peak 0) eqn:E.
  - apply Qeq_bool_iff in Hz. rewrite Hz. reflexivity.
  - simpl. unfold np_max, np_gt.
    assert (Hd : ((peak - value) / peak * 100 == 0)%Q).
    { rewrite Hz. unfold Qdiv. ring. }
    destruct (Qltb 0 ((peak - value) / peak * 100)) eqn:E2; [|reflexivity].
    apply Qltb_true in E2. lra.
Qed.

Lemma drawdown_loop_flat (values : list Q) :
  forall peak,
    match values with v :: _ => (peak <= v)%Q | [] => True end ->
    nondecreasing values ->
    drawdown_loop values peak (Fin 0) = Fin 0.
Proof.
  induction values as [|v values IH]; intros peak Hpeak Hnd;
    [reflexivity|].
  cbn [drawdown_loop].
  set (peak' := if Qltb peak v then v else peak).
  assert (He : (peak' == v)%Q).
  { subst peak'. destruct (Qltb peak v) eqn:E; [reflexivity|].
    apply Qltb_false in E. lra. }
  rewrite (drawdown_at_peak peak' v He).
  apply IH.
  - destruct values as [|v2 values]; [exact I|].
    destruct Hnd as [Hle _]. lra.
  - destruct values as [|v2 values]; [exact I|].
    destruct Hnd as [_ Hnd]. exact Hnd.
Qed.

Lemma Qltb_compat (a b a' b' : Q) :
  (a == a')%Q -> (b == b')%Q -> Qltb a b = Qltb a' b'.
Proof.
  intros Ha Hb.
  destruct (Qltb a b) eqn:E1, (Qltb a' b') eqn:E2; try reflexivity;
    repeat match goal with
           | H : Qltb _ _ = true |- _ => apply Qltb_true in H
           | H : Qltb _ _ = false |- _ => apply Qltb_false in H
           end; lra.
Qed.

Lemma Qeq_bool_compat (a a' : Q) :
  (a == a')%Q -> Qeq_bool a 0 = Qeq_bool a' 0.
Proof.
  intros Ha.
  destruct (Qeq_bool a 0) eqn:E1, (Qeq_bool a' 0) eqn:E2; try reflexivity.
  - apply Qeq_bool_iff in E1. apply Qeq_bool_neq in E2.
    exfalso. apply E2. lra.
  - apply Qeq_bool_iff in E2. apply Qeq_bool_neq in E1.
    exfalso. apply E1. lra.
Qed.

Lemma np_gt_irrefl (x : float64) : np_gt x x = false.
Proof.
  destruct x as [q| | |]; simpl; try reflexivity.
  apply Qltb_false. lra.
Qed.

Lemma np_gt_same (x x' a : float64) :
  same_float x x' -> np_gt x a = np_gt x' a.
Proof.
  destruct x as [q| | |], x' as [q'| | |]; simpl; try contradiction;
    try reflexivity.
  intros H. destruct a as [b| | |]; try reflexivity.
  apply Qltb_compat; [reflexivity | exact H].
Qed.

(** The drawdown of a value against two equal peaks is the same. *)
Lemma drawdown_of_same (p p' v : Q) :
  (p == p')%Q -> same_float (drawdown_of p v) (drawdown_of p' v).
Proof.
  intros H. unfold drawdown_of, np_div.
  rewrite (Qeq_bool_compat p p' H).
  assert (Hd : (p - v == p' - v)%Q) by lra.
  rewrite (Qeq_bool_compat _ _ Hd).
  rewrite (Qltb_compat 0 (p - v) 0 (p' - v) (Qeq_refl 0) Hd).
  destruct (Qeq_bool p' 0).
  - destruct (Qeq_bool (p' - v) 0); [exact I|].
    destruct (Qltb 0 (p' - v)); simpl; exact I.
  - simpl. rewrite H. reflexivity.
Qed.

(** A greater drawdown replaces the maximum without letting an earlier
    one pass it. *)
Lemma np_gt_raise (d acc dd : float64) :
  acc <> NaN -> np_gt d acc = false -> np_gt dd acc = true ->
  np_gt d dd = false.
Proof.
  destruct d as [x| | |], acc as [a| | |], dd as [y| | |]; simpl;
    intros Hn H1 H2; try discriminate; try reflexivity;
    try (exfalso; apply Hn; reflexivity).
  apply Qltb_false in H1. apply Qltb_true in H2. apply Qltb_false. lra.
Qed.

Lemma np_max_not_nan (acc dd : float64) :
  acc <> NaN -> np_max acc dd <> NaN.
Proof.
  intros Hn. unfold np_max. destruct (np_gt dd acc) eqn:E; [|exact Hn].
  destruct dd; discriminate.
Qed.

(** The loop keeps the running peak and the largest drawdown seen. *)
Lemma drawdown_loop_spec (values : list Q) :
  forall rest pre peak acc,
    values = pre ++ rest ->
    (exists j, (j <= length pre)%nat /\ values !! j = Some peak) ->
    (forall j v, (j < length pre)%nat -> values !! j = Some v ->
                 (v <= peak)%Q) ->
    acc <> NaN ->
    (forall k p v, (k < length pre)%nat -> values !! k = Some v ->
       is_running_peak values k p -> np_gt (drawdown_of p v) acc = false) ->
    (acc = Fin 0 \/ observed values acc) ->
    (forall d, observed values d ->
               np_gt d (drawdown_loop rest peak acc) = false) /\
    (drawdown_loop rest peak acc = Fin 0 \/
     observed values (drawdown_loop rest peak acc)).
Proof.
  induction rest as [|x rest IH];
    intros pre peak acc Hv (j0 & Hj0 & Hpk) Hle Hnan Hup Hat.
  - simpl. split; [|exact Hat].
    intros d (k & p & v & Hk & Hp & ->).
    apply (Hup k p v); [|exact Hk | exact Hp].
    rewrite app_nil_r in Hv. subst pre.
    apply lookup_lt_is_Some. by eexists.
  - cbn [drawdown_loop].
    set (peak' := if Qltb peak x then x else peak).
    change (np_mul (np_div (peak' - x) peak') 100)
      with (drawdown_of peak' x).
    assert (Hx : values !! length pre = Some x).
    { rewrite Hv. rewrite lookup_app_r by lia.
      rewrite Nat.sub_diag. reflexivity. }
    assert (Hge : (peak <= peak')%Q /\ (x <= peak')%Q).
    { subst peak'. destruct (Qltb peak x) eqn:E;
        [apply Qltb_true in E | apply Qltb_false in E]; lra. }
    assert (Hrp : is_running_peak values (length pre) peak').
    { split.
      - subst peak'. destruct (Qltb peak x).
        + exists (length pre). auto.
        + exists j0. auto.
      - intros j v Hj Hjv.
        destruct (Nat.eq_dec j (length pre)) as [->|Hne].
        + rewrite Hx in Hjv. injection Hjv as <-. tauto.
        + assert (Hv' : (v <= peak)%Q) by (apply (Hle j); [lia|exact Hjv]).
          lra. }
    assert (Hnew : forall p, is_running_peak values (length pre) p ->
                             np_gt (drawdown_of p x)
                               (np_max acc (drawdown_of peak' x)) = false).
    { intros p [(j & Hj & Hjp) Hbound].
      assert (E : (p == peak')%Q).
      { destruct Hrp as [(j' & Hj' & Hjp') Hbound'].
        pose proof (Hbound j' peak' Hj' Hjp').
        pose proof (Hbound' j p Hj Hjp). lra. }
      rewrite (np_gt_same _ _ _ (drawdown_of_same p peak' x E)).
      unfold np_max.
      destruct (np_gt (drawdown_of peak' x) acc) eqn:Eg;
        [apply np_gt_irrefl | exact Eg]. }
    apply (IH (pre ++ [x]) peak' (np_max acc (drawdown_of peak' x))).
    + rewrite <- app_assoc. exact Hv.
    + destruct Hrp as [(j & Hj & Hjp) _]. exists j.
      rewrite length_app. simpl. split; [lia | exact Hjp].
    + intros j v Hj Hjv. rewrite length_app in Hj. simpl in Hj.
      destruct Hrp as [_ Hb]. apply (Hb j); [lia | exact Hjv].
    + by apply np_max_not_nan.
    + intros k p v Hk Hkv Hp. rewrite length_app in Hk. simpl in Hk.
      destruct (Nat.eq_dec k (length pre)) as [->|Hne].
      * rewrite Hx in Hkv. injection Hkv as <-. by apply Hnew.
      * assert (Hold : np_gt (drawdown_of p v) acc = false)
          by (apply (Hup k); [lia | exact Hkv | exact Hp]).
        unfold np_max.
        destruct (np_gt (drawdown_of peak' x) acc) eqn:Eg; [|exact Hold].
        by apply (np_gt_raise _ acc).
    + unfold np_max.
      destruct (np_gt (drawdown_of peak' x) acc); [|exact Hat].
      right. exists (length pre), peak', x. auto.
Qed.

(** C7.  The max-drawdown metric reads the object without changing it;
    it is 0 with fewer than 2 snapshots; with 2 or more it is >= 0, it
    is 0 when the [total_value] sequence never decreases, and it is the
    maximum drawdown observed: no row's drawdown against its running
    peak, [(peak - value) / peak * 100], is greater than the result, and
    the result is 0 or the drawdown of some row. *)
Theorem max_drawdown_bound (s : PortfolioManager) :
  exists v,
    _calculate_max_drawdown s = (Ok v, s) /\
    ((length (daily_values s) < 2)%nat -> v = Fin 0) /\
    ((2 <= length (daily_values s))%nat ->
     np_nonneg v /\
     (nondecreasing (map d_total_value (daily_values s)) -> v = Fin 0) /\
     (forall d, observed (map d_total_value (daily_values s)) d ->
                np_gt d v = false) /\
     (v = Fin 0 \/ observed (map d_total_value (daily_values s)) v)).
Proof.
  exists (max_drawdown_of (daily_values s)).
  split; [reflexivity|]. unfold max_drawdown_of.
  split.
  - intros Hlt. apply Nat.ltb_lt in Hlt. rewrite Hlt. reflexivity.
  - intros Hge.
    destruct (length (daily_values s) <? 2)%nat eqn:E.
    { apply Nat.ltb_lt in E. lia. }
    destruct (map d_total_value (daily_values s)) as [|v0 rest] eqn:Ev.
    { apply (f_equal (@length Q)) in Ev. rewrite length_map in Ev.
      simpl in Ev. lia. }
    split; [apply drawdown_loop_nonneg; simpl; lra|].
    split; [intros Hnd; apply drawdown_loop_flat; [lra | exact Hnd]|].
    apply (drawdown_loop_spec (v0 :: rest) (v0 :: rest) [] v0 (Fin 0)).
    + reflexivity.
    + exists 0%nat. split; [simpl; lia | reflexivity].
    + intros j v Hj. simpl in Hj. lia.
    + discriminate.
    + intros k p v Hk. simpl in Hk. lia.
    + by left.
Qed.

Lemma max_drawdown_bound_witness :
  exists v,
    _calculate_max_drawdown (with_totals [1000; 1200; 600; 900]%Q)
    = (Ok v, with_totals [1000; 1200; 600; 900]%Q) /\
    np_nonneg v /\ same_float v (Fin 50) /\
    (forall d, observed [1000; 1200; 600; 900]%Q d -> np_gt d v = false) /\
    observed [1000; 1200; 600; 900]%Q v.
Proof.
  destruct (max_drawdown_bound (with_totals [1000; 1200; 600; 900]%Q))
    as (v & Hv & _ & Hge).
  exists v. split; [exact Hv|].
  destruct Hge as (Hn & _ & Hup & Hat); [simpl; lia|].
  assert (E : same_float v (Fin 50)).
  { injection Hv as <-. vm_compute. reflexivity. }
  split; [exact Hn|]. split; [exact E|]. split; [exact Hup|].
  destruct Hat as [->|Hat]; [|exact Hat].
  simpl in E. vm_compute in E. discriminate.
Defined.

(** C9, the claim as stated fails.  With a position fraction of 2 and a
    reserve fraction of -1 the constructor returns an object, and the run
    over one buy signal completes with a trade and a snapshot recorded. *)
Lemma invalid_config_counterexample :
  ~ (forall (cfg : PortfolioConfig) (all_signals : dict Frame),
       invalid_config cfg ->
       (exists e, __init__ cfg (keys all_signals) = Raise e) \/
       (exists e,
          fst (run_portfolio_backtest cfg all_signals) = Raise e /\
          trade_log (snd (run_portfolio_backtest cfg all_signals)) = [] /\
          daily_values (snd (run_portfolio_backtest cfg all_signals)) = [])).
Proof.
  intros H.
  destruct (H cfg_out_of_range one_buy) as [[e He]|[e [He _]]].
  - right. left. simpl. intros [_ Hm]. lra.
  - discriminate He.
  - vm_compute in He. discriminate He.
Qed.

(** C9, amended.  Constructing the portfolio object with any
    configuration, valid or not, raises no error: the object carries the
    configuration as given and starts with cash = initialCash, every
    instrument flat and both logs empty; no field is checked.  A run with
    an invalid configuration is not stopped either: with a position
    fraction of 2 and a reserve fraction of -1 the run over one buy
    signal completes with a trade and a snapshot recorded. *)
Theorem configuration_unchecked (cfg : PortfolioConfig) (l : list string) :
  (exists s0,
     __init__ cfg l = Ok s0 /\
     config s0 = cfg /\ stocks s0 = l /\
     cash s0 = initial_cash cfg /\
     (forall k, k ∈ l -> positions s0 !! k = Some 0%Z) /\
     trade_log s0 = [] /\ daily_values s0 = []) /\
  invalid_config cfg_out_of_range /\
  exists t d,
    run_portfolio_backtest cfg_out_of_range one_buy
    = (Ok tt, snd (run_portfolio_backtest cfg_out_of_range one_buy)) /\
    trade_log (snd (run_portfolio_backtest cfg_out_of_range one_buy))
    = [t] /\
    daily_values (snd (run_portfolio_backtest cfg_out_of_range one_buy))
    = [d].
Proof.
  split; [|split].
  - exists (reset cfg l). repeat split.
    intros k Hk. simpl. rewrite zero_positions_lookup.
    by rewrite decide_True.
  - right. left. simpl. intros [_ Hm]. lra.
  - eexists _, _. split; [vm_compute; reflexivity|].
    split; vm_compute; reflexivity.
Qed.

End EngineClaims.

(** ** The single-instrument engine: the summary *)

Module SummaryFacts.
Import backtester BtSpec BtExamples PyFacts.

Lemma Qltb_diff (p0 p : Q) : Qltb 0 (p - p0) = Qltb p0 p.
Proof.
  destruct (Qltb p0 p) eqn:E.
  - apply Qltb_true in E. apply Qltb_true. lra.
  - apply Qltb_false in E. apply Qltb_false. lra.
Qed.

Lemma win_mask_length_from (prev : option Q) (trades : list Fill) :
  length (zip_with andb
            (map (fun t => side_eqb (f_type t) SELL) trades)
            (map gt_zero (diff_from prev (map f_price trades))))
  = length trades.
Proof.
  revert prev. induction trades as [|t trades IH]; intros prev; simpl;
    [reflexivity|].
  rewrite IH. reflexivity.
Qed.

Lemma win_mask_count_from (prev : option Q) (trades : list Fill) :
  length (List.filter (fun b => b)
            (zip_with andb
               (map (fun t => side_eqb (f_type t) SELL) trades)
               (map gt_zero (diff_from prev (map f_price trades)))))
  = winning_sells prev trades.
Proof.
  revert prev. induction trades as [|t trades IH]; intros prev; simpl;
    [reflexivity|].
  assert (E : gt_zero match prev with
                      | Some p0 => Some (f_price t - p0)%Q
                      | None => None
                      end
              = match prev with
                | Some p => Qltb p (f_price t)
                | None => false
                end).
  { destruct prev; simpl; [apply Qltb_diff | reflexivity]. }
  rewrite E.
  destruct (side_eqb (f_type t) SELL &&
            match prev with
            | Some p => Qltb p (f_price t)
            | None => false
            end); simpl; rewrite IH; reflexivity.
Qed.

(** The mean of the mask: winning SELL records over all records. *)
Lemma win_ratio_eq (trades : list Fill) :
  trades <> [] ->
  win_ratio trades
  = Some (inject_Z (Z.of_nat (winning_sells None trades))
          / inject_Z (Z.of_nat (length trades)))%Q.
Proof.
  intros Hne. destruct trades as [|t trades]; [contradiction|].
  unfold win_ratio, mean, win_mask.
  rewrite win_mask_count_from, win_mask_length_from. reflexivity.
Qed.

(** C2, the claim as stated fails.  For the log [BUY at 100, SELL at 110]
    the one SELL is a win, so the claimed ratio is 1/1; the code takes
    the mean over both records and reports 0.5. *)
Lemma win_ratio_counterexample :
  ~ (forall (self : Backtester) (trades : list Fill) (pnl : DataFrame)
            (summary : Summary),
       trades <> [] ->
       _build_summary self trades pnl = Ok summary ->
       exists r,
         Win_Ratio summary = Some r /\
         (r == inject_Z (Z.of_nat (winning_sells None trades))
               / inject_Z (Z.of_nat (sells trades)))%Q).
Proof.
  intros H.
  destruct (H bt_plain round_trip (equity_frame [1000; 1100]%Q)
              {| Initial_Cash := 1000; Final_NAV := Py.round 1100 2;
                 Total_Return := Py.round ((1100 / 1000 - 1) * 100) 2;
                 Trades := 2;
                 Win_Ratio := Some (Py.round (1 # 2) 2) |})
    as (r & Hr & Heq).
  - discriminate.
  - reflexivity.
  - simpl in Hr. injection Hr as <-. vm_compute in Heq. discriminate.
Qed.

(** C2, amended.  For every non-empty trade log the win ratio equals the
    number of SELL records whose price exceeds the price of the record
    just before, divided by the number of all trade records; the summary
    reports it rounded to two decimals. *)
Theorem win_ratio_over_all_trades (self : Backtester)
    (trades : list Fill) (pnl : DataFrame) (summary : Summary) :
  trades <> [] ->
  _build_summary self trades pnl = Ok summary ->
  exists r,
    win_ratio trades = Some r /\
    r = (inject_Z (Z.of_nat (winning_sells None trades))
         / inject_Z (Z.of_nat (length trades)))%Q /\
    Win_Ratio summary = Some (Py.round r 2).
Proof.
  intros Hne Hs. eexists. split; [apply (win_ratio_eq trades Hne)|].
  split; [reflexivity|].
  unfold _build_summary in Hs.
  rewrite (win_ratio_eq trades Hne) in Hs.
  match type of Hs with
  | match ?f with _ => _ end = _ => destruct f as [nav|e]
  end; [|discriminate].
  destruct (Qeq_bool (initial_cash self) 0); [discriminate|].
  injection Hs as <-. reflexivity.
Qed.

Lemma win_ratio_over_all_trades_witness :
  exists r,
    win_ratio round_trip = Some r /\
    r = (inject_Z (Z.of_nat (winning_sells None round_trip))
         / inject_Z (Z.of_nat (length round_trip)))%Q /\
    Some (Py.round (1 # 2) 2) = Some (Py.round r 2).
Proof.
  apply (win_ratio_over_all_trades bt_plain round_trip
           (equity_frame [1000; 1100]%Q)
           {| Initial_Cash := 1000; Final_NAV := Py.round 1100 2;
              Total_Return := Py.round ((1100 / 1000 - 1) * 100) 2;
              Trades := 2;
              Win_Ratio := Some (Py.round (1 # 2) 2) |}).
  - discriminate.
  - reflexivity.
Defined.

End SummaryFacts.

(** ** The single-instrument engine: signal alignment *)

Module AlignFacts.
Import backtester BtSpec BtExamples PyFacts.

Lemma dict_get_map {V W} (f : V -> W) (d : dict V) (k : string) :
  dict_get (map (fun kc : string * V => (fst kc, f (snd kc))) d) k
  = option_map f (dict_get d k).
Proof.
  induction d as [|[k' v] d IH]; simpl; [reflexivity|].
  destruct (String.eqb k k'); [reflexivity | exact IH].
Qed.

(** The signal column as [run] aligns it to the price index. *)
Lemma column_aligned (sg : DataFrame) (idx : list Z) (dt : bool)
    (name : string) (col : list cell) :
  column sg name = Ok col ->
  column (fillna_false (reindex_ffill sg idx dt)) name
  = Ok (map (fun t => fill_false (ffill_at (zip (index sg) col) t)) idx).
Proof.
  unfold column. simpl.
  rewrite (dict_get_map (map fill_false)).
  rewrite (dict_get_map (fun c => map (ffill_at (zip (index sg) c)) idx)).
  destruct (dict_get (columns sg) name) as [c|]; [|discriminate].
  intros E. injection E as ->. simpl. f_equal.
  apply List.map_map.
Qed.

Lemma zip_ascending (idx : list Z) :
  forall col, StronglySorted Z.lt idx -> ascending (zip idx col).
Proof.
  unfold ascending.
  induction idx as [|a idx IH]; intros col Hs; [constructor|].
  destruct col as [|c col]; [constructor|].
  apply StronglySorted_inv in Hs as [Hs Ha]. simpl.
  constructor; [by apply IH|].
  apply Forall_forall. intros [d c'] Hin.
  apply elem_of_zip_l in Hin. simpl.
  rewrite Forall_forall in Ha. by apply Ha.
Qed.

Lemma filter_none_last (rows : list (Z * cell)) (t : Z) :
  (forall r, r ∈ rows -> ~ (fst r <= t)%Z) ->
  last (filter (fun r : Z * cell => (fst r <= t)%Z) rows) = None.
Proof.
  intros H.
  destruct (last (filter (fun r : Z * cell => (fst r <= t)%Z) rows))
    as [r|] eqn:E; [|reflexivity].
  apply last_Some_elem_of in E. apply list_elem_of_filter in E as [Hr Hin].
  destruct (H r Hin Hr).
Qed.

(** Forward fill picks the latest signal row dated at most [t]. *)
Lemma ffill_latest (rows : list (Z * cell)) (t d : Z) (c : cell) :
  ascending rows -> (d, c) ∈ rows -> (d <= t)%Z ->
  (forall r, r ∈ rows -> (fst r <= t)%Z -> (fst r <= d)%Z) ->
  last (filter (fun r : Z * cell => (fst r <= t)%Z) rows) = Some (d, c).
Proof.
  unfold ascending. intros Hs. induction Hs as [|r0 rest Hs IH Hall];
    intros Hin Hd Hmax.
  - inversion Hin.
  - rewrite filter_cons.
    apply elem_of_cons in Hin as [Heq|Hin].
    + subst r0. simpl. rewrite decide_True by exact Hd.
      rewrite last_cons, filter_none_last; [reflexivity|].
      intros r Hr Hle. rewrite Forall_forall in Hall.
      specialize (Hall r Hr). simpl in Hall.
      assert (fst r <= d)%Z by (apply Hmax; [by right | exact Hle]). lia.
    + assert (Hrest : last (filter (fun r : Z * cell => (fst r <= t)%Z) rest)
                      = Some (d, c)).
      { apply IH; auto. intros r Hr. apply Hmax. by right. }
      destruct (decide (fst r0 <= t)%Z);
        [rewrite last_cons, Hrest; reflexivity | exact Hrest].
Qed.

Lemma trade_row_idle (self : Backtester) (book : list Fill) (ts : Z)
    (px : Q) (w : World) :
  trade_row self book ts px false false w = (Ok book, w).
Proof. reflexivity. Qed.

End AlignFacts.

(** ** The single-instrument engine: the caller's frames *)

Module FrameFacts.
Import backtester BtSpec BtExamples PyFacts.

Section Keeps.
Variables p s : loc.
Variables pf sg : DataFrame.

Lemma keeps_ret {A} (a : A) (post : A -> Prop) :
  post a -> keeps p s pf sg (ret a) post.
Proof.
  intros Ha w Hp Hs. simpl. repeat split; auto.
  intros a' E. injection E as <-. exact Ha.
Qed.

Lemma keeps_raise {A} (e : exn) (post : A -> Prop) :
  keeps p s pf sg (raise e) post.
Proof. intros w Hp Hs. simpl. repeat split; auto. discriminate. Qed.

Lemma keeps_lift {A} (r : result A) :
  keeps p s pf sg (lift r) (fun _ => True).
Proof. intros w Hp Hs. simpl. repeat split; auto. Qed.

Lemma keeps_get : keeps p s pf sg get (fun _ => True).
Proof. intros w Hp Hs. simpl. repeat split; auto. Qed.

Lemma keeps_set_live (c : Q) (n : Z) :
  keeps p s pf sg (modify (set_live c n)) (fun _ => True).
Proof. intros w Hp Hs. simpl. repeat split; auto. Qed.

Lemma keeps_read (l : loc) : keeps p s pf sg (read l) (fun _ => True).
Proof.
  intros w Hp Hs. unfold read.
  destruct (heap w !! l); simpl; repeat split; auto.
Qed.

(** A new object is none of the caller's. *)
Lemma keeps_alloc (d : DataFrame) :
  keeps p s pf sg (alloc d) (fun l => l <> p /\ l <> s).
Proof.
  intros w Hp Hs. unfold alloc, holds in *. simpl.
  pose proof (is_fresh (dom (heap w))) as Hf.
  assert (Hnp : fresh (dom (heap w)) <> p).
  { intros E. apply Hf. rewrite E. apply elem_of_dom. by eexists. }
  assert (Hns : fresh (dom (heap w)) <> s).
  { intros E. apply Hf. rewrite E. apply elem_of_dom. by eexists. }
  rewrite !lookup_insert_ne by assumption.
  split; [exact Hp|]. split; [exact Hs|].
  intros a' E. injection E as <-. split; assumption.
Qed.

Lemma keeps_update (l : loc) (f : DataFrame -> DataFrame) :
  l <> p -> l <> s -> keeps p s pf sg (update l f) (fun _ => True).
Proof.
  intros Hnp Hns w Hp Hs. unfold update, holds in *.
  destruct (heap w !! l); simpl; [|repeat split; auto].
  rewrite !lookup_insert_ne by assumption. repeat split; auto.
Qed.

Lemma keeps_bind {A B} (m : BT A) (k : A -> BT B)
    (mid : A -> Prop) (post : B -> Prop) :
  keeps p s pf sg m mid ->
  (forall a, mid a -> keeps p s pf sg (k a) post) ->
  keeps p s pf sg (bind m k) post.
Proof.
  intros Hm Hk w Hp Hs. unfold bind.
  destruct (Hm w Hp Hs) as (Hp1 & Hs1 & Hmid).
  destruct (m w) as [[a|e] w1]; simpl in *.
  - apply (Hk a (Hmid a eq_refl) w1 Hp1 Hs1).
  - repeat split; auto. discriminate.
Qed.

Lemma keeps_execute self book ts sd price qty :
  keeps p s pf sg (_execute self book ts sd price qty) (fun _ => True).
Proof. intros w Hp Hs. simpl. repeat split; auto. Qed.

Lemma keeps_trade_row self book ts px b sl :
  keeps p s pf sg (trade_row self book ts px b sl) (fun _ => True).
Proof.
  unfold trade_row.
  apply (keeps_bind _ _ (fun _ => True)); [apply keeps_get|].
  intros w _.
  destruct (b && (_position w =? 0)%Z).
  - destruct (Qeq_bool px 0); [apply keeps_raise|].
    destruct (negb _); [apply keeps_execute | by apply keeps_ret].
  - destruct (sl && (0 <? _position w)%Z);
      [apply keeps_execute | by apply keeps_ret].
Qed.

Lemma keeps_row_body self df book i :
  df <> p -> df <> s ->
  keeps p s pf sg (row_body self df book i) (fun _ => True).
Proof.
  intros Hnp Hns. unfold row_body.
  apply (keeps_bind _ _ (fun _ => True)); [apply keeps_read|].
  intros d _. destruct (index d !! i) as [ts|]; [|apply keeps_raise].
  apply (keeps_bind _ _ (fun _ => True)); [apply keeps_lift|].
  intros c _.
  apply (keeps_bind _ _ (fun _ => True)); [apply keeps_lift|].
  intros px _.
  apply (keeps_bind _ _ (fun _ => True)); [apply keeps_lift|].
  intros b _.
  apply (keeps_bind _ _ (fun _ => True)); [apply keeps_lift|].
  intros sl _.
  apply (keeps_bind _ _ (fun _ => True)); [apply keeps_trade_row|].
  intros book' _.
  apply (keeps_bind _ _ (fun _ => True)); [apply keeps_get|].
  intros w _.
  apply (keeps_bind _ _ (fun _ => True));
    [by apply keeps_update | intros _ _; by apply keeps_ret].
Qed.

Lemma keeps_rows_loop self df rows :
  df <> p -> df <> s ->
  forall book,
    keeps p s pf sg (rows_loop self df rows book) (fun _ => True).
Proof.
  intros Hnp Hns. induction rows as [|i rows IH]; intros book; simpl.
  - by apply keeps_ret.
  - apply (keeps_bind _ _ (fun _ => True));
      [by apply keeps_row_body | intros book' _; apply IH].
Qed.

Lemma keeps_prepare self :
  keeps p s pf sg (prepare self p s) (fun df => df <> p /\ df <> s).
Proof.
  unfold prepare.
  apply (keeps_bind _ _ (fun _ => True)); [apply keeps_read|].
  intros d0 _. destruct (negb (index_is_datetime d0));
    [apply keeps_raise|].
  apply (keeps_bind _ _ (fun l => l <> p /\ l <> s));
    [apply keeps_alloc|].
  intros df [Hdp Hds].
  apply (keeps_bind _ _ (fun _ => True)); [apply keeps_read|].
  intros sg0 _.
  apply (keeps_bind _ _ (fun l => l <> p /\ l <> s));
    [apply keeps_alloc|].
  intros reindexed _.
  apply (keeps_bind _ _ (fun _ => True)); [apply keeps_read|].
  intros r _.
  apply (keeps_bind _ _ (fun l => l <> p /\ l <> s));
    [apply keeps_alloc|].
  intros sigs _.
  apply (keeps_bind _ _ (fun _ => True)); [apply keeps_read|].
  intros sf _.
  apply (keeps_bind _ _ (fun _ => True)); [apply keeps_lift|].
  intros bcol _.
  apply (keeps_bind _ _ (fun _ => True)); [by apply keeps_update|].
  intros _ _.
  apply (keeps_bind _ _ (fun _ => True)); [apply keeps_lift|].
  intros scol _.
  do 4 (apply (keeps_bind _ _ (fun _ => True));
          [by apply keeps_update | intros _ _]).
  apply (keeps_bind _ _ (fun _ => True)); [apply keeps_set_live|].
  intros _ _. by apply keeps_ret.
Qed.

Lemma keeps_finish self df book :
  keeps p s pf sg (finish self df book) (fun _ => True).
Proof.
  unfold finish.
  apply (keeps_bind _ _ (fun _ => True)); [apply keeps_read|].
  intros d _.
  apply (keeps_bind _ _ (fun l => l <> p /\ l <> s));
    [apply keeps_alloc|].
  intros df2 [H2p H2s].
  apply (keeps_bind _ _ (fun _ => True)); [by apply keeps_update|].
  intros _ _.
  apply (keeps_bind _ _ (fun _ => True)); [apply keeps_read|].
  intros d2 _.
  apply (keeps_bind _ _ (fun l => l <> p /\ l <> s));
    [apply keeps_alloc|].
  intros pnl_df _.
  apply (keeps_bind _ _ (fun _ => True)); [apply keeps_read|].
  intros pnl _.
  apply (keeps_bind _ _ (fun _ => True)); [apply keeps_lift|].
  intros summary _. by apply keeps_ret.
Qed.

Lemma keeps_run self :
  keeps p s pf sg (run self p s) (fun _ => True).
Proof.
  unfold run.
  apply (keeps_bind _ _ (fun df => df <> p /\ df <> s));
    [apply keeps_prepare|].
  intros df [Hdp Hds].
  apply (keeps_bind _ _ (fun _ => True)); [apply keeps_read|].
  intros d _.
  apply (keeps_bind _ _ (fun _ => True)); [by apply keeps_rows_loop|].
  intros executed_trades _. apply keeps_finish.
Qed.

End Keeps.

(** C10.  [Backtester.run] never modifies its [price_df] or [signals]
    argument: whether the run returns or raises, both objects hold
    afterwards exactly the frames they held before; every column the run
    derives is written to a copy it made itself. *)
Theorem run_keeps_arguments (self : Backtester) (price_df signals : loc)
    (pf sg : DataFrame) (w : World) :
  holds w price_df pf -> holds w signals sg ->
  holds (snd (run self price_df signals w)) price_df pf /\
  holds (snd (run self price_df signals w)) signals sg.
Proof.
  intros Hp Hs.
  destruct (keeps_run price_df signals pf sg self w Hp Hs) as (H1 & H2 & _).
  split; assumption.
Qed.

Lemma run_keeps_arguments_witness :
  holds (snd (run bt_plain 1%positive 2%positive
                (world_of prices_two_days signals_day_one)))
    1%positive prices_two_days /\
  holds (snd (run bt_plain 1%positive 2%positive
                (world_of prices_two_days signals_day_one)))
    2%positive signals_day_one.
Proof.
  apply (run_keeps_arguments bt_plain 1%positive 2%positive
           prices_two_days signals_day_one
           (world_of prices_two_days signals_day_one));
    vm_compute; reflexivity.
Defined.

End FrameFacts.

(** ** The single-instrument engine: which dates can trade *)

Module SignalFacts.
Import backtester BtSpec BtExamples PyFacts AlignFacts.

Lemma dict_get_set_eq {V} (d : dict V) (k : string) (v : V) :
  dict_get (dict_set d k v) k = Some v.
Proof.
  induction d as [|[k' v'] d IH]; simpl.
  - rewrite String.eqb_refl. reflexivity.
  - destruct (String.eqb k k') eqn:E; simpl; rewrite E;
      [reflexivity | exact IH].
Qed.

Lemma dict_get_set_ne {V} (d : dict V) (k k' : string) (v : V) :
  k <> k' -> dict_get (dict_set d k' v) k = dict_get d k.
Proof.
  intros Hne. induction d as [|[k0 v0] d IH]; simpl.
  - apply String.eqb_neq in Hne. rewrite Hne. reflexivity.
  - destruct (String.eqb k' k0) eqn:E; simpl.
    + apply String.eqb_eq in E. subst k0.
      apply String.eqb_neq in Hne. rewrite Hne. reflexivity.
    + destruct (String.eqb k k0); [reflexivity | exact IH].
Qed.

Lemma bind_step {S A B} (m : M S A) (k : A -> M S B) (w w1 : S) (a : A) :
  m w = (Ok a, w1) -> bind m k w = k a w1.
Proof. intros E. unfold bind. rewrite E. reflexivity. Qed.

Lemma read_holds (w : World) (l : loc) (d : DataFrame) :
  heap w !! l = Some d -> read l w = (Ok d, w).
Proof. intros E. unfold read. rewrite E. reflexivity. Qed.

Lemma update_holds (w : World) (l : loc) (d : DataFrame) f :
  heap w !! l = Some d ->
  update l f w = (Ok tt, set_heap (<[l := f d]> (heap w)) w).
Proof. intros E. unfold update. rewrite E. reflexivity. Qed.

Lemma fresh_ne (w : World) (l : loc) (d : DataFrame) :
  heap w !! l = Some d -> fresh (dom (heap w)) <> l.
Proof.
  intros E Hf. apply (is_fresh (dom (heap w))). rewrite Hf.
  apply elem_of_dom. by eexists.
Qed.

Lemma prepare_aligned self p s w pf sg bcol scol df w' :
  holds w p pf -> holds w s sg ->
  column sg "buy" = Ok bcol -> column sg "sell" = Ok scol ->
  prepare self p s w = (Ok df, w') ->
  exists D, heap w' !! df = Some D /\
    aligned_frame (index pf) (flag_on (index sg) bcol)
      (flag_on (index sg) scol) D.
Proof.
  unfold holds. intros Hp Hs Hb Hsl. unfold prepare.
  rewrite (bind_step _ _ _ _ _ (read_holds w p pf Hp)).
  destruct (negb (index_is_datetime pf)); [discriminate|].
  rewrite (bind_step (alloc pf) _ w _ _ eq_refl).
  set (df0 := fresh (dom (heap w))).
  set (w1 := set_heap (<[df0 := pf]> (heap w)) w).
  assert (H1s : heap w1 !! s = Some sg).
  { simpl. rewrite lookup_insert_ne; [exact Hs | by apply (fresh_ne w s sg)]. }
  assert (H1d : heap w1 !! df0 = Some pf) by (simpl; apply lookup_insert_eq).
  rewrite (bind_step _ _ _ _ _ (read_holds w1 s sg H1s)).
  rewrite (bind_step (alloc _) _ w1 _ _ eq_refl).
  set (l2 := fresh (dom (heap w1))).
  set (R := reindex_ffill sg (index pf) (index_is_datetime pf)).
  set (w2 := set_heap (<[l2 := R]> (heap w1)) w1).
  assert (H2l : heap w2 !! l2 = Some R) by (simpl; apply lookup_insert_eq).
  assert (H2d : heap w2 !! df0 = Some pf).
  { simpl heap at 1. rewrite lookup_insert_ne;
      [exact H1d | by apply (fresh_ne w1 df0 pf)]. }
  rewrite (bind_step _ _ _ _ _ (read_holds w2 l2 R H2l)).
  rewrite (bind_step (alloc _) _ w2 _ _ eq_refl).
  set (l3 := fresh (dom (heap w2))).
  set (w3 := set_heap (<[l3 := fillna_false R]> (heap w2)) w2).
  assert (H3l : heap w3 !! l3 = Some (fillna_false R))
    by (simpl; apply lookup_insert_eq).
  assert (H3d : heap w3 !! df0 = Some pf).
  { simpl heap at 1. rewrite lookup_insert_ne;
      [exact H2d | by apply (fresh_ne w2 df0 pf)]. }
  rewrite (bind_step _ _ _ _ _ (read_holds w3 l3 _ H3l)).
  subst R.
  rewrite (column_aligned sg (index pf) _ "buy" bcol Hb).
  rewrite (bind_step (lift (Ok _)) _ w3 _ _ eq_refl).
  rewrite (bind_step _ _ _ _ _ (update_holds w3 df0 pf _ H3d)).
  set (w4 := set_heap _ w3).
  assert (H4d : heap w4 !! df0 = Some (with_column "buy"
               (astype_bool
                  (map (fun t => fill_false (ffill_at (zip (index sg) bcol) t))
                     (index pf))) pf)) by (simpl; apply lookup_insert_eq).
  rewrite (column_aligned sg (index pf) _ "sell" scol Hsl).
  rewrite (bind_step (lift (Ok _)) _ w4 _ _ eq_refl).
  rewrite (bind_step _ _ _ _ _ (update_holds w4 df0 _ _ H4d)).
  set (w5 := set_heap _ w4).
  rewrite (bind_step _ _ _ _ _
             (update_holds w5 df0 _ _ (lookup_insert_eq _ _ _))).
  set (w6 := set_heap _ w5).
  rewrite (bind_step _ _ _ _ _
             (update_holds w6 df0 _ _ (lookup_insert_eq _ _ _))).
  set (w7 := set_heap _ w6).
  rewrite (bind_step _ _ _ _ _
             (update_holds w7 df0 _ _ (lookup_insert_eq _ _ _))).
  set (w8 := set_heap _ w7).
  rewrite (bind_step (modify _) _ w8 _ _ eq_refl).
  unfold ret. intros E. injection E as <- <-.
  eexists. split; [simpl; apply lookup_insert_eq|].
  unfold aligned_frame, column, with_constant, with_column. simpl.
  split; [reflexivity|].
  split; rewrite !dict_get_set_ne by discriminate;
    rewrite dict_get_set_eq; unfold astype_bool, flag_on;
    rewrite List.map_map; reflexivity.
Qed.

Lemma last_filter_max (rows : list (Z * cell)) (t : Z) (r : Z * cell) :
  ascending rows ->
  last (filter (fun r : Z * cell => (fst r <= t)%Z) rows) = Some r ->
  forall r', r' ∈ rows -> (fst r' <= t)%Z -> (fst r' <= fst r)%Z.
Proof.
  unfold ascending. intros Hs. induction Hs as [|r0 rest Hs IH Hall];
    intros Hlast r' Hin Hle.
  - inversion Hin.
  - rewrite filter_cons in Hlast. rewrite Forall_forall in Hall.
    destruct (decide (fst r0 <= t)%Z) as [H0|H0].
    + rewrite last_cons in Hlast.
      destruct (last (filter (fun r : Z * cell => (fst r <= t)%Z) rest))
        as [y|] eqn:E.
      * injection Hlast as ->.
        apply elem_of_cons in Hin as [->|Hin]; [|by apply IH].
        apply last_Some_elem_of in E.
        apply list_elem_of_filter in E as [_ E].
        specialize (Hall r E). lia.
      * injection Hlast as <-.
        apply elem_of_cons in Hin as [->|Hin]; [lia|].
        apply last_None in E.
        assert (Hf : r' ∈ filter (fun r : Z * cell => (fst r <= t)%Z) rest).
        { apply list_elem_of_filter. split; assumption. }
        rewrite E in Hf. inversion Hf.
    + apply elem_of_cons in Hin as [->|Hin]; [contradiction | by apply IH].
Qed.

Lemma flag_on_triggers (idx : list Z) (col : list cell) (t : Z) :
  StronglySorted Z.lt idx ->
  flag_on idx col t = true -> triggers idx col t.
Proof.
  intros Hs. unfold flag_on, ffill_at.
  destruct (last (filter (fun r : Z * cell => (fst r <= t)%Z) (zip idx col)))
    as [[d c]|] eqn:E; [|discriminate].
  intros Ht. exists d, c.
  pose proof (last_filter_max _ t _ (zip_ascending idx col Hs) E) as Hmax.
  apply last_Some_elem_of in E. apply list_elem_of_filter in E as [Hd Hin].
  simpl in *. repeat split; auto.
  - intros ->. discriminate.
  - destruct c; [exact Ht | exact Ht | discriminate].
Qed.

Lemma cell_at_aligned (idx : list Z) (fb fs : Z -> bool) (D : DataFrame)
    (i : nat) (ts : Z) :
  aligned_frame idx fb fs D -> index D !! i = Some ts ->
  cell_at D "buy" i = Ok (VBool (fb ts)) /\
  cell_at D "sell" i = Ok (VBool (fs ts)).
Proof.
  intros (Hi & Hb & Hs) Hts. unfold cell_at. rewrite Hb, Hs, Hi in *.
  rewrite !list_lookup_fmap, Hts. split; reflexivity.
Qed.

Lemma aligned_with_at (idx : list Z) (fb fs : Z -> bool) (D : DataFrame)
    (ts : Z) (v : cell) :
  aligned_frame idx fb fs D ->
  aligned_frame idx fb fs (with_at ts "equity" v D).
Proof.
  intros (Hi & Hb & Hs). unfold with_at.
  destruct (dict_get (columns D) "equity"); [|repeat split; assumption].
  unfold aligned_frame, column, with_column in *. simpl.
  rewrite !dict_get_set_ne by discriminate. repeat split; assumption.
Qed.

(** One row adds at most one record, dated that row, and only under a
    true flag; the frames are not touched. *)
Lemma trade_row_spec self book ts px b sl w :
  heap (snd (trade_row self book ts px b sl w)) = heap w /\
  forall book', fst (trade_row self book ts px b sl w) = Ok book' ->
    book' = book \/
    (b || sl = true /\ exists f, book' = book ++ [f] /\ f_date f = ts).
Proof.
  unfold trade_row, bind, get.
  destruct (b && (_position w =? 0)%Z) eqn:Eb.
  - apply andb_true_iff in Eb as [-> _].
    destruct (Qeq_bool px 0); [split; [reflexivity | discriminate]|].
    destruct (negb (Qfloor (_cash w / px) =? 0)%Z); simpl.
    + split; [reflexivity|]. intros book' E. injection E as <-.
      right. split; [reflexivity|]. eexists. split; reflexivity.
    + split; [reflexivity|]. intros book' E. injection E as <-. by left.
  - destruct (sl && (0 <? _position w)%Z) eqn:Es; simpl.
    + apply andb_true_iff in Es as [-> _].
      split; [reflexivity|]. intros book' E. injection E as <-.
      right. split; [apply orb_true_r|]. eexists. split; reflexivity.
    + split; [reflexivity|]. intros book' E. injection E as <-. by left.
Qed.

Lemma row_body_flags self df idx fb fs book i w D r w' :
  heap w !! df = Some D -> aligned_frame idx fb fs D ->
  flagged fb fs book ->
  row_body self df book i w = (r, w') ->
  (exists D', heap w' !! df = Some D' /\ aligned_frame idx fb fs D') /\
  forall book', r = Ok book' -> flagged fb fs book'.
Proof.
  intros HD Hal Hbook E. unfold row_body in E.
  rewrite (bind_step _ _ _ _ _ (read_holds w df D HD)) in E.
  assert (Hstay : exists D', heap w !! df = Some D' /\
                             aligned_frame idx fb fs D') by eauto.
  destruct (index D !! i) as [ts|] eqn:Ets.
  2: { injection E as <- <-. split; [exact Hstay | discriminate]. }
  destruct (cell_at_aligned idx fb fs D i ts Hal Ets) as [Hb Hs].
  unfold bind at 1, lift at 1 in E.
  destruct (cell_at D "close" i) as [c|e].
  2: { injection E as <- <-. split; [exact Hstay | discriminate]. }
  unfold bind at 1, lift at 1 in E.
  destruct (_scalar c) as [px|e].
  2: { injection E as <- <-. split; [exact Hstay | discriminate]. }
  rewrite Hb, Hs in E.
  rewrite (bind_step (lift (Ok _)) _ w _ _ eq_refl) in E.
  rewrite (bind_step (lift (Ok _)) _ w _ _ eq_refl) in E.
  simpl truthy in E.
  destruct (trade_row_spec self book ts px (fb ts) (fs ts) w) as [Hh Hbk].
  unfold bind at 1 in E.
  destruct (trade_row self book ts px (fb ts) (fs ts) w) as [[book1|e] w1];
    simpl in Hh, Hbk.
  2: { injection E as <- <-. rewrite Hh.
       split; [exact Hstay | discriminate]. }
  rewrite (bind_step get _ w1 _ _ eq_refl) in E.
  assert (HD1 : heap w1 !! df = Some D) by (rewrite Hh; exact HD).
  rewrite (bind_step _ _ _ _ _ (update_holds w1 df D _ HD1)) in E.
  injection E as <- <-. split.
  - eexists. split; [apply lookup_insert_eq | by apply aligned_with_at].
  - intros book' E. injection E as <-.
    destruct (Hbk book1 eq_refl) as [->|(Hflag & f & -> & Hf)];
      [exact Hbook|].
    apply Forall_app. split; [exact Hbook|].
    constructor; [rewrite Hf; exact Hflag | constructor].
Qed.

Lemma rows_loop_flags self df idx fb fs rows :
  forall book w D,
    heap w !! df = Some D -> aligned_frame idx fb fs D ->
    flagged fb fs book ->
    forall book', fst (rows_loop self df rows book w) = Ok book' ->
                  flagged fb fs book'.
Proof.
  induction rows as [|i rows IH]; intros book w D HD Hal Hbook book'; simpl.
  - intros E. injection E as <-. exact Hbook.
  - unfold bind.
    destruct (row_body self df book i w) as [r w1] eqn:Erow.
    destruct (row_body_flags self df idx fb fs book i w D r w1
                HD Hal Hbook Erow) as [(D1 & HD1 & Hal1) Hb1].
    destruct r as [book1|e]; simpl; [|discriminate].
    apply (IH book1 w1 D1 HD1 Hal1). by apply Hb1.
Qed.

Lemma bind_Ok {S A B} (m : M S A) (k : A -> M S B) (w : S) (b : B) :
  fst (bind m k w) = Ok b ->
  exists a w1, m w = (Ok a, w1) /\ fst (k a w1) = Ok b.
Proof.
  unfold bind. destruct (m w) as [[a|e] w1]; [eauto | discriminate].
Qed.

Lemma finish_trades self df book w trades pnl sm :
  fst (finish self df book w) = Ok (trades, pnl, sm) -> trades = book.
Proof.
  unfold finish. intros H.
  repeat (apply bind_Ok in H as (? & ? & _ & H)).
  simpl in H. congruence.
Qed.

(** Every record of a run falls on a date where the aligned buy flag or
    the aligned sell flag is true. *)
Lemma run_flagged self p s w pf sg bcol scol trades pnl sm :
  holds w p pf -> holds w s sg ->
  column sg "buy" = Ok bcol -> column sg "sell" = Ok scol ->
  fst (run self p s w) = Ok (trades, pnl, sm) ->
  flagged (flag_on (index sg) bcol) (flag_on (index sg) scol) trades.
Proof.
  intros Hp Hs Hb Hsl H. unfold run in H.
  apply bind_Ok in H as (df & w1 & Hprep & H).
  destruct (prepare_aligned self p s w pf sg bcol scol df w1 Hp Hs Hb Hsl Hprep)
    as (D & HD & Hal).
  rewrite (bind_step _ _ _ _ _ (read_holds w1 df D HD)) in H.
  apply bind_Ok in H as (book & w2 & Hloop & H).
  apply finish_trades in H. subst trades.
  apply (rows_loop_flags self df (index pf) _ _
           (seq 0 (length (index D))) [] w1 D HD Hal);
    [constructor | rewrite Hloop; reflexivity].
Qed.

(** C8, the claim as stated fails.  The signal frame has one row, on
    day 1, with both flags set; the prices cover days 1 and 2.  On day 2
    both signals are missing, yet the run sells there: the day-1 row is
    carried forward. *)
Lemma missing_signal_counterexample :
  ~ (forall (self : Backtester) (p s : loc) (w : World)
            (pf sg : DataFrame) trades pnl sm (t : Z),
       holds w p pf -> holds w s sg ->
       fst (run self p s w) = Ok (trades, pnl, sm) ->
       no_signal sg "buy" t -> no_signal sg "sell" t ->
       Forall (fun f => f_date f <> t) trades).
Proof.
  intros H.
  pose (res := fst (run bt_plain 1%positive 2%positive
                      (world_of prices_two_days signals_day_one))).
  assert (E : exists pnl sm, res = Ok (two_day_trades, pnl, sm)).
  { eexists _, _. subst res. vm_compute. reflexivity. }
  destruct E as (pnl & sm & E). subst res.
  specialize (H bt_plain 1%positive 2%positive
                (world_of prices_two_days signals_day_one)
                prices_two_days signals_day_one two_day_trades pnl sm 2%Z
                eq_refl eq_refl E).
  assert (Hno : forall name, no_signal signals_day_one name 2%Z).
  { intros name col c Hcol Hin. apply elem_of_zip_l in Hin.
    simpl in Hin. apply list_elem_of_singleton in Hin. discriminate. }
  specialize (H (Hno _) (Hno _)).
  inversion H as [|f1 l1 _ H2]. inversion H2 as [|f2 l2 Hf _].
  apply Hf. reflexivity.
Qed.

(** A [nan] on the price date itself: the run over [signals_with_nan]
    buys on day 1 and does nothing on day 2. *)
Example nan_signal_is_false :
  exists pnl sm,
    fst (run bt_plain 1%positive 2%positive
           (world_of prices_two_days signals_with_nan))
    = Ok ([fill 1 BUY (Py.round 100 4) 10
             (Py.round (1000 - (1 * (100 * 10) + 0)) 4)], pnl, sm).
Proof. eexists _, _. vm_compute. reflexivity. Qed.

End SignalFacts.

(** ** The scenarios of the specification, run on the embedding *)

Module Scenarios.
Import portfolio_manager main backtester Spec Examples BtExamples.

(** Single instrument, closes 100, 90, 80, 70, 60, bought on day 1 and sold
    on day 5 with 1000 of cash and no fee: 10 shares in at 100, out at 60,
    600 of cash, a total return of -40%. *)
Example scenario_single_instrument :
  exists pnl sm,
    fst (run bt_plain 1%positive 2%positive
           (world_of prices_falling signals_in_out))
    = Ok ([fill 1 BUY (Py.round 100 4) 10 (Py.round (1000 - 1000) 4);
           fill 5 SELL (Py.round 60 4) 10 (Py.round 600 4)], pnl, sm) /\
    (Total_Return sm == -40)%Q /\ (Final_NAV sm == 600)%Q.
Proof.
  eexists _, _. split; [vm_compute; reflexivity|].
  split; vm_compute; reflexivity.
Qed.

(** Two instruments share 1000 with half the portfolio per position: A,
    first in the list, buys 5 shares and leaves 500; B then buys 5. *)
Example scenario_shared_pool :
  let s := snd (run_portfolio_backtest cfg_half two_buyers) in
  map (fun t => (t_stock t, t_type t, t_quantity t)) (trade_log s)
  = [("A"%string, BUY, 5%Z); ("B"%string, BUY, 5%Z)] /\
  Forall2 Qeq (map t_cash_after (trade_log s)) [500; 0]%Q.
Proof.
  split; [vm_compute; reflexivity|].
  vm_compute. repeat constructor.
Qed.

(** An instrument held but without a price on a date adds nothing to that
    date's stock value: on day 2 of [two_stocks] only the 2 shares of A, at
    110, are counted, while 4 shares of B are held. *)
Example scenario_missing_price :
  let s := snd (run_portfolio_backtest cfg_default two_stocks) in
  exists d1 d2 d3,
    daily_values s = [d1; d2; d3] /\
    d_positions d2 !! "B"%string = Some 4%Z /\
    (d_stock_value d2 == 220)%Q.
Proof.
  eexists _, _, _. split; [vm_compute; reflexivity|].
  split; vm_compute; reflexivity.
Qed.

End Scenarios.

(** ** The portfolio methods: further properties *)

Module ManagerExtras.
Import portfolio_manager main Spec Ledger Examples LedgerExamples.
Import PyFacts ManagerFacts LedgerFacts RunFacts.

(** X1.  [execute_buy] is a silent no-op, returning [False] and leaving
    the object as it was, when the instrument is already held or when the
    available cash is below the price of one share. *)
Theorem buy_skipped (stock : string) (price : Q) (date : Z)
    (prices : dict Q) (s : PortfolioManager) (held : Z) :
  positions s !! stock = Some held ->
  (0 < held)%Z \/
  (exists avail,
     fst (get_available_cash_for_stock prices s) = Ok avail /\
     (avail < price)%Q) ->
  execute_buy stock price date prices s = (Ok false, s).
Proof.
  intros Hp Hwhy.
  unfold execute_buy, bind, can_buy, bind. rewrite position_of_eq, Hp.
  destruct (0 <? held)%Z eqn:Eh; [reflexivity|].
  destruct Hwhy as [Hh|(avail & Ha & Hlt)].
  { apply Z.ltb_ge in Eh. lia. }
  rewrite get_available_cash_eq in *. simpl in Ha. rewrite Ha.
  apply Qltb_true in Hlt. rewrite Hlt. reflexivity.
Qed.

Lemma buy_skipped_witness :
  execute_buy "A" 1000 2 [("A"%string, 1000%Q)] after_two_stocks
  = (Ok false, after_two_stocks).
Proof.
  apply (buy_skipped "A" 1000 2 [("A"%string, 1000%Q)] after_two_stocks 0%Z).
  - vm_compute. reflexivity.
  - right. eexists. split; [vm_compute; reflexivity|].
    vm_compute. reflexivity.
Defined.

(** X2.  [execute_sell] is a silent no-op, returning [False] and leaving
    the object as it was, when nothing of the instrument is held. *)
Theorem sell_skipped (stock : string) (price : Q) (date : Z)
    (s : PortfolioManager) (n : Z) :
  positions s !! stock = Some n -> (n <= 0)%Z ->
  execute_sell stock price date s = (Ok false, s).
Proof.
  intros Hp Hn. unfold execute_sell, can_sell, bind.
  rewrite position_of_eq, Hp. simpl.
  apply Z.ltb_ge in Hn. rewrite Hn. reflexivity.
Qed.

Lemma sell_skipped_witness :
  execute_sell "A" 100 4 after_two_stocks = (Ok false, after_two_stocks).
Proof.
  apply (sell_skipped "A" 100 4 after_two_stocks 0%Z).
  - vm_compute. reflexivity.
  - lia.
Defined.



(** X4.  Buying from flat and selling again at the same price brings the
    holding back to zero and appends a BUY and a SELL of the same
    quantity, price, value and commission; the cash afterwards is
    (cash - (value + commission)) + (value - commission): the round trip
    costs the two commissions. *)
Theorem buy_sell_round_trip (stock : string) (price : Q) (d1 d2 : Z)
    (prices : dict Q) (s : PortfolioManager) :
  positions s !! stock = Some 0%Z ->
  fst (execute_buy stock price d1 prices s) = Ok true ->
  let s1 := snd (execute_buy stock price d1 prices s) in
  let s2 := snd (execute_sell stock price d2 s1) in
  fst (execute_sell stock price d2 s1) = Ok true /\
  positions s2 = positions s /\
  exists tb ts,
    trade_log s2 = trade_log s ++ [tb; ts] /\
    t_type tb = BUY /\ t_type ts = SELL /\
    t_quantity ts = t_quantity tb /\ t_price ts = t_price tb /\
    t_value ts = t_value tb /\ t_commission ts = t_commission tb /\
    cash s2
    = (cash s - (t_value tb + t_commission tb)
       + (t_value tb - t_commission tb))%Q.
Proof.
  intros Hflat Hex.
  destruct (execute_buy_cases stock price d1 prices s)
    as [[_ Hno]|(held & avail & q & Hp & _ & _ & _ & _ & _ & Hpos & E)];
    [contradiction|].
  rewrite Hflat in Hp. injection Hp as <-.
  rewrite E. cbn [snd].
  destruct (execute_sell_cases stock price d2 (bought stock price d1 0 q s))
    as [[_ Hno]|(q' & Hp' & Hq' & E')].
  - exfalso. apply Hno.
    assert (Hl : positions (bought stock price d1 0 q s) !! stock = Some q).
    { simpl. apply lookup_insert_eq. }
    assert (H0 : (0 <? q)%Z = true) by (apply Z.ltb_lt; lia).
    unfold execute_sell, can_sell, bind.
    rewrite position_of_eq, Hl. cbv beta iota. unfold ret at 1.
    cbv beta iota. rewrite H0. reflexivity.
  - simpl in Hp'. rewrite lookup_insert_eq in Hp'. injection Hp' as <-.
    rewrite E'. simpl. split; [reflexivity|]. split.
    + rewrite insert_insert_eq. apply insert_id. exact Hflat.
    + eexists _, _. split; [rewrite <- app_assoc; reflexivity|].
      cbn [t_type t_quantity t_commission t_price t_value].
      rewrite Z.add_0_l. repeat split; reflexivity.
Qed.

Lemma buy_sell_round_trip_witness :
  let s := reset cfg_default ["A"%string] in
  let s1 := snd (execute_buy "A" 100 1 [("A"%string, 100%Q)] s) in
  let s2 := snd (execute_sell "A" 100 2 s1) in
  fst (execute_sell "A" 100 2 s1) = Ok true /\
  positions s2 = positions s /\
  exists tb ts,
    trade_log s2 = trade_log s ++ [tb; ts] /\
    t_type tb = BUY /\ t_type ts = SELL /\
    t_quantity ts = t_quantity tb /\ t_price ts = t_price tb /\
    t_value ts = t_value tb /\ t_commission ts = t_commission tb /\
    cash s2
    = (cash s - (t_value tb + t_commission tb)
       + (t_value tb - t_commission tb))%Q.
Proof.
  apply (buy_sell_round_trip "A" 100 1 2 [("A"%string, 100%Q)]
           (reset cfg_default ["A"%string])).
  - vm_compute. reflexivity.
  - vm_compute. reflexivity.
Defined.

(** X6.  Trading an instrument the portfolio was not built with raises
    [KeyError] for that name and changes nothing, for a BUY and for a
    SELL alike. *)
Theorem unknown_instrument (stock : string) (price : Q) (date : Z)
    (prices : dict Q) (s : PortfolioManager) :
  positions s !! stock = None ->
  execute_buy stock price date prices s = (Raise (KeyError stock), s) /\
  execute_sell stock price date s = (Raise (KeyError stock), s).
Proof.
  intros Hp. split.
  - unfold execute_buy, bind, can_buy, bind. rewrite position_of_eq, Hp.
    reflexivity.
  - unfold execute_sell, can_sell, bind. rewrite position_of_eq, Hp.
    reflexivity.
Qed.

Lemma unknown_instrument_witness :
  execute_buy "Z" 100 1 [("Z"%string, 100%Q)] (reset cfg_default ["A"%string])
  = (Raise (KeyError "Z"), reset cfg_default ["A"%string]) /\
  execute_sell "Z" 100 1 (reset cfg_default ["A"%string])
  = (Raise (KeyError "Z"), reset cfg_default ["A"%string]).
Proof.
  apply (unknown_instrument "Z" 100 1 [("Z"%string, 100%Q)]
           (reset cfg_default ["A"%string])).
  vm_compute. reflexivity.
Defined.

End ManagerExtras.

(** ** The portfolio ledger: what the logs add up to *)

Module LedgerExtras.
Import portfolio_manager main Spec Ledger Examples LedgerExamples.
Import PyFacts ManagerFacts LedgerFacts RunFacts.

Lemma replay_snoc (c0 : Q) (log : list Trade) (t : Trade) :
  replay c0 (log ++ [t]) = cash_flow (replay c0 log) t.
Proof. unfold replay. rewrite fold_left_app. reflexivity. Qed.

Lemma net_quantity_snoc (k : string) (log : list Trade) (t : Trade) :
  net_quantity k (log ++ [t]) = share_flow k (net_quantity k log) t.
Proof. unfold net_quantity. rewrite fold_left_app. reflexivity. Qed.

(** X7.  The trade log accounts for the cash: replaying the log from the
    initial cash gives the [cash_after] of every record at its place in the
    log, and the current cash at its end. *)
Theorem log_accounts_for_cash (okp : Q -> Prop) (cfg : PortfolioConfig)
    (l : list string) (s : PortfolioManager) :
  reachable okp cfg l s ->
  cash s = replay (initial_cash cfg) (trade_log s) /\
  forall i t, trade_log s !! i = Some t ->
    t_cash_after t = replay (initial_cash cfg) (take (S i) (trade_log s)).
Proof.
  assert (Hstep : forall s0 t,
    (cash s0 = replay (initial_cash cfg) (trade_log s0) /\
     forall i t, trade_log s0 !! i = Some t ->
       t_cash_after t
       = replay (initial_cash cfg) (take (S i) (trade_log s0))) ->
    t_cash_after t = cash_flow (cash s0) t ->
    forall i t', (trade_log s0 ++ [t]) !! i = Some t' ->
      t_cash_after t'
      = replay (initial_cash cfg) (take (S i) (trade_log s0 ++ [t]))).
  { intros s0 t [Hc Hrec] Ht i t' Hi.
    destruct (decide (i < length (trade_log s0))%nat) as [Hlt|Hge].
    - rewrite lookup_app_l in Hi by assumption.
      rewrite take_app_le by lia. by apply Hrec.
    - rewrite lookup_app_r in Hi by lia.
      destruct (i - length (trade_log s0))%nat eqn:Ei; [|destruct n; discriminate].
      injection Hi as <-.
      rewrite take_ge by (rewrite length_app; simpl; lia).
      rewrite replay_snoc, <- Hc. exact Ht. }
  induction 1 as [|s0 stock price date prices _ IH _ _
                  |s0 stock price date _ IH _
                  |s0 date prices _ IH _].
  - split; [reflexivity|]. intros i t Hi. destruct i; discriminate.
  - destruct (execute_buy_cases stock price date prices s0)
      as [[-> _]|(held & avail & q & _ & _ & _ & _ & _ & _ & _ & ->)];
      [exact IH|].
    split.
    + simpl. rewrite replay_snoc. unfold cash_flow. simpl.
      destruct IH as [<- _]. reflexivity.
    + simpl. apply (Hstep s0 _ IH). reflexivity.
  - destruct (execute_sell_cases stock price date s0)
      as [[-> _]|(q & _ & _ & ->)]; [exact IH|].
    split.
    + simpl. rewrite replay_snoc. unfold cash_flow. simpl.
      destruct IH as [<- _]. reflexivity.
    + simpl. apply (Hstep s0 _ IH). reflexivity.
  - rewrite update_daily_value_eq.
    destruct (fst (get_portfolio_value prices s0)); exact IH.
Qed.

Lemma log_accounts_for_cash_witness :
  cash after_two_stocks
  = replay (initial_cash cfg_default) (trade_log after_two_stocks) /\
  forall i t, trade_log after_two_stocks !! i = Some t ->
    t_cash_after t
    = replay (initial_cash cfg_default)
        (take (S i) (trade_log after_two_stocks)).
Proof.
  apply (log_accounts_for_cash (fun _ => True) cfg_default
           (keys two_stocks)).
  apply EngineClaims.run_reachable.
Defined.

(** X8.  The ledger agrees with the log: the holding of every instrument
    is the number of its shares bought minus the number sold over the
    whole log, and every record trades a positive number of shares at
    value = price * quantity. *)
Theorem ledger_matches_log (okp : Q -> Prop) (cfg : PortfolioConfig)
    (l : list string) (s : PortfolioManager) :
  reachable okp cfg l s ->
  (forall k n, positions s !! k = Some n ->
               n = net_quantity k (trade_log s)) /\
  Forall (fun t => (0 < t_quantity t)%Z /\
                   t_value t = (t_price t * inject_Z (t_quantity t))%Q)
    (trade_log s).
Proof.
  induction 1 as [|s0 stock price date prices _ IH _ _
                  |s0 stock price date _ IH _
                  |s0 date prices _ IH _].
  - split; [|constructor]. intros k n. simpl.
    rewrite zero_positions_lookup. destruct (decide (k ∈ l)); [|discriminate].
    intros E. injection E as <-. reflexivity.
  - destruct (execute_buy_cases stock price date prices s0)
      as [[-> _]|(held & avail & q & Hp & Hh & _ & _ & _ & _ & Hq & ->)];
      [exact IH|].
    destruct IH as [Hnet Hrec]. split.
    + intros k n. simpl. rewrite net_quantity_snoc. unfold share_flow. simpl.
      destruct (decide (stock = k)) as [<-|Hne].
      * rewrite lookup_insert_eq. intros E. injection E as <-.
        rewrite <- (Hnet stock held Hp). reflexivity.
      * rewrite lookup_insert_ne by assumption. apply Hnet.
    + simpl. apply Forall_app. split; [exact Hrec|].
      constructor; [|constructor]. simpl. split; [exact Hq | reflexivity].
  - destruct (execute_sell_cases stock price date s0)
      as [[-> _]|(q & Hp & Hq & ->)]; [exact IH|].
    destruct IH as [Hnet Hrec]. split.
    + intros k n. simpl. rewrite net_quantity_snoc. unfold share_flow. simpl.
      destruct (decide (stock = k)) as [<-|Hne].
      * rewrite lookup_insert_eq. intros E. injection E as <-.
        rewrite <- (Hnet stock q Hp). lia.
      * rewrite lookup_insert_ne by assumption. apply Hnet.
    + simpl. apply Forall_app. split; [exact Hrec|].
      constructor; [|constructor]. simpl. split; [exact Hq | reflexivity].
  - rewrite update_daily_value_eq.
    destruct (fst (get_portfolio_value prices s0)); exact IH.
Qed.

Lemma ledger_matches_log_witness :
  (forall k n, positions after_two_stocks !! k = Some n ->
               n = net_quantity k (trade_log after_two_stocks)) /\
  Forall (fun t => (0 < t_quantity t)%Z /\
                   t_value t = (t_price t * inject_Z (t_quantity t))%Q)
    (trade_log after_two_stocks).
Proof.
  apply (ledger_matches_log (fun _ => True) cfg_default (keys two_stocks)).
  apply EngineClaims.run_reachable.
Defined.

End LedgerExtras.

(** ** Runs that never trade, and the summary *)

Module SummaryExtras.
Import portfolio_manager main Spec Ledger Examples LedgerExamples.
Import PyFacts ManagerFacts LedgerFacts RunFacts.

Lemma dict_get_elem {V} (d : dict V) (k : string) (v : V) :
  dict_get d k = Some v -> (k, v) ∈ d.
Proof.
  induction d as [|[k' v'] d IH]; simpl; [discriminate|].
  destruct (String.eqb k k') eqn:E.
  - apply String.eqb_eq in E. subst k'. intros H. injection H as ->. by left.
  - intros H. right. by apply IH.
Qed.

Lemma count_open_zero (l : list string) :
  count_open (zero_positions l) = 0%nat.
Proof.
  unfold count_open.
  assert (H : Forall (fun kv : string * Z => (0 <? snd kv)%Z = false)
                (map_to_list (zero_positions l))).
  { apply Forall_forall. intros [k n] Hin.
    apply elem_of_map_to_list in Hin.
    rewrite zero_positions_lookup in Hin.
    destruct (decide (k ∈ l)); [|discriminate].
    injection Hin as <-. reflexivity. }
  induction H as [|kv rest Hkv _ IH]; [reflexivity|].
  simpl. rewrite Hkv. exact IH.
Qed.

(** The state of a portfolio that has not traded. *)
Lemma idle_day (cfg : PortfolioConfig) (all_signals : dict Frame) (date : Z)
    (s : PortfolioManager) :
  never_buys all_signals ->
  config s = cfg -> stocks s = keys all_signals ->
  positions s = zero_positions (keys all_signals) ->
  fst (for_each (keys (prices_on all_signals date))
         (process_ticker all_signals date (prices_on all_signals date)) s)
  = Ok tt /\
  snd (for_each (keys (prices_on all_signals date))
         (process_ticker all_signals date (prices_on all_signals date)) s)
  = s.
Proof.
  intros Hnb Hc Hs Hp.
  destruct (prices_on_spec (fun _ => True) all_signals date) as [_ Hkeys].
  { intros kv d r _ _. exact I. }
  apply (for_each_inv (fun s' => s' = s)); [|reflexivity].
  intros ticker s' Hin ->.
  pose proof (Hkeys _ Hin) as Hin'.
  unfold process_ticker.
  destruct (dict_get_is_Some all_signals ticker Hin') as [df Hdf].
  rewrite Hdf.
  destruct (df !! date) as [signals|] eqn:Erow; [|split; reflexivity].
  destruct (dict_get_is_Some _ ticker Hin) as [price ->].
  rewrite (Hnb (ticker, df) date signals (dict_get_elem _ _ _ Hdf) Erow).
  destruct (sell signals); [|split; reflexivity].
  unfold bind, execute_sell, can_sell, bind.
  rewrite position_of_eq, Hp, zero_positions_lookup.
  rewrite decide_True by exact Hin'. split; reflexivity.
Qed.

(** X9.  When no row carries a buy flag, the run completes without a
    single trade and never touches the cash or the holdings: the cash
    stays the initial cash and every instrument flat, every snapshot
    records that cash and those holdings, and the summary reports no
    trade, the initial cash as current cash and no open position. *)
Theorem idle_run (cfg : PortfolioConfig) (all_signals : dict Frame) :
  never_buys all_signals ->
  let s := snd (run_portfolio_backtest cfg all_signals) in
  fst (run_portfolio_backtest cfg all_signals) = Ok tt /\
  trade_log s = [] /\ cash s = initial_cash cfg /\
  positions s = zero_positions (keys all_signals) /\
  Forall (fun d => d_cash d = initial_cash cfg /\
                   d_positions d = zero_positions (keys all_signals))
    (daily_values s) /\
  exists r,
    get_summary s = (Ok r, s) /\
    initial_value r = initial_cash cfg /\
    total_trades r = 0%nat /\
    current_cash r = initial_cash cfg /\
    current_positions r = 0%nat.
Proof.
  intros Hnb.
  set (inv := fun s : PortfolioManager =>
    config s = cfg /\ stocks s = keys all_signals /\
    positions s = zero_positions (keys all_signals) /\
    trade_log s = [] /\ cash s = initial_cash cfg /\
    Forall (fun d => d_cash d = initial_cash cfg /\
                     d_positions d = zero_positions (keys all_signals))
      (daily_values s)).
  assert (Hrun : fst (run_portfolio_backtest cfg all_signals) = Ok tt /\
                 inv (snd (run_portfolio_backtest cfg all_signals))).
  { unfold run_portfolio_backtest. apply (for_each_inv inv).
    - intros date s _ (Hc & Hs & Hp & Hl & Hcash & Hd).
      unfold simulate_day, bind.
      destruct (idle_day cfg all_signals date s Hnb Hc Hs Hp) as [Hok Hsame].
      destruct (for_each _ _ s) as [[[]|e] s1]; simpl in Hok, Hsame;
        [|discriminate].
      subst s1.
      destruct (prices_on all_signals date) as [|kv rest] eqn:E.
      { split; [reflexivity|]. repeat split; assumption. }
      rewrite <- E. rewrite update_daily_value_eq.
      rewrite get_portfolio_value_ok.
      2: { intros k Hk. rewrite Hp, zero_positions_lookup.
           rewrite decide_True by (rewrite <- Hs; exact Hk). by eexists. }
      simpl. split; [reflexivity|].
      repeat split; try assumption.
      apply Forall_app. split; [exact Hd|].
      constructor; [|constructor]. simpl. split; assumption.
    - repeat split; constructor. }
  destruct Hrun as [Hok (Hc & Hs & Hp & Hl & Hcash & Hd)].
  cbv zeta. split; [exact Hok|]. split; [exact Hl|]. split; [exact Hcash|].
  split; [exact Hp|]. split; [exact Hd|].
  set (s := snd (run_portfolio_backtest cfg all_signals)) in *.
  unfold get_summary, bind, get.
  destruct (last (daily_values s)) as [d|] eqn:El.
  - eexists. split; [reflexivity|]. simpl. rewrite Hl, Hc, Hp.
    repeat split; auto. apply count_open_zero.
  - eexists. split; [reflexivity|]. simpl. rewrite Hc, Hp.
    repeat split; auto. apply count_open_zero.
Qed.

Lemma never_buysb_sound (all_signals : dict Frame) :
  never_buysb all_signals = true -> never_buys all_signals.
Proof.
  intros Hb kv d r Hin Hr.
  unfold never_buysb in Hb. rewrite forallb_forall in Hb.
  apply list_elem_of_In in Hin. specialize (Hb kv Hin).
  rewrite forallb_forall in Hb.
  apply negb_true_iff. apply (Hb (d, r)).
  apply list_elem_of_In. by apply elem_of_map_to_list.
Qed.

Lemma idle_run_witness :
  let s := snd (run_portfolio_backtest cfg_default only_sells) in
  fst (run_portfolio_backtest cfg_default only_sells) = Ok tt /\
  trade_log s = [] /\ cash s = initial_cash cfg_default /\
  positions s = zero_positions (keys only_sells) /\
  Forall (fun d => d_cash d = initial_cash cfg_default /\
                   d_positions d = zero_positions (keys only_sells))
    (daily_values s) /\
  exists r,
    get_summary s = (Ok r, s) /\
    initial_value r = initial_cash cfg_default /\
    total_trades r = 0%nat /\
    current_cash r = initial_cash cfg_default /\
    current_positions r = 0%nat.
Proof.
  apply (idle_run cfg_default only_sells).
  apply never_buysb_sound. vm_compute. reflexivity.
Defined.

End SummaryExtras.

(** ** The day loop: dates, snapshots and the order of the log *)

Module LoopExtras.
Import portfolio_manager main Spec Ledger Examples LedgerExamples.
Import PyFacts ManagerFacts LedgerFacts RunFacts.

Lemma sorted_nodup_strict (l : list Z) :
  StronglySorted Z.le l -> NoDup l -> StronglySorted Z.lt l.
Proof.
  induction 1 as [|a l Hs IH Ha]; intros Hnd; [constructor|].
  apply NoDup_cons in Hnd as [Hnot Hnd].
  constructor; [by apply IH|].
  rewrite Forall_forall in *. intros x Hx.
  specialize (Ha x Hx). assert (a <> x) by (intros ->; contradiction). lia.
Qed.

Lemma all_dates_sorted (all_signals : dict Frame) :
  StronglySorted Z.lt (all_dates all_signals).
Proof.
  unfold all_dates. apply sorted_nodup_strict.
  - apply StronglySorted_merge_sort; apply _.
  - rewrite merge_sort_Permutation. apply NoDup_elements.
Qed.

Lemma all_dates_elem (all_signals : dict Frame) (d : Z) :
  d ∈ all_dates all_signals <->
  exists kv, kv ∈ all_signals /\ is_Some (snd kv !! d).
Proof.
  unfold all_dates. rewrite merge_sort_Permutation.
  rewrite elem_of_elements, elem_of_union_list. split.
  - intros (X & HX & Hd). apply list_elem_of_In, in_map_iff in HX
      as (kv & <- & Hkv).
    exists kv. split; [by apply list_elem_of_In|]. by apply elem_of_dom.
  - intros (kv & Hkv & Hd). exists (dom (snd kv)). split.
    + apply list_elem_of_In, in_map_iff. exists kv.
      split; [reflexivity | by apply list_elem_of_In].
    + by apply elem_of_dom.
Qed.

(** X10.  The dates the run walks through are strictly ascending, and a
    date is among them exactly when some instrument has a row on it. *)
Theorem all_dates_spec (all_signals : dict Frame) :
  StronglySorted Z.lt (all_dates all_signals) /\
  forall d, d ∈ all_dates all_signals <->
            exists kv, kv ∈ all_signals /\ is_Some (snd kv !! d).
Proof.
  split; [apply all_dates_sorted | apply all_dates_elem].
Qed.

(** What one instrument's turn does to the logs. *)
Lemma process_ticker_log (all_signals : dict Frame) (d : Z)
    (prices : dict Q) (k : string) (s : PortfolioManager) :
  daily_values (snd (process_ticker all_signals d prices k s))
  = daily_values s /\
  (trade_log (snd (process_ticker all_signals d prices k s)) = trade_log s \/
   exists t,
     trade_log (snd (process_ticker all_signals d prices k s))
     = trade_log s ++ [t] /\ t_date t = d /\ t_stock t = k).
Proof.
  unfold process_ticker.
  destruct (dict_get all_signals k) as [df|]; [|split; [|left]; reflexivity].
  destruct (df !! d) as [signals|]; [|split; [|left]; reflexivity].
  destruct (dict_get prices k) as [price|]; [|split; [|left]; reflexivity].
  destruct (buy signals).
  - unfold bind.
    destruct (execute_buy_cases k price d prices s)
      as [[Hs _]|(held & avail & q & _ & _ & _ & _ & _ & _ & _ & E)].
    + destruct (execute_buy k price d prices s) as [[b|e] s1];
        simpl in *; subst s1; split; [|left| |left]; reflexivity.
    + rewrite E. simpl. split; [reflexivity|]. right.
      eexists. repeat split.
  - destruct (sell signals); [|split; [|left]; reflexivity].
    unfold bind.
    destruct (execute_sell_cases k price d s) as [[Hs _]|(q & _ & _ & E)].
    + destruct (execute_sell k price d s) as [[b|e] s1];
        simpl in *; subst s1; split; [|left| |left]; reflexivity.
    + rewrite E. simpl. split; [reflexivity|]. right.
      eexists. repeat split.
Qed.

(** A loop keeps an invariant of the items done so far, whether it runs
    to its end or stops at a raise. *)
Lemma for_each_done {S A} (I : list A -> S -> Prop)
    (body : A -> M S unit) (xs : list A) :
  forall done s,
    I done s ->
    (forall x p s', (exists q, done ++ xs = p ++ x :: q) -> I p s' ->
                    I (p ++ [x]) (snd (body x s'))) ->
    exists p, (exists q, done ++ xs = p ++ q) /\
              I p (snd (for_each xs body s)).
Proof.
  induction xs as [|x xs IH]; intros done s Hs Hbody; simpl.
  - exists done. split; [by exists [] | exact Hs].
  - unfold bind.
    assert (Hx : I (done ++ [x]) (snd (body x s))).
    { apply Hbody; [by exists xs | exact Hs]. }
    destruct (body x s) as [[[]|e] s1]; simpl in Hx.
    + destruct (IH (done ++ [x]) s1 Hx) as (p & [q Hq] & Hp).
      * intros y p s' [q Hq] Hp. apply Hbody; [|exact Hp].
        exists q. rewrite <- Hq, <- app_assoc. reflexivity.
      * exists p. split; [|exact Hp]. exists q.
        rewrite <- Hq, <- app_assoc. reflexivity.
    + exists (done ++ [x]). split; [|exact Hx]. exists xs.
      rewrite <- app_assoc. reflexivity.
Qed.

Lemma keys_dict_set_NoDup {V} (d : dict V) (k : string) (v : V) :
  NoDup (keys d) -> NoDup (keys (dict_set d k v)).
Proof.
  unfold keys. induction d as [|[k' v'] d IH]; simpl; intros Hnd.
  - apply NoDup_singleton.
  - apply NoDup_cons in Hnd as [Hnot Hnd].
    destruct (String.eqb k k') eqn:E; simpl.
    + apply NoDup_cons. split; assumption.
    + apply NoDup_cons. split; [|by apply IH].
      intros Hin. apply (keys_dict_set d k v k') in Hin as [->|Hin].
      * rewrite String.eqb_refl in E. discriminate.
      * contradiction.
Qed.

Lemma prices_on_NoDup (all_signals : dict Frame) (d : Z) :
  NoDup (keys (prices_on all_signals d)).
Proof.
  unfold prices_on.
  assert (G : forall (l : dict Frame) (acc : dict Q),
    NoDup (keys acc) ->
    NoDup (keys (foldl (fun cp (kv : string * Frame) =>
                          match snd kv !! d with
                          | Some r => dict_set cp (fst kv) (close r)
                          | None => cp
                          end) acc l))).
  { induction l as [|kv l IH]; intros acc Hacc; simpl; [exact Hacc|].
    apply IH. destruct (snd kv !! d); [by apply keys_dict_set_NoDup|].
    exact Hacc. }
  apply G. constructor.
Qed.

Lemma filter_stock_snoc (k : string) (new : list Trade) (t : Trade) :
  filter (fun t => t_stock t = k) (new ++ [t])
  = filter (fun t => t_stock t = k) new
    ++ (if decide (t_stock t = k) then [t] else []).
Proof. rewrite filter_app, filter_cons, filter_nil. reflexivity. Qed.

(** The records one day appends: all dated that day, at most one for each
    instrument; the snapshots are not touched by the instrument loop. *)
Lemma tickers_log (all_signals : dict Frame) (d : Z) (s : PortfolioManager) :
  let s' := snd (for_each (keys (prices_on all_signals d))
                   (process_ticker all_signals d (prices_on all_signals d))
                   s) in
  daily_values s' = daily_values s /\
  exists new,
    trade_log s' = trade_log s ++ new /\
    Forall (fun t => t_date t = d) new /\
    forall k, (length (filter (fun t => t_stock t = k) new) <= 1)%nat.
Proof.
  set (inv := fun (p : list string) (s' : PortfolioManager) =>
    daily_values s' = daily_values s /\
    exists new,
      trade_log s' = trade_log s ++ new /\
      Forall (fun t => t_date t = d /\ t_stock t ∈ p) new /\
      forall k, (length (filter (fun t => t_stock t = k) new) <= 1)%nat).
  destruct (for_each_done inv
              (process_ticker all_signals d (prices_on all_signals d))
              (keys (prices_on all_signals d)) [] s)
    as (p & _ & Hd & new & Hlog & Hall & Hone).
  - split; [reflexivity|]. exists []. rewrite app_nil_r.
    repeat split; [constructor | intros k; simpl; lia].
  - intros x p s1 [q Hq] (Hd & new & Hlog & Hall & Hone). simpl in Hq.
    assert (Hx : x ∉ p).
    { pose proof (prices_on_NoDup all_signals d) as Hnd.
      rewrite Hq in Hnd. apply NoDup_app in Hnd as (_ & Hdis & _).
      intros Hin. apply (Hdis x Hin). by left. }
    destruct (process_ticker_log all_signals d (prices_on all_signals d)
                x s1) as [Hd1 Hl1].
    split; [congruence|].
    destruct Hl1 as [Hl1|(t & Hl1 & Ht & Hk)].
    + exists new. rewrite Hl1. split; [exact Hlog|]. split; [|exact Hone].
      eapply Forall_impl; [exact Hall|]. intros t [H1 H2].
      split; [exact H1|]. apply elem_of_app. by left.
    + exists (new ++ [t]). rewrite Hl1, Hlog, app_assoc.
      split; [reflexivity|]. split.
      * apply Forall_app. split.
        -- eapply Forall_impl; [exact Hall|]. intros t' [H1 H2].
           split; [exact H1|]. apply elem_of_app. by left.
        -- constructor; [|constructor]. split; [exact Ht|].
           apply elem_of_app. right. rewrite Hk. by left.
      * intros k. rewrite filter_stock_snoc, length_app.
        destruct (decide (t_stock t = k)) as [Ek|Ek]; simpl.
        -- assert (E0 : filter (fun t => t_stock t = k) new = []).
           { destruct (filter (fun t => t_stock t = k) new) as [|t0 l0] eqn:Ef;
               [reflexivity|].
             assert (Hin : t0 ∈ filter (fun t => t_stock t = k) new)
               by (rewrite Ef; by left).
             apply list_elem_of_filter in Hin as [Hk0 Hin].
             rewrite Forall_forall in Hall.
             destruct (Hall t0 Hin) as [_ Hp]. exfalso. apply Hx.
             rewrite <- Hk, Ek, <- Hk0. exact Hp. }
           rewrite E0. simpl. lia.
        -- specialize (Hone k). lia.
  - cbv zeta. split; [exact Hd|]. exists new. split; [exact Hlog|].
    split; [|exact Hone].
    eapply Forall_impl; [exact Hall|]. intros t [H1 _]. exact H1.
Qed.

Lemma simulate_day_log (all_signals : dict Frame) (d : Z)
    (s : PortfolioManager) :
  let s' := snd (simulate_day all_signals d s) in
  (exists new,
     trade_log s' = trade_log s ++ new /\
     Forall (fun t => t_date t = d) new /\
     forall k, (length (filter (fun t => t_stock t = k) new) <= 1)%nat) /\
  (fst (simulate_day all_signals d s) = Ok tt ->
   prices_on all_signals d <> [] ->
   exists snap, daily_values s' = daily_values s ++ [snap] /\
                d_date snap = d).
Proof.
  pose proof (tickers_log all_signals d s) as Ht. cbv zeta in Ht.
  unfold simulate_day, bind.
  destruct (for_each (keys (prices_on all_signals d)) _ s)
    as [[[]|e] s1]; simpl in Ht; destruct Ht as [Hd Hnew].
  - destruct (prices_on all_signals d) as [|kv rest] eqn:E.
    { simpl. split; [exact Hnew|]. intros _ Hne. contradiction. }
    rewrite update_daily_value_eq.
    destruct (fst (get_portfolio_value (kv :: rest) s1)) as [pv|err].
    + simpl. split; [exact Hnew|]. intros _ _. eexists.
      rewrite Hd. split; reflexivity.
    + simpl. split; [exact Hnew | discriminate].
  - simpl. split; [exact Hnew | discriminate].
Qed.

Lemma prices_on_nonempty (all_signals : dict Frame) (d : Z) :
  (exists kv, kv ∈ all_signals /\ is_Some (snd kv !! d)) ->
  prices_on all_signals d <> [].
Proof.
  unfold prices_on.
  assert (Hset : forall (cp : dict Q) k v, dict_set cp k v <> []).
  { intros [|[k' v'] cp] k v; simpl; [discriminate|].
    destruct (String.eqb k k'); discriminate. }
  assert (G : forall (l : dict Frame) (acc : dict Q),
    acc <> [] \/ (exists kv, kv ∈ l /\ is_Some (snd kv !! d)) ->
    foldl (fun cp (kv : string * Frame) =>
             match snd kv !! d with
             | Some r => dict_set cp (fst kv) (close r)
             | None => cp
             end) acc l <> []).
  { induction l as [|kv l IH]; intros acc Hor; simpl.
    - destruct Hor as [H|(kv & Hin & _)]; [exact H | inversion Hin].
    - apply IH. destruct Hor as [H|(kv' & Hin & Hrow)].
      + left. destruct (snd kv !! d); [apply Hset | exact H].
      + apply elem_of_cons in Hin as [->|Hin].
        * left. destruct Hrow as [r ->]. apply Hset.
        * right. eauto. }
  intros H. apply G. by right.
Qed.

(** X11.  A run that completes records exactly one snapshot for every date
    on which some instrument has a row, in ascending date order. *)
Theorem one_snapshot_per_date (cfg : PortfolioConfig)
    (all_signals : dict Frame) :
  fst (run_portfolio_backtest cfg all_signals) = Ok tt ->
  map d_date (daily_values (snd (run_portfolio_backtest cfg all_signals)))
  = all_dates all_signals.
Proof.
  unfold run_portfolio_backtest.
  assert (G : forall dates s,
    (forall d, d ∈ dates -> prices_on all_signals d <> []) ->
    fst (for_each dates (simulate_day all_signals) s) = Ok tt ->
    map d_date
      (daily_values (snd (for_each dates (simulate_day all_signals) s)))
    = map d_date (daily_values s) ++ dates).
  { induction dates as [|d dates IH]; intros s Hne; simpl.
    - intros _. rewrite app_nil_r. reflexivity.
    - unfold bind.
      destruct (simulate_day_log all_signals d s) as [_ Hsnap].
      cbv zeta in Hsnap.
      destruct (simulate_day all_signals d s) as [[[]|e] s1];
        simpl in *; [|discriminate].
      intros Hok.
      destruct Hsnap as (snap & Hd & Hdate);
        [reflexivity | apply Hne; by left |].
      rewrite IH; [|intros d' Hd'; apply Hne; by right | exact Hok].
      rewrite Hd, map_app. simpl. rewrite Hdate, <- app_assoc.
      reflexivity. }
  intros Hok. rewrite G; [reflexivity| |exact Hok].
  intros d Hd. apply prices_on_nonempty.
  by apply all_dates_elem.
Qed.

Lemma one_snapshot_per_date_witness :
  map d_date (daily_values (snd (run_portfolio_backtest cfg_default
                                   two_stocks)))
  = all_dates two_stocks.
Proof.
  apply (one_snapshot_per_date cfg_default two_stocks).
  vm_compute. reflexivity.
Defined.

Lemma trades_on_sub (k : string) (d : Z) (new : list Trade) :
  (length (trades_on k d new)
   <= length (filter (fun t => t_stock t = k) new))%nat.
Proof.
  unfold trades_on. induction new as [|t new IH]; [simpl; lia|].
  rewrite !filter_cons.
  destruct (decide (t_stock t = k /\ t_date t = d)) as [[H1 H2]|Hn].
  - rewrite decide_True by exact H1. simpl. lia.
  - destruct (decide (t_stock t = k)); simpl; lia.
Qed.

Lemma trades_on_other_date (k : string) (d : Z) (new : list Trade) :
  Forall (fun t => t_date t <> d) new -> trades_on k d new = [].
Proof.
  unfold trades_on. induction 1 as [|t new Ht _ IH]; [reflexivity|].
  rewrite filter_cons, decide_False by (intros [_ H]; contradiction).
  exact IH.
Qed.

(** The records a walk over ascending dates appends. *)
Lemma days_log (all_signals : dict Frame) (dates : list Z) :
  StronglySorted Z.lt dates ->
  forall s,
    exists new,
      trade_log (snd (for_each dates (simulate_day all_signals) s))
      = trade_log s ++ new /\
      Forall (fun t => t_date t ∈ dates) new /\
      StronglySorted Z.le (map t_date new) /\
      forall k d, (length (trades_on k d new) <= 1)%nat.
Proof.
  induction 1 as [|d dates Hs IH Hlt]; intros s; simpl.
  - exists []. rewrite app_nil_r.
    repeat split; [constructor | constructor | intros; simpl; lia].
  - unfold bind.
    destruct (simulate_day_log all_signals d s)
      as [(new1 & Hlog1 & Hd1 & Hone1) _].
    cbv zeta in Hlog1.
    assert (Hsorted1 : StronglySorted Z.le (map t_date new1)).
    { clear Hlog1 Hone1. induction Hd1 as [|t l Ht Hl IHl]; [constructor|].
      simpl. constructor; [exact IHl|].
      apply Forall_forall. intros x Hx.
      apply list_elem_of_In, in_map_iff in Hx as (t' & <- & Hin).
      rewrite Forall_forall in Hl.
      rewrite Ht, (Hl t' (proj2 (list_elem_of_In _ _) Hin)). lia. }
    assert (Hin1 : Forall (fun t => t_date t ∈ d :: dates) new1).
    { eapply Forall_impl; [exact Hd1|]. intros t ->. by left. }
    assert (Hone1' : forall k d', (length (trades_on k d' new1) <= 1)%nat).
    { intros k d'. pose proof (trades_on_sub k d' new1).
      specialize (Hone1 k). lia. }
    destruct (simulate_day all_signals d s) as [[[]|e] s1]; simpl in *.
    2: { exists new1. repeat split; assumption. }
    destruct (IH s1) as (new2 & Hlog2 & Hin2 & Hsorted2 & Hone2).
    exists (new1 ++ new2). rewrite Hlog2, Hlog1, app_assoc.
    split; [reflexivity|].
    assert (Hlater : Forall (fun t => (d < t_date t)%Z) new2).
    { apply Forall_forall. intros t Ht.
      rewrite Forall_forall in Hlt. apply Hlt.
      rewrite Forall_forall in Hin2. by apply Hin2. }
    split; [|split].
    + apply Forall_app. split; [exact Hin1|].
      eapply Forall_impl; [exact Hin2|]. intros t Ht. by right.
    + rewrite map_app.
      apply StronglySorted_app_2; [|exact Hsorted1 | exact Hsorted2].
      intros x1 x2 H1 H2.
      apply list_elem_of_In, in_map_iff in H1 as (t1 & <- & Ht1).
      apply list_elem_of_In, in_map_iff in H2 as (t2 & <- & Ht2).
      rewrite Forall_forall in Hd1, Hlater.
      rewrite (Hd1 t1 (proj2 (list_elem_of_In _ _) Ht1)).
      specialize (Hlater t2 (proj2 (list_elem_of_In _ _) Ht2)). lia.
    + intros k d'. unfold trades_on. rewrite filter_app, length_app.
      fold (trades_on k d' new1). fold (trades_on k d' new2).
      destruct (decide (d' = d)) as [->|Hne].
      * rewrite (trades_on_other_date k d new2).
        -- simpl. specialize (Hone1' k d). lia.
        -- eapply Forall_impl; [exact Hlater|]. intros t Ht. simpl in Ht. lia.
      * rewrite (trades_on_other_date k d' new1).
        -- simpl. apply Hone2.
        -- eapply Forall_impl; [exact Hd1|]. intros t ->. congruence.
Qed.

(** X12.  The trade log of a run, finished or stopped by a raise, is in
    date order: the record dates never decrease along the log, and each is
    one of the dates the run walks through. *)
Theorem trade_log_in_date_order (cfg : PortfolioConfig)
    (all_signals : dict Frame) :
  let log := trade_log (snd (run_portfolio_backtest cfg all_signals)) in
  StronglySorted Z.le (map t_date log) /\
  Forall (fun t => t_date t ∈ all_dates all_signals) log.
Proof.
  unfold run_portfolio_backtest.
  destruct (days_log all_signals (all_dates all_signals)
              (all_dates_sorted all_signals)
              (reset cfg (keys all_signals)))
    as (new & Hlog & Hin & Hsorted & _).
  cbv zeta. rewrite Hlog. simpl. split; assumption.
Qed.

(** X13.  A run records at most one trade for an instrument on a date:
    an instrument is never bought and sold, or traded twice, on one day. *)
Theorem one_trade_per_instrument_and_date (cfg : PortfolioConfig)
    (all_signals : dict Frame) (k : string) (d : Z) :
  (length (trades_on k d
             (trade_log (snd (run_portfolio_backtest cfg all_signals))))
   <= 1)%nat.
Proof.
  unfold run_portfolio_backtest.
  destruct (days_log all_signals (all_dates all_signals)
              (all_dates_sorted all_signals)
              (reset cfg (keys all_signals)))
    as (new & Hlog & _ & _ & Hone).
  rewrite Hlog. simpl. apply Hone.
Qed.

End LoopExtras.


(** ** The single-instrument engine: further properties *)

Module BacktesterExtras.
Import backtester BtSpec BtExamples BtMore Spec.
Import PyFacts AlignFacts SignalFacts LedgerFacts.

(** What one row can do to the live state and the book. *)
Lemma trade_row_cases self book ts px b sl w r w' :
  trade_row self book ts px b sl w = (r, w') ->
  heap w' = heap w /\
  forall book', r = Ok book' ->
    (book' = book /\ w' = w) \/
    (b = true /\ _position w = 0%Z /\ ~ (px == 0)%Q /\
     Qfloor (_cash w / px) <> 0%Z /\
     _position w' = Qfloor (_cash w / px) /\
     (_cash w' == _cash w - px * inject_Z (Qfloor (_cash w / px))
                  - commission self)%Q /\
     book' = book ++ [{| f_date := ts; f_type := BUY;
                         f_price := Py.round px 4;
                         f_qty := Qfloor (_cash w / px);
                         f_cash := Py.round (_cash w') 4 |}]) \/
    (sl = true /\ (0 < _position w)%Z /\
     _position w' = 0%Z /\
     (_cash w' == _cash w + px * inject_Z (_position w)
                  - commission self)%Q /\
     book' = book ++ [{| f_date := ts; f_type := SELL;
                         f_price := Py.round px 4;
                         f_qty := _position w;
                         f_cash := Py.round (_cash w') 4 |}]).
Proof.
  unfold trade_row, bind, get.
  destruct (b && (_position w =? 0)%Z) eqn:Eb.
  - apply andb_true_iff in Eb as [-> Ep]. apply Z.eqb_eq in Ep.
    destruct (Qeq_bool px 0) eqn:Epx.
    { intros E. injection E as <- <-. split; [reflexivity | discriminate]. }
    destruct (negb (Qfloor (_cash w / px) =? 0)%Z) eqn:Eq; simpl.
    + intros E. injection E as <- <-. split; [reflexivity|].
      intros book' E. injection E as <-. right. left.
      apply negb_true_iff, Z.eqb_neq in Eq.
      split; [reflexivity|]. split; [exact Ep|]. split.
      { intros H. apply Qeq_bool_iff in H. congruence. }
      split; [exact Eq|]. simpl. split; [lia|]. split; [|reflexivity].
      change (inject_Z 1) with 1%Q. ring.
    + intros E. injection E as <- <-. split; [reflexivity|].
      intros book' E. injection E as <-. by left.
  - destruct (sl && (0 <? _position w)%Z) eqn:Es; simpl.
    + apply andb_true_iff in Es as [-> Ep]. apply Z.ltb_lt in Ep.
      intros E. injection E as <- <-. split; [reflexivity|].
      intros book' E. injection E as <-. right. right.
      split; [reflexivity|]. split; [exact Ep|]. simpl.
      split; [lia|]. split; [|reflexivity].
      change (inject_Z (-1)) with (-1)%Q. ring.
    + intros E. injection E as <- <-. split; [reflexivity|].
      intros book' E. injection E as <-. by left.
Qed.

Lemma priced_with_at (okpx : Q -> Prop) (D : DataFrame) (ts : Z)
    (v : cell) :
  priced_frame okpx D -> priced_frame okpx (with_at ts "equity" v D).
Proof.
  unfold priced_frame, with_at.
  destruct (dict_get (columns D) "equity"); [|auto].
  unfold column, with_column. simpl.
  rewrite dict_get_set_ne by discriminate. auto.
Qed.

Section Loop.
Variable self : Backtester.
Variable df : loc.
Variable idx : list Z.
Variables fb fs : Z -> bool.
Variable okpx : Q -> Prop.
Variable J : nat -> list Fill -> Q -> Z -> Prop.

Hypothesis Jstep :
  forall i ts px book w r w' book',
    idx !! i = Some ts -> okpx px ->
    J i book (_cash w) (_position w) ->
    trade_row self book ts px (fb ts) (fs ts) w = (r, w') ->
    r = Ok book' ->
    J (S i) book' (_cash w') (_position w').

Lemma row_body_keeps (book : list Fill) (i : nat) (w : World)
    (D : DataFrame) (book' : list Fill) (w' : World) :
  heap w !! df = Some D -> aligned_frame idx fb fs D ->
  priced_frame okpx D ->
  J i book (_cash w) (_position w) ->
  row_body self df book i w = (Ok book', w') ->
  (exists D', heap w' !! df = Some D' /\ aligned_frame idx fb fs D' /\
              priced_frame okpx D') /\
  J (S i) book' (_cash w') (_position w').
Proof.
  intros HD Hal Hpr HJ E. unfold row_body in E.
  rewrite (bind_step _ _ _ _ _ (read_holds w df D HD)) in E.
  destruct (index D !! i) as [ts|] eqn:Ets; [|discriminate].
  destruct (cell_at_aligned idx fb fs D i ts Hal Ets) as [Hb Hs].
  assert (Hts : idx !! i = Some ts).
  { destruct Hal as [<- _]. exact Ets. }
  unfold bind at 1, lift at 1 in E.
  destruct (cell_at D "close" i) as [c|e] eqn:Ec; [|discriminate].
  unfold bind at 1, lift at 1 in E.
  destruct (_scalar c) as [px|e] eqn:Epx; [|discriminate].
  assert (Hpx : okpx px).
  { unfold priced_frame in Hpr. unfold cell_at in Ec.
    destruct (column D "close") as [cl|]; [|discriminate].
    destruct (cl !! i) as [c0|] eqn:Ei; [|discriminate].
    injection Ec as ->. rewrite Forall_forall in Hpr.
    apply (Hpr c); [|exact Epx]. by eapply list_elem_of_lookup_2. }
  rewrite Hb, Hs in E.
  rewrite (bind_step (lift (Ok _)) _ w _ _ eq_refl) in E.
  rewrite (bind_step (lift (Ok _)) _ w _ _ eq_refl) in E.
  simpl truthy in E.
  unfold bind at 1 in E.
  destruct (trade_row self book ts px (fb ts) (fs ts) w)
    as [[book1|e] w1] eqn:Erow; [|discriminate].
  destruct (trade_row_cases _ _ _ _ _ _ _ _ _ Erow) as [Hh _].
  rewrite (bind_step get _ w1 _ _ eq_refl) in E.
  assert (HD1 : heap w1 !! df = Some D) by (rewrite Hh; exact HD).
  rewrite (bind_step _ _ _ _ _ (update_holds w1 df D _ HD1)) in E.
  injection E as <- <-. split.
  - eexists. split; [apply lookup_insert_eq|].
    split; [by apply aligned_with_at | by apply priced_with_at].
  - simpl. apply (Jstep i ts px book w (Ok book1) w1 book1); auto.
Qed.

Lemma rows_loop_keeps (n : nat) :
  forall a book w D book' w',
    heap w !! df = Some D -> aligned_frame idx fb fs D ->
    priced_frame okpx D ->
    J a book (_cash w) (_position w) ->
    rows_loop self df (seq a n) book w = (Ok book', w') ->
    J (a + n) book' (_cash w') (_position w').
Proof.
  induction n as [|n IH]; intros a book w D book' w' HD Hal Hpr HJ E; simpl in E.
  - injection E as <- <-. rewrite Nat.add_0_r. exact HJ.
  - unfold bind in E.
    destruct (row_body self df book a w) as [[book1|e] w1] eqn:Erow;
      [|discriminate].
    destruct (row_body_keeps book a w D book1 w1 HD Hal Hpr HJ Erow)
      as [(D1 & HD1 & Hal1 & Hpr1) HJ1].
    rewrite <- Nat.add_succ_comm.
    apply (IH (S a) book1 w1 D1 book' w' HD1 Hal1 Hpr1 HJ1 E).
Qed.

End Loop.

(** With a dated price frame and both signal columns the first part of
    [run] returns: the working copy and the live state at the start of
    the loop. *)
Lemma prepare_exec self p s w pf sg bcol scol :
  holds w p pf -> holds w s sg ->
  column sg "buy" = Ok bcol -> column sg "sell" = Ok scol ->
  index_is_datetime pf = true ->
  exists df w', prepare self p s w = (Ok df, w') /\
  _cash w' = initial_cash self /\ _position w' = 0%Z /\
  exists D, heap w' !! df = Some D /\
    aligned_frame (index pf) (flag_on (index sg) bcol)
      (flag_on (index sg) scol) D /\
    column D "close" = column pf "close" /\
    column D "equity" = Ok (map (fun _ => VNaN) (index pf)).
Proof.
  unfold holds. intros Hp Hs Hb Hsl Hdt. unfold prepare.
  rewrite (bind_step _ _ _ _ _ (read_holds w p pf Hp)).
  destruct (negb (index_is_datetime pf)) eqn:En;
    [rewrite Hdt in En; discriminate|].
  rewrite (bind_step (alloc pf) _ w _ _ eq_refl).
  set (df0 := fresh (dom (heap w))).
  set (w1 := set_heap (<[df0 := pf]> (heap w)) w).
  assert (H1s : heap w1 !! s = Some sg).
  { simpl. rewrite lookup_insert_ne; [exact Hs | by apply (fresh_ne w s sg)]. }
  assert (H1d : heap w1 !! df0 = Some pf) by (simpl; apply lookup_insert_eq).
  rewrite (bind_step _ _ _ _ _ (read_holds w1 s sg H1s)).
  rewrite (bind_step (alloc _) _ w1 _ _ eq_refl).
  set (l2 := fresh (dom (heap w1))).
  set (R := reindex_ffill sg (index pf) (index_is_datetime pf)).
  set (w2 := set_heap (<[l2 := R]> (heap w1)) w1).
  assert (H2l : heap w2 !! l2 = Some R) by (simpl; apply lookup_insert_eq).
  assert (H2d : heap w2 !! df0 = Some pf).
  { simpl heap at 1. rewrite lookup_insert_ne;
      [exact H1d | by apply (fresh_ne w1 df0 pf)]. }
  rewrite (bind_step _ _ _ _ _ (read_holds w2 l2 R H2l)).
  rewrite (bind_step (alloc _) _ w2 _ _ eq_refl).
  set (l3 := fresh (dom (heap w2))).
  set (w3 := set_heap (<[l3 := fillna_false R]> (heap w2)) w2).
  assert (H3l : heap w3 !! l3 = Some (fillna_false R))
    by (simpl; apply lookup_insert_eq).
  assert (H3d : heap w3 !! df0 = Some pf).
  { simpl heap at 1. rewrite lookup_insert_ne;
      [exact H2d | by apply (fresh_ne w2 df0 pf)]. }
  rewrite (bind_step _ _ _ _ _ (read_holds w3 l3 _ H3l)).
  subst R.
  rewrite (column_aligned sg (index pf) _ "buy" bcol Hb).
  rewrite (bind_step (lift (Ok _)) _ w3 _ _ eq_refl).
  rewrite (bind_step _ _ _ _ _ (update_holds w3 df0 pf _ H3d)).
  set (w4 := set_heap _ w3).
  rewrite (column_aligned sg (index pf) _ "sell" scol Hsl).
  rewrite (bind_step (lift (Ok _)) _ w4 _ _ eq_refl).
  rewrite (bind_step _ _ _ _ _
             (update_holds w4 df0 _ _ (lookup_insert_eq _ _ _))).
  set (w5 := set_heap _ w4).
  rewrite (bind_step _ _ _ _ _
             (update_holds w5 df0 _ _ (lookup_insert_eq _ _ _))).
  set (w6 := set_heap _ w5).
  rewrite (bind_step _ _ _ _ _
             (update_holds w6 df0 _ _ (lookup_insert_eq _ _ _))).
  set (w7 := set_heap _ w6).
  rewrite (bind_step _ _ _ _ _
             (update_holds w7 df0 _ _ (lookup_insert_eq _ _ _))).
  set (w8 := set_heap _ w7).
  rewrite (bind_step (modify _) _ w8 _ _ eq_refl).
  unfold ret. eexists _, _. split; [reflexivity|].
  split; [reflexivity|]. split; [reflexivity|].
  eexists. split; [simpl; apply lookup_insert_eq|].
  unfold aligned_frame, column, with_constant, with_column. simpl.
  split; [split; [reflexivity|]|split].
  - split; rewrite !dict_get_set_ne by discriminate;
      rewrite dict_get_set_eq; unfold astype_bool, flag_on;
      rewrite List.map_map; reflexivity.
  - rewrite !dict_get_set_ne by discriminate. reflexivity.
  - rewrite dict_get_set_eq. reflexivity.
Qed.

(** Without a datetime index the run stops at once, the store and the
    live state untouched. *)
Lemma prepare_undated self p s w pf :
  holds w p pf -> index_is_datetime pf = false ->
  prepare self p s w = (Raise ValueError, w).
Proof.
  unfold holds. intros Hp Hdt. unfold prepare.
  rewrite (bind_step _ _ _ _ _ (read_holds w p pf Hp)).
  rewrite Hdt. reflexivity.
Qed.

Lemma prepare_state self p s w pf sg bcol scol df w' :
  holds w p pf -> holds w s sg ->
  column sg "buy" = Ok bcol -> column sg "sell" = Ok scol ->
  prepare self p s w = (Ok df, w') ->
  _cash w' = initial_cash self /\ _position w' = 0%Z /\
  exists D, heap w' !! df = Some D /\
    aligned_frame (index pf) (flag_on (index sg) bcol)
      (flag_on (index sg) scol) D /\
    column D "close" = column pf "close" /\
    column D "equity" = Ok (map (fun _ => VNaN) (index pf)).
Proof.
  intros Hp Hs Hb Hsl E.
  destruct (index_is_datetime pf) eqn:Hdt.
  - destruct (prepare_exec self p s w pf sg bcol scol Hp Hs Hb Hsl Hdt)
      as (df0 & w0 & E0 & H).
    rewrite E0 in E. injection E as <- <-. exact H.
  - rewrite (prepare_undated self p s w pf Hp Hdt) in E. discriminate.
Qed.

Lemma finish_summary self df book w trades pnl sm :
  fst (finish self df book w) = Ok (trades, pnl, sm) ->
  trades = book /\ exists fr, _build_summary self book fr = Ok sm.
Proof.
  unfold finish. intros H.
  do 6 (apply bind_Ok in H as (? & ? & _ & H)).
  apply bind_Ok in H as (sm' & w1 & Hs & H).
  simpl in H. injection H as <- _ <-.
  split; [reflexivity|].
  unfold lift in Hs. injection Hs as Hs _. eauto.
Qed.

(** A run that returns went through the loop with the invariant [J]. *)
Lemma run_keeps (okpx : Q -> Prop) (J : nat -> list Fill -> Q -> Z -> Prop)
    self p s w pf sg bcol scol trades pnl sm :
  holds w p pf -> holds w s sg ->
  column sg "buy" = Ok bcol -> column sg "sell" = Ok scol ->
  priced_frame okpx pf ->
  (forall i ts px book w r w' book',
     index pf !! i = Some ts -> okpx px ->
     J i book (_cash w) (_position w) ->
     trade_row self book ts px (flag_on (index sg) bcol ts)
       (flag_on (index sg) scol ts) w = (r, w') ->
     r = Ok book' ->
     J (S i) book' (_cash w') (_position w')) ->
  J 0%nat [] (initial_cash self) 0%Z ->
  fst (run self p s w) = Ok (trades, pnl, sm) ->
  (exists c n, J (length (index pf)) trades c n) /\
  exists fr, _build_summary self trades fr = Ok sm.
Proof.
  intros Hp Hs Hb Hsl Hpr Hstep H0 H. unfold run in H.
  apply bind_Ok in H as (df & w1 & Hprep & H).
  destruct (prepare_state self p s w pf sg bcol scol df w1 Hp Hs Hb Hsl Hprep)
    as (Hc & Hn & D & HD & Hal & Hclose & _).
  rewrite (bind_step _ _ _ _ _ (read_holds w1 df D HD)) in H.
  apply bind_Ok in H as (book & w2 & Hloop & H).
  apply finish_summary in H as [-> Hsum].
  split; [|exact Hsum].
  exists (_cash w2), (_position w2).
  assert (Hlen : length (index D) = length (index pf)).
  { destruct Hal as [-> _]. reflexivity. }
  rewrite Hlen in Hloop.
  apply (rows_loop_keeps self df (index pf) _ _ okpx J Hstep
           (length (index pf)) 0%nat [] w1 D book w2 HD Hal).
  - unfold priced_frame in *. rewrite Hclose. exact Hpr.
  - rewrite Hc, Hn. exact H0.
  - exact Hloop.
Qed.

Lemma priced_any (pf : DataFrame) : priced_frame (fun _ => True) pf.
Proof.
  unfold priced_frame. destruct (column pf "close"); [|exact I].
  apply Forall_forall. auto.
Qed.

Lemma build_summary_trades self trades fr sm :
  _build_summary self trades fr = Ok sm ->
  Trades sm = length trades /\
  Win_Ratio sm = match win_ratio trades with
                 | Some r => Some (Py.round r 2)
                 | None => None
                 end.
Proof.
  unfold _build_summary.
  match goal with
  | |- match ?f with _ => _ end = _ -> _ => destruct f as [nav|e]
  end; [|discriminate].
  destruct (Qeq_bool (initial_cash self) 0); [discriminate|].
  intros E. injection E as <-. split; reflexivity.
Qed.

(** The book alternates, its dates follow the price index, and the
    position is open exactly after a BUY. *)
Lemma run_alternates self p s w pf sg bcol scol trades pnl sm :
  holds w p pf -> holds w s sg ->
  column sg "buy" = Ok bcol -> column sg "sell" = Ok scol ->
  fst (run self p s w) = Ok (trades, pnl, sm) ->
  alternates BUY (map f_type trades) = true /\
  sublist (map f_date trades) (index pf) /\
  exists fr, _build_summary self trades fr = Ok sm.
Proof.
  intros Hp Hs Hb Hsl Hrun.
  set (J := fun (i : nat) (book : list Fill) (c : Q) (n : Z) =>
    alternates BUY (map f_type book) = true /\
    (n <> 0%Z <-> last (map f_type book) = Some BUY) /\
    sublist (map f_date book) (take i (index pf))).
  destruct (run_keeps (fun _ => True) J self p s w pf sg bcol scol
              trades pnl sm Hp Hs Hb Hsl (priced_any pf))
    as [(c & n & HJ) Hsum]; [| |exact Hrun|]; [| |destruct HJ as (Halt & _ & Hsub)].
  - unfold J.
    intros i ts px book w0 r w1 book' Hts _ (Halt & Hpos & Hsub) Erow ->.
    rewrite (take_S_r _ _ _ Hts).
    destruct (trade_row_cases _ _ _ _ _ _ _ _ _ Erow) as [_ Hc].
    destruct (Hc book' eq_refl)
      as [[-> ->]|[(_ & Hflat & _ & Hq & Hn & _ & ->)
                  |(_ & Hlong & Hn & _ & ->)]].
    + split; [exact Halt|]. split; [exact Hpos|].
      by apply sublist_inserts_r.
    + rewrite !map_app. simpl. split; [|split].
      * rewrite alternates_snoc, Halt.
        destruct (last (map f_type book)) as [[|]|] eqn:El; try reflexivity.
        exfalso. exact (proj2 Hpos eq_refl Hflat).
      * rewrite last_snoc, Hn. split; [reflexivity | intros _; exact Hq].
      * by apply sublist_app.
    + rewrite !map_app. simpl. split; [|split].
      * rewrite alternates_snoc, Halt.
        assert (El : last (map f_type book) = Some BUY) by (apply Hpos; lia).
        rewrite El. reflexivity.
      * rewrite last_snoc, Hn. split; [congruence | discriminate].
      * by apply sublist_app.
  - unfold J. repeat split; simpl; try discriminate; try congruence.
    apply sublist_nil_l.
  - unfold J in *. split; [exact Halt|]. split; [|exact Hsum].
    rewrite take_ge in Hsub by lia. exact Hsub.
Qed.

(** X16.  In the single-instrument engine the trades of a run alternate
    BUY, SELL, BUY, ... from BUY, every row of the price frame carries at
    most one trade (the trade dates are a subsequence of the price index),
    and the summary counts exactly these trades. *)
Theorem single_engine_trades_alternate (self : Backtester) (p s : loc)
    (w : World) (pf sg : DataFrame) (bcol scol : list cell)
    (trades : list Fill) (pnl : loc) (sm : Summary) :
  holds w p pf -> holds w s sg ->
  column sg "buy" = Ok bcol -> column sg "sell" = Ok scol ->
  fst (run self p s w) = Ok (trades, pnl, sm) ->
  alternates BUY (map f_type trades) = true /\
  sublist (map f_date trades) (index pf) /\
  Trades sm = length trades.
Proof.
  intros Hp Hs Hb Hsl Hrun.
  destruct (run_alternates self p s w pf sg bcol scol trades pnl sm
              Hp Hs Hb Hsl Hrun) as (Halt & Hsub & fr & Hsum).
  split; [exact Halt|]. split; [exact Hsub|].
  apply (build_summary_trades self trades fr sm Hsum).
Qed.

Lemma single_engine_trades_alternate_witness :
  alternates BUY (map f_type two_day_trades) = true /\
  sublist (map f_date two_day_trades) (index prices_two_days) /\
  2%nat = length two_day_trades.
Proof.
  eapply (single_engine_trades_alternate bt_plain 1%positive 2%positive
            (world_of prices_two_days signals_day_one)
            prices_two_days signals_day_one [VBool true] [VBool true]
            two_day_trades _
            {| Initial_Cash := 1000; Final_NAV := Py.round 1100 2;
               Total_Return := Py.round ((1100 / 1000 - 1) * 100) 2;
               Trades := 2; Win_Ratio := Some (Py.round (1 # 2) 2) |}).
  - reflexivity.
  - reflexivity.
  - reflexivity.
  - reflexivity.
  - vm_compute. reflexivity.
Defined.

(** *** Rounding *)

Lemma round_half_even_cases (x : Q) :
  Py.round_half_even x = Qfloor x \/
  (Py.round_half_even x = (Qfloor x + 1)%Z /\
   (1 # 2 <= x - inject_Z (Qfloor x))%Q).
Proof.
  unfold Py.round_half_even.
  destruct (Qcompare (x - inject_Z (Qfloor x)) (1 # 2)) eqn:E.
  - destruct (Z.even (Qfloor x)); [by left|]. right.
    split; [reflexivity|]. apply Qeq_alt in E. rewrite E. apply Qle_refl.
  - by left.
  - right. split; [reflexivity|]. apply Qgt_alt in E.
    by apply Qlt_le_weak.
Qed.

Lemma round_half_even_le (x : Q) (m : Z) :
  (x <= inject_Z m)%Q -> (Py.round_half_even x <= m)%Z.
Proof.
  intros Hx. pose proof (Qfloor_le x) as Hf.
  destruct (round_half_even_cases x) as [->|[-> Hr]].
  - rewrite Zle_Qle. lra.
  - assert (H : (inject_Z (Qfloor x) < inject_Z m)%Q) by lra.
    rewrite <- Zlt_Qlt in H. lia.
Qed.

Lemma round_half_even_ge (x : Q) (m : Z) :
  (inject_Z m <= x)%Q -> (m <= Py.round_half_even x)%Z.
Proof.
  intros Hx.
  assert (Hm : (m <= Qfloor x)%Z).
  { rewrite <- (Qfloor_Z m). by apply Qfloor_resp_le. }
  destruct (round_half_even_cases x) as [->|[-> _]]; lia.
Qed.

Lemma scale_pos (n : nat) : (0 < inject_Z (10 ^ Z.of_nat n))%Q.
Proof.
  change 0%Q with (inject_Z 0). rewrite <- Zlt_Qlt.
  apply Z.pow_pos_nonneg; lia.
Qed.

(** Rounding keeps a number between two multiples of the step. *)
Lemma round_between (x : Q) (n : nat) (a b : Z) :
  (inject_Z a <= x * inject_Z (10 ^ Z.of_nat n))%Q ->
  (x * inject_Z (10 ^ Z.of_nat n) <= inject_Z b)%Q ->
  (inject_Z a / inject_Z (10 ^ Z.of_nat n) <= Py.round x n)%Q /\
  (Py.round x n <= inject_Z b / inject_Z (10 ^ Z.of_nat n))%Q.
Proof.
  intros Ha Hb. unfold Py.round.
  pose proof (scale_pos n) as Hk.
  apply round_half_even_ge in Ha. apply round_half_even_le in Hb.
  rewrite Zle_Qle in Ha, Hb.
  split; apply Qmult_le_compat_r; try assumption;
    apply Qlt_le_weak, Qinv_lt_0_compat, Hk.
Qed.

Lemma round_nonneg (x : Q) (n : nat) : (0 <= x)%Q -> (0 <= Py.round x n)%Q.
Proof.
  intros Hx. pose proof (scale_pos n) as Hk.
  assert (Ha : (inject_Z 0 <= x * inject_Z (10 ^ Z.of_nat n))%Q).
  { change (inject_Z 0) with 0%Q. apply Qmult_le_0_compat; lra. }
  unfold Py.round. apply round_half_even_ge in Ha. rewrite Zle_Qle in Ha.
  change (inject_Z 0) with 0%Q in Ha.
  apply Qle_shift_div_l; [exact Hk|]. rewrite Qmult_0_l. exact Ha.
Qed.

Lemma round_zero (x : Q) (n : nat) : (x == 0)%Q -> (Py.round x n == 0)%Q.
Proof.
  intros Hx. pose proof (scale_pos n) as Hk.
  assert (Ha : (inject_Z 0 <= x * inject_Z (10 ^ Z.of_nat n))%Q).
  { rewrite Hx. change (inject_Z 0) with 0%Q. lra. }
  assert (Hb : (x * inject_Z (10 ^ Z.of_nat n) <= inject_Z 0)%Q).
  { rewrite Hx. change (inject_Z 0) with 0%Q. lra. }
  destruct (round_between x n 0 0 Ha Hb) as [H1 H2].
  change (inject_Z 0 / inject_Z (10 ^ Z.of_nat n))%Q
    with (0 / inject_Z (10 ^ Z.of_nat n))%Q in H1, H2.
  assert (Hz : (0 / inject_Z (10 ^ Z.of_nat n) == 0)%Q)
    by (unfold Qdiv; ring).
  rewrite Hz in H1, H2. by apply Qle_antisym.
Qed.

(** *** The win ratio of a run *)

Lemma winning_le_sells (trades : list Fill) :
  forall prev, (winning_sells prev trades <= sells trades)%nat.
Proof.
  unfold sells.
  induction trades as [|t trades IH]; intros prev; simpl; [lia|].
  specialize (IH (Some (f_price t))).
  destruct (side_eqb (f_type t) SELL); simpl; [|exact IH].
  destruct (match prev with Some p => Qltb p (f_price t) | None => false end);
    lia.
Qed.

(** In a book that alternates, at most every second record is a SELL. *)
Lemma alternates_sells (trades : list Fill) :
  forall e, alternates e (map f_type trades) = true ->
    (2 * sells trades
     <= length trades + (if side_eqb e SELL then 1 else 0))%nat.
Proof.
  unfold sells.
  induction trades as [|t trades IH]; intros e; simpl; [lia|].
  intros H. apply andb_true_iff in H as [He H].
  specialize (IH _ H).
  destruct e, (f_type t); simpl in *; try discriminate; lia.
Qed.

(** X17.  The win ratio a run of the single-instrument engine reports is
    blank exactly when the run made no trade, and otherwise lies between
    0 and 0.5: the mean is taken over all records and at most every
    second record is a SELL. *)
Theorem run_win_ratio_at_most_half (self : Backtester) (p s : loc)
    (w : World) (pf sg : DataFrame) (bcol scol : list cell)
    (trades : list Fill) (pnl : loc) (sm : Summary) :
  holds w p pf -> holds w s sg ->
  column sg "buy" = Ok bcol -> column sg "sell" = Ok scol ->
  fst (run self p s w) = Ok (trades, pnl, sm) ->
  match Win_Ratio sm with
  | None => trades = []
  | Some r => trades <> [] /\ (0 <= r)%Q /\ (r <= 1 # 2)%Q
  end.
Proof.
  intros Hp Hs Hb Hsl Hrun.
  destruct (run_alternates self p s w pf sg bcol scol trades pnl sm
              Hp Hs Hb Hsl Hrun) as (Halt & _ & fr & Hsum).
  destruct (build_summary_trades self trades fr sm Hsum) as [_ ->].
  destruct trades as [|t trades]; [reflexivity|].
  rewrite SummaryFacts.win_ratio_eq by discriminate.
  split; [discriminate|].
  set (l := t :: trades) in *.
  pose proof (winning_le_sells l None) as Hw.
  pose proof (alternates_sells l BUY Halt) as Ha.
  change (if side_eqb BUY SELL then 1 else 0)%nat with 0%nat in Ha.
  set (W := winning_sells None l) in *.
  set (L := length l) in *.
  assert (HL : (0 < L)%nat) by (subst L l; simpl; lia).
  assert (HLq : (0 < inject_Z (Z.of_nat L))%Q).
  { change 0%Q with (inject_Z 0). rewrite <- Zlt_Qlt. lia. }
  assert (HWq : (0 <= inject_Z (Z.of_nat W))%Q).
  { change 0%Q with (inject_Z 0). rewrite <- Zle_Qle. lia. }
  assert (H2 : (2 * inject_Z (Z.of_nat W) <= inject_Z (Z.of_nat L))%Q).
  { change 2%Q with (inject_Z 2). rewrite <- inject_Z_mult, <- Zle_Qle. lia. }
  set (r := (inject_Z (Z.of_nat W) / inject_Z (Z.of_nat L))%Q).
  assert (Hr0 : (0 <= r)%Q).
  { apply Qle_shift_div_l; [exact HLq | lra]. }
  assert (Hr1 : (r <= 1 # 2)%Q).
  { apply Qle_shift_div_r; [exact HLq | lra]. }
  split; [by apply round_nonneg|].
  assert (Hb50 : (r * inject_Z (10 ^ Z.of_nat 2) <= inject_Z 50)%Q).
  { change (inject_Z (10 ^ Z.of_nat 2)) with 100%Q.
    change (inject_Z 50) with 50%Q. lra. }
  assert (Ha0 : (inject_Z 0 <= r * inject_Z (10 ^ Z.of_nat 2))%Q).
  { change (inject_Z (10 ^ Z.of_nat 2)) with 100%Q.
    change (inject_Z 0) with 0%Q. lra. }
  destruct (round_between r 2 0 50 Ha0 Hb50) as [_ H].
  eapply Qle_trans; [exact H|]. vm_compute. discriminate.
Qed.

Lemma run_win_ratio_at_most_half_witness :
  two_day_trades <> [] /\
  (0 <= Py.round (1 # 2) 2)%Q /\ (Py.round (1 # 2) 2 <= 1 # 2)%Q.
Proof.
  eapply (run_win_ratio_at_most_half bt_plain 1%positive 2%positive
            (world_of prices_two_days signals_day_one)
            prices_two_days signals_day_one [VBool true] [VBool true]
            two_day_trades _
            {| Initial_Cash := 1000; Final_NAV := Py.round 1100 2;
               Total_Return := Py.round ((1100 / 1000 - 1) * 100) 2;
               Trades := 2; Win_Ratio := Some (Py.round (1 # 2) 2) |}).
  - reflexivity.
  - reflexivity.
  - reflexivity.
  - reflexivity.
  - vm_compute. reflexivity.
Defined.

(** *** Cash without a fee *)






(** *** What one row does *)



(** *** Runs that stop early *)

(** X14.  A price frame whose index is not of a datetime type makes [run]
    raise [ValueError] before anything is copied or set: the store and
    the live state of the engine are as they were. *)
Theorem undated_prices_rejected (self : Backtester) (p s : loc) (w : World)
    (pf : DataFrame) :
  holds w p pf -> index_is_datetime pf = false ->
  run self p s w = (Raise ValueError, w).
Proof.
  intros Hp Hdt. unfold run, bind.
  rewrite (prepare_undated self p s w pf Hp Hdt). reflexivity.
Qed.

Lemma undated_prices_rejected_witness :
  run bt_plain 1%positive 2%positive
    (world_of prices_not_dated signals_day_one)
  = (Raise ValueError, world_of prices_not_dated signals_day_one).
Proof.
  apply (undated_prices_rejected bt_plain 1%positive 2%positive
           (world_of prices_not_dated signals_day_one) prices_not_dated).
  - reflexivity.
  - reflexivity.
Defined.

Lemma column_missing (sg : DataFrame) (idx : list Z) (dt : bool)
    (name : string) :
  dict_get (columns sg) name = None ->
  column (fillna_false (reindex_ffill sg idx dt)) name
  = Raise (KeyError name).
Proof.
  intros E. unfold column. simpl.
  rewrite (dict_get_map (map fill_false)).
  rewrite (dict_get_map (fun c => map (ffill_at (zip (index sg) c)) idx)).
  rewrite E. reflexivity.
Qed.

(** X15.  When the signal frame lacks the buy column, or has it but lacks
    the sell column, [run] raises [KeyError] for the first missing one,
    and the live cash and position of the engine are not yet reset. *)
Theorem missing_signal_column (self : Backtester) (p s : loc) (w : World)
    (pf sg : DataFrame) :
  holds w p pf -> holds w s sg ->
  index_is_datetime pf = true ->
  dict_get (columns sg) "buy" = None \/
  dict_get (columns sg) "sell" = None ->
  fst (run self p s w)
  = Raise (KeyError (match dict_get (columns sg) "buy" with
                     | None => "buy"
                     | Some _ => "sell"
                     end)) /\
  _cash (snd (run self p s w)) = _cash w /\
  _position (snd (run self p s w)) = _position w.
Proof.
  unfold holds. intros Hp Hs Hdt Hmiss.
  assert (E : exists w', prepare self p s w
    = (Raise (KeyError (match dict_get (columns sg) "buy" with
                        | None => "buy"
                        | Some _ => "sell"
                        end)), w') /\
    _cash w' = _cash w /\ _position w' = _position w).
  { unfold prepare.
    rewrite (bind_step _ _ _ _ _ (read_holds w p pf Hp)).
    destruct (negb (index_is_datetime pf)) eqn:En;
      [rewrite Hdt in En; discriminate|].
    rewrite (bind_step (alloc pf) _ w _ _ eq_refl).
    set (df0 := fresh (dom (heap w))).
    set (w1 := set_heap (<[df0 := pf]> (heap w)) w).
    assert (H1s : heap w1 !! s = Some sg).
    { simpl. rewrite lookup_insert_ne;
        [exact Hs | by apply (fresh_ne w s sg)]. }
    assert (H1d : heap w1 !! df0 = Some pf)
      by (simpl; apply lookup_insert_eq).
    rewrite (bind_step _ _ _ _ _ (read_holds w1 s sg H1s)).
    rewrite (bind_step (alloc _) _ w1 _ _ eq_refl).
    set (l2 := fresh (dom (heap w1))).
    set (R := reindex_ffill sg (index pf) (index_is_datetime pf)).
    set (w2 := set_heap (<[l2 := R]> (heap w1)) w1).
    assert (H2l : heap w2 !! l2 = Some R) by (simpl; apply lookup_insert_eq).
    assert (H2d : heap w2 !! df0 = Some pf).
    { simpl heap at 1. rewrite lookup_insert_ne;
        [exact H1d | by apply (fresh_ne w1 df0 pf)]. }
    rewrite (bind_step _ _ _ _ _ (read_holds w2 l2 R H2l)).
    rewrite (bind_step (alloc _) _ w2 _ _ eq_refl).
    set (l3 := fresh (dom (heap w2))).
    set (w3 := set_heap (<[l3 := fillna_false R]> (heap w2)) w2).
    assert (H3l : heap w3 !! l3 = Some (fillna_false R))
      by (simpl; apply lookup_insert_eq).
    assert (H3d : heap w3 !! df0 = Some pf).
    { simpl heap at 1. rewrite lookup_insert_ne;
        [exact H2d | by apply (fresh_ne w2 df0 pf)]. }
    rewrite (bind_step _ _ _ _ _ (read_holds w3 l3 _ H3l)).
    subst R.
    destruct (dict_get (columns sg) "buy") as [bcol|] eqn:Eb.
    - destruct Hmiss as [Hmiss|Hmiss]; [discriminate|].
      assert (Hb : column sg "buy" = Ok bcol)
        by (unfold column; rewrite Eb; reflexivity).
      rewrite (column_aligned sg (index pf) _ "buy" bcol Hb).
      rewrite (bind_step (lift (Ok _)) _ w3 _ _ eq_refl).
      rewrite (bind_step _ _ _ _ _ (update_holds w3 df0 pf _ H3d)).
      rewrite (column_missing sg (index pf) _ "sell" Hmiss).
      eexists. split; [reflexivity|]. split; reflexivity.
    - rewrite (column_missing sg (index pf) _ "buy" Eb).
      eexists. split; [reflexivity|]. split; reflexivity. }
  destruct E as (w' & E & Hc & Hn).
  unfold run, bind. rewrite E. simpl. auto.
Qed.

Lemma missing_signal_column_witness :
  fst (run bt_plain 1%positive 2%positive
         (world_of prices_two_days signals_no_buy))
  = Raise (KeyError "buy") /\
  _cash (snd (run bt_plain 1%positive 2%positive
                (world_of prices_two_days signals_no_buy)))
  = _cash (world_of prices_two_days signals_no_buy) /\
  _position (snd (run bt_plain 1%positive 2%positive
                    (world_of prices_two_days signals_no_buy)))
  = _position (world_of prices_two_days signals_no_buy).
Proof.
  apply (missing_signal_column bt_plain 1%positive 2%positive
           (world_of prices_two_days signals_no_buy)
           prices_two_days signals_no_buy).
  - reflexivity.
  - reflexivity.
  - reflexivity.
  - left. reflexivity.
Defined.

End BacktesterExtras.

(** ** The equity curve and the final value *)

Module EquityExtras.
Import backtester BtSpec BtExamples BtMore BtEquity ReplaySpec Spec.
Import PyFacts AlignFacts SignalFacts LedgerFacts BacktesterExtras.

(** One row of the loop: the price read and the equity written. *)
Lemma row_body_frame self df book i w D book' w' :
  heap w !! df = Some D ->
  row_body self df book i w = (Ok book', w') ->
  exists ts c px,
    index D !! i = Some ts /\ cell_at D "close" i = Ok c /\
    _scalar c = Ok px /\
    heap w' !! df = Some (with_at ts "equity" (VNum (equity w' px)) D).
Proof.
  intros HD E. unfold row_body in E.
  rewrite (bind_step _ _ _ _ _ (read_holds w df D HD)) in E.
  destruct (index D !! i) as [ts|] eqn:Ets; [|discriminate].
  unfold bind at 1, lift at 1 in E.
  destruct (cell_at D "close" i) as [c|e] eqn:Ec; [|discriminate].
  unfold bind at 1, lift at 1 in E.
  destruct (_scalar c) as [px|e] eqn:Epx; [|discriminate].
  unfold bind at 1, lift at 1 in E.
  destruct (cell_at D "buy" i) as [b|e] eqn:Eb; [|discriminate].
  unfold bind at 1, lift at 1 in E.
  destruct (cell_at D "sell" i) as [sl|e] eqn:Es; [|discriminate].
  unfold bind at 1 in E.
  destruct (trade_row self book ts px (truthy b) (truthy sl) w)
    as [[book1|e] w1] eqn:Erow; [|discriminate].
  destruct (trade_row_cases _ _ _ _ _ _ _ _ _ Erow) as [Hh _].
  rewrite (bind_step get _ w1 _ _ eq_refl) in E.
  assert (HD1 : heap w1 !! df = Some D) by (rewrite Hh; exact HD).
  rewrite (bind_step _ _ _ _ _ (update_holds w1 df D _ HD1)) in E.
  injection E as <- <-. exists ts, c, px.
  split; [reflexivity|]. split; [reflexivity|]. split; [exact Epx|].
  simpl. apply lookup_insert_eq.
Qed.

Lemma with_at_index ts name v D : index (with_at ts name v D) = index D.
Proof. unfold with_at. by destruct (dict_get (columns D) name). Qed.

Lemma with_at_close ts v D :
  column (with_at ts "equity" v D) "close" = column D "close".
Proof.
  unfold with_at. destruct (dict_get (columns D) "equity"); [|reflexivity].
  unfold column, with_column. simpl.
  rewrite dict_get_set_ne by discriminate. reflexivity.
Qed.

Lemma marked_step i D w w' ts c px :
  index D !! i = Some ts -> cell_at D "close" i = Ok c ->
  _scalar c = Ok px -> marked i D w ->
  marked (S i) (with_at ts "equity" (VNum (equity w' px)) D) w'.
Proof.
  intros Hts Hc Hpx (col & Hcol & Hlen & Hfill & _).
  assert (Hget : dict_get (columns D) "equity" = Some col).
  { unfold column in Hcol.
    destruct (dict_get (columns D) "equity"); [congruence | discriminate]. }
  set (v := VNum (equity w' px)).
  exists (zip_with (fun t c0 => if (t =? ts)%Z then v else c0) (index D) col).
  split; [|split; [|split]].
  - unfold with_at. rewrite Hget. unfold column, with_column. simpl.
    rewrite dict_get_set_eq. reflexivity.
  - rewrite with_at_index. apply length_zip_with_l_eq. congruence.
  - intros j Hj. rewrite lookup_zip_with.
    destruct (index D !! j) as [t|] eqn:Et.
    + simpl. destruct (Nat.eq_dec j i) as [->|Hne].
      * assert (Hi : is_Some (col !! i)).
        { apply lookup_lt_is_Some. rewrite Hlen.
          apply lookup_lt_is_Some. by eexists. }
        destruct Hi as [c0 ->]. simpl.
        rewrite Hts in Et. injection Et as <-.
        rewrite Z.eqb_refl. by eexists.
      * destruct (Hfill j ltac:(lia)) as [q ->]. simpl.
        destruct (t =? ts)%Z; by eexists.
    + exfalso. apply lookup_ge_None in Et.
      assert (i < length (index D))%nat
        by (apply lookup_lt_is_Some; by eexists). lia.
  - intros j Hj. injection Hj as <-. exists c, px.
    split; [|split; [exact Hpx|]].
    + unfold cell_at. rewrite with_at_close. exact Hc.
    + rewrite lookup_zip_with, Hts. simpl.
      assert (Hi : is_Some (col !! i)).
      { apply lookup_lt_is_Some. rewrite Hlen.
        apply lookup_lt_is_Some. by eexists. }
      destruct Hi as [c0 ->]. simpl. rewrite Z.eqb_refl. reflexivity.
Qed.

Lemma rows_loop_marked self df (n : nat) :
  forall a book w D book' w',
    heap w !! df = Some D -> marked a D w ->
    rows_loop self df (seq a n) book w = (Ok book', w') ->
    exists D', heap w' !! df = Some D' /\ index D' = index D /\
               column D' "close" = column D "close" /\
               marked (a + n) D' w'.
Proof.
  induction n as [|n IH]; intros a book w D book' w' HD Hm E; simpl in E.
  - injection E as <- <-. rewrite Nat.add_0_r. by exists D.
  - unfold bind in E.
    destruct (row_body self df book a w) as [[book1|e] w1] eqn:Erow;
      [|discriminate].
    destruct (row_body_frame self df book a w D book1 w1 HD Erow)
      as (ts & c & px & Hts & Hc & Hpx & HD1).
    pose proof (marked_step a D w w1 ts c px Hts Hc Hpx Hm) as Hm1.
    destruct (IH (S a) book1 w1 _ book' w' HD1 Hm1 E)
      as (D' & HD' & Hidx & Hcl & Hm').
    exists D'. split; [exact HD'|].
    rewrite Hidx, Hcl, with_at_index, with_at_close.
    rewrite <- Nat.add_succ_comm. auto.
Qed.

(** The last part of [run], executed. *)
Lemma finish_exec self df book w D :
  heap w !! df = Some D ->
  exists pnl w',
    finish self df book w
    = (match _build_summary self book (only_equity (ffill_equity D)) with
       | Ok sm => Ok (book, pnl, sm)
       | Raise e => Raise e
       end, w') /\
    heap w' !! pnl = Some (only_equity (ffill_equity D)) /\
    _cash w' = _cash w /\ _position w' = _position w.
Proof.
  intros HD. unfold finish.
  rewrite (bind_step _ _ _ _ _ (read_holds w df D HD)).
  rewrite (bind_step (alloc D) _ w _ _ eq_refl).
  set (l1 := fresh (dom (heap w))).
  set (w1 := set_heap (<[l1 := D]> (heap w)) w).
  assert (H1 : heap w1 !! l1 = Some D) by (simpl; apply lookup_insert_eq).
  rewrite (bind_step _ _ _ _ _ (update_holds w1 l1 D _ H1)).
  set (w2 := set_heap _ w1).
  assert (H2 : heap w2 !! l1 = Some (ffill_equity D))
    by (simpl; apply lookup_insert_eq).
  rewrite (bind_step _ _ _ _ _ (read_holds w2 l1 _ H2)).
  rewrite (bind_step (alloc _) _ w2 _ _ eq_refl).
  set (l2 := fresh (dom (heap w2))).
  set (w3 := set_heap _ w2).
  assert (H3 : heap w3 !! l2 = Some (only_equity (ffill_equity D)))
    by (simpl; apply lookup_insert_eq).
  rewrite (bind_step _ _ _ _ _ (read_holds w3 l2 _ H3)).
  exists l2, w3. split; [|split; [exact H3 | split; reflexivity]].
  unfold bind, lift, ret.
  by destruct (_build_summary self book (only_equity (ffill_equity D))).
Qed.

(** [run], taken apart: the frame after the loop, the equity frame
    handed back and the summary made from it. *)
Lemma run_parts self p s w pf sg bcol scol trades pnl sm :
  holds w p pf -> holds w s sg ->
  column sg "buy" = Ok bcol -> column sg "sell" = Ok scol ->
  fst (run self p s w) = Ok (trades, pnl, sm) ->
  exists D w2,
    index D = index pf /\ column D "close" = column pf "close" /\
    marked (length (index pf)) D w2 /\
    _build_summary self trades (only_equity (ffill_equity D)) = Ok sm /\
    heap (snd (run self p s w)) !! pnl
    = Some (only_equity (ffill_equity D)) /\
    _cash (snd (run self p s w)) = _cash w2 /\
    _position (snd (run self p s w)) = _position w2.
Proof.
  intros Hp Hs Hb Hsl H. unfold run in *.
  destruct (prepare self p s w) as [[df|e] w1] eqn:Hprep;
    [|unfold bind in H; rewrite Hprep in H; discriminate].
  destruct (prepare_state self p s w pf sg bcol scol df w1 Hp Hs Hb Hsl Hprep)
    as (_ & _ & D & HD & Hal & Hclose & Heq).
  rewrite (bind_step _ _ _ _ _ Hprep) in *.
  rewrite (bind_step _ _ _ _ _ (read_holds w1 df D HD)) in *.
  assert (Hidx : index D = index pf) by (destruct Hal as [-> _]; reflexivity).
  rewrite Hidx in *.
  destruct (rows_loop self df (seq 0 (length (index pf))) [] w1)
    as [[book|e] w2] eqn:Hloop;
    [|unfold bind in H; rewrite Hloop in H; discriminate].
  rewrite (bind_step _ _ _ _ _ Hloop) in *.
  assert (Hm0 : marked 0 D w1).
  { exists (map (fun _ => VNaN) (index pf)).
    split; [exact Heq|]. split; [rewrite Hidx; apply length_map|].
    split; [intros j Hj; lia | intros j Hj; discriminate]. }
  destruct (rows_loop_marked self df _ 0%nat [] w1 D book w2 HD Hm0 Hloop)
    as (D' & HD' & Hidx' & Hcl' & Hm').
  destruct (finish_exec self df book w2 D' HD')
    as (l & w3 & Efin & Hpnl & Hc3 & Hn3).
  rewrite Efin in *. simpl snd. simpl fst in H.
  destruct (_build_summary self book (only_equity (ffill_equity D')))
    as [sm'|e] eqn:Esum; [|discriminate].
  injection H as <- <- <-.
  exists D', w2. rewrite Hidx', Hcl', Hidx. simpl in Hm'.
  repeat split; auto.
Qed.

Lemma dict_get_filter_name {V} (d : dict V) (k : string) :
  dict_get (List.filter (fun kc : string * V => String.eqb (fst kc) k) d) k
  = dict_get d k.
Proof.
  induction d as [|[k' v] d IH]; simpl; [reflexivity|].
  rewrite (String.eqb_sym k' k).
  destruct (String.eqb k k') eqn:E; simpl; [rewrite E; reflexivity|exact IH].
Qed.

Lemma ffill_from_length (col : list cell) :
  forall prev, length (ffill_from prev col) = length col.
Proof.
  induction col as [|c col IH]; intros prev; simpl; [reflexivity|].
  destruct c; simpl; by rewrite IH.
Qed.

(** Forward filling leaves the numbers where they are. *)
Lemma ffill_from_lookup (col : list cell) :
  forall prev j q, col !! j = Some (VNum q) ->
                   ffill_from prev col !! j = Some (VNum q).
Proof.
  induction col as [|c col IH]; intros prev j q H; [discriminate|].
  destruct j as [|j].
  - simpl in H. injection H as ->. reflexivity.
  - simpl in H. destruct c; simpl; by apply IH.
Qed.

Lemma ffill_equity_index D : index (ffill_equity D) = index D.
Proof. unfold ffill_equity. by destruct (dict_get (columns D) "equity"). Qed.

(** The equity column of the frame handed back. *)
Lemma pnl_column (D : DataFrame) (col : list cell) :
  column D "equity" = Ok col ->
  column (only_equity (ffill_equity D)) "equity"
  = Ok (ffill_from VNaN col).
Proof.
  intros Hcol.
  assert (Hget : dict_get (columns D) "equity" = Some col).
  { unfold column in Hcol.
    destruct (dict_get (columns D) "equity"); [congruence | discriminate]. }
  unfold column, only_equity. simpl.
  rewrite dict_get_filter_name. unfold ffill_equity. rewrite Hget.
  simpl. rewrite dict_get_set_eq. reflexivity.
Qed.




(** X21.  Over a price frame without [nan] closes, the equity frame a
    completed run hands back has the index of the price frame and a
    single column, equity, with a number in every row: no row is left
    unmarked. *)
Theorem equity_curve_returned (self : Backtester) (p s : loc)
    (w : World) (pf sg : DataFrame) (bcol scol : list cell)
    (prices : list Q) (trades : list Fill) (pnl : loc) (sm : Summary) :
  holds w p pf -> holds w s sg ->
  column sg "buy" = Ok bcol -> column sg "sell" = Ok scol ->
  numeric_closes pf prices ->
  fst (run self p s w) = Ok (trades, pnl, sm) ->
  exists fr, heap (snd (run self p s w)) !! pnl = Some fr /\
             equity_curve (index pf) fr.
Proof.
  intros Hp Hs Hb Hsl _ Hrun.
  destruct (run_parts self p s w pf sg bcol scol trades pnl sm
              Hp Hs Hb Hsl Hrun)
    as (D & w2 & Hidx & _ & Hm & _ & Hpnl & _).
  eexists. split; [exact Hpnl|].
  destruct Hm as (col & Hcol & Hclen & Hfill & _).
  split; [|split].
  - simpl. rewrite ffill_equity_index. exact Hidx.
  - simpl. apply List.Forall_forall. intros kc Hin.
    apply filter_In in Hin as [_ Hin]. by apply String.eqb_eq.
  - exists (ffill_from VNaN col).
    split; [by apply pnl_column|].
    split; [rewrite ffill_from_length; congruence|].
    apply Forall_lookup. intros j x Hx.
    assert (Hj : (j < length (index pf))%nat).
    { rewrite <- Hidx, <- Hclen, <- (ffill_from_length col VNaN).
      apply lookup_lt_is_Some. by eexists. }
    destruct (Hfill j Hj) as [q Hq].
    rewrite (ffill_from_lookup col VNaN j q Hq) in Hx.
    injection Hx as <-. by eexists.
Qed.

Lemma equity_curve_returned_witness :
  exists fr,
    heap (snd (run bt_plain 1%positive 2%positive
                 (world_of prices_two_days signals_day_one)))
      !! (match fst (run bt_plain 1%positive 2%positive
                       (world_of prices_two_days signals_day_one)) with
          | Ok r => snd (fst r)
          | Raise _ => 1%positive
          end) = Some fr /\
    equity_curve (index prices_two_days) fr.
Proof.
  eapply (equity_curve_returned bt_plain 1%positive 2%positive
            (world_of prices_two_days signals_day_one)
            prices_two_days signals_day_one [VBool true] [VBool true]
            [100; 110]%Q two_day_trades _
            {| Initial_Cash := 1000; Final_NAV := Py.round 1100 2;
               Total_Return := Py.round ((1100 / 1000 - 1) * 100) 2;
               Trades := 2; Win_Ratio := Some (Py.round (1 # 2) 2) |}).
  - reflexivity.
  - reflexivity.
  - reflexivity.
  - reflexivity.
  - split; reflexivity.
  - vm_compute. reflexivity.
Defined.

(** X22.  Over a dated price frame without rows the run makes no trade:
    with a non-zero initial cash it returns an empty book and a summary
    with Final NAV = the initial cash rounded, a return of 0, no trades
    and a blank win ratio; with an initial cash of 0 it raises
    [ZeroDivisionError]. *)
Theorem run_without_rows (self : Backtester) (p s : loc) (w : World)
    (pf sg : DataFrame) (bcol scol : list cell) :
  holds w p pf -> holds w s sg ->
  column sg "buy" = Ok bcol -> column sg "sell" = Ok scol ->
  index_is_datetime pf = true -> index pf = [] ->
  if Qeq_bool (initial_cash self) 0
  then fst (run self p s w) = Raise ZeroDivisionError
  else exists pnl sm,
    fst (run self p s w) = Ok ([], pnl, sm) /\
    Final_NAV sm = Py.round (initial_cash self) 2 /\
    (Total_Return sm == 0)%Q /\
    Trades sm = 0%nat /\ Win_Ratio sm = None.
Proof.
  intros Hp Hs Hb Hsl Hdt Hemp.
  destruct (prepare_exec self p s w pf sg bcol scol Hp Hs Hb Hsl Hdt)
    as (df & w1 & Hprep & _ & _ & D & HD & Hal & _).
  assert (Hidx : index D = []) by (destruct Hal as [-> _]; exact Hemp).
  unfold run.
  rewrite (bind_step _ _ _ _ _ Hprep).
  rewrite (bind_step _ _ _ _ _ (read_holds w1 df D HD)).
  rewrite Hidx. simpl seq. simpl rows_loop.
  rewrite (bind_step (ret []) _ w1 _ _ eq_refl).
  destruct (finish_exec self df [] w1 D HD) as (l & w3 & Efin & _).
  rewrite Efin. simpl fst.
  unfold _build_summary.
  assert (Hi : index (only_equity (ffill_equity D)) = []).
  { simpl. rewrite ffill_equity_index. exact Hidx. }
  rewrite Hi.
  destruct (Qeq_bool (initial_cash self) 0) eqn:E0; [reflexivity|].
  eexists _, _. split; [reflexivity|]. simpl.
  split; [reflexivity|]. split; [|split; reflexivity].
  apply round_zero.
  assert (Hne : ~ (initial_cash self == 0)%Q).
  { intros H. apply Qeq_bool_iff in H. congruence. }
  field. exact Hne.
Qed.

Lemma run_without_rows_witness :
  exists pnl sm,
    fst (run bt_plain 1%positive 2%positive
           (world_of prices_no_rows signals_no_rows)) = Ok ([], pnl, sm) /\
    Final_NAV sm = Py.round (initial_cash bt_plain) 2 /\
    (Total_Return sm == 0)%Q /\
    Trades sm = 0%nat /\ Win_Ratio sm = None.
Proof.
  apply (run_without_rows bt_plain 1%positive 2%positive
           (world_of prices_no_rows signals_no_rows)
           prices_no_rows signals_no_rows [] []).
  - reflexivity.
  - reflexivity.
  - reflexivity.
  - reflexivity.
  - reflexivity.
  - reflexivity.
Defined.

End EquityExtras.

(** ** The decisions of the single-instrument run *)

Module SignalReplay.
Import backtester BtSpec BtExamples BtMore BtEquity ReplaySpec Spec.
Import PyFacts AlignFacts SignalFacts LedgerFacts BacktesterExtras.
Import EquityExtras.

(** A column triggers exactly where the aligned flag is true. *)
Lemma triggers_flag_on (idx : list Z) (col : list cell) (t : Z) :
  StronglySorted Z.lt idx ->
  triggers idx col t -> flag_on idx col t = true.
Proof.
  intros Hs (d & c & Hin & Hd & Hmax & Hnan & Htrue).
  unfold flag_on, ffill_at.
  rewrite (ffill_latest (zip idx col) t d c (zip_ascending idx col Hs)
             Hin Hd Hmax).
  simpl. destruct c; [exact Htrue | exact Htrue | contradiction].
Qed.

(** The decision of a row reads the live cash and position only. *)
Lemma trade_row_live self book ts px b sl (w v : World) :
  _cash v = _cash w -> _position v = _position w ->
  fst (trade_row self book ts px b sl v)
  = fst (trade_row self book ts px b sl w) /\
  _cash (snd (trade_row self book ts px b sl v))
  = _cash (snd (trade_row self book ts px b sl w)) /\
  _position (snd (trade_row self book ts px b sl v))
  = _position (snd (trade_row self book ts px b sl w)).
Proof.
  intros Hc Hn.
  unfold trade_row, _execute, bind, get, modify, ret, raise.
  rewrite Hc, Hn.
  destruct (b && (_position w =? 0)%Z).
  - destruct (Qeq_bool px 0); [auto|].
    destruct (negb (Qfloor (_cash w / px) =? 0)%Z); simpl; auto.
    rewrite Hc, Hn. auto.
  - destruct (sl && (0 <? _position w)%Z); simpl; auto.
    rewrite Hc, Hn. auto.
Qed.

(** One row of the loop is one decision, taken with the row's close and
    the aligned flags of its date. *)
Lemma row_body_decision self df idx fb fs prices book i w D book' w' :
  heap w !! df = Some D -> aligned_frame idx fb fs D ->
  column D "close" = Ok (map VNum prices) ->
  row_body self df book i w = (Ok book', w') ->
  exists ts px w1,
    idx !! i = Some ts /\ prices !! i = Some px /\
    trade_row self book ts px (fb ts) (fs ts) w = (Ok book', w1) /\
    _cash w' = _cash w1 /\ _position w' = _position w1 /\
    exists D', heap w' !! df = Some D' /\ aligned_frame idx fb fs D' /\
               column D' "close" = Ok (map VNum prices).
Proof.
  intros HD Hal Hcl E. unfold row_body in E.
  rewrite (bind_step _ _ _ _ _ (read_holds w df D HD)) in E.
  destruct (index D !! i) as [ts|] eqn:Ets; [|discriminate].
  destruct (cell_at_aligned idx fb fs D i ts Hal Ets) as [Hb Hs].
  assert (Hts : idx !! i = Some ts).
  { destruct Hal as [<- _]. exact Ets. }
  unfold bind at 1, lift at 1 in E.
  destruct (cell_at D "close" i) as [c|e] eqn:Ec; [|discriminate].
  assert (Hpx : exists px, prices !! i = Some px /\ c = VNum px).
  { unfold cell_at in Ec. rewrite Hcl in Ec.
    destruct (map VNum prices !! i) as [c0|] eqn:Ei; [|discriminate].
    injection Ec as ->.
    change (map VNum prices) with (VNum <$> prices) in Ei.
    rewrite list_lookup_fmap in Ei.
    destruct (prices !! i) as [px|]; [|discriminate].
    injection Ei as <-. eauto. }
  destruct Hpx as (px & Hpi & ->).
  unfold bind at 1, lift at 1 in E. simpl _scalar in E. cbv iota in E.
  rewrite Hb, Hs in E.
  rewrite (bind_step (lift (Ok _)) _ w _ _ eq_refl) in E.
  rewrite (bind_step (lift (Ok _)) _ w _ _ eq_refl) in E.
  simpl truthy in E.
  unfold bind at 1 in E.
  destruct (trade_row self book ts px (fb ts) (fs ts) w)
    as [[book1|e] w1] eqn:Erow; [|discriminate].
  destruct (trade_row_cases _ _ _ _ _ _ _ _ _ Erow) as [Hh _].
  rewrite (bind_step get _ w1 _ _ eq_refl) in E.
  assert (HD1 : heap w1 !! df = Some D) by (rewrite Hh; exact HD).
  rewrite (bind_step _ _ _ _ _ (update_holds w1 df D _ HD1)) in E.
  injection E as <- <-. exists ts, px, w1.
  split; [exact Hts|]. split; [exact Hpi|]. split; [exact Erow|].
  split; [reflexivity|]. split; [reflexivity|].
  eexists. split; [apply lookup_insert_eq|].
  split; [by apply aligned_with_at|].
  rewrite with_at_close. exact Hcl.
Qed.

Lemma rows_loop_decisions self df idx fb fs prices (n : nat) :
  forall a book w D book' w' v,
    heap w !! df = Some D -> aligned_frame idx fb fs D ->
    column D "close" = Ok (map VNum prices) ->
    _cash v = _cash w -> _position v = _position w ->
    rows_loop self df (seq a n) book w = (Ok book', w') ->
    fst (decisions self
           (take n (drop a (flagged_rows idx prices fb fs))) book v)
    = Ok book'.
Proof.
  induction n as [|n IH];
    intros a book w D book' w' v HD Hal Hcl Hc Hn E; simpl in E.
  - injection E as <- _. reflexivity.
  - unfold bind in E.
    destruct (row_body self df book a w) as [[book1|e] w1] eqn:Erow;
      [|discriminate].
    destruct (row_body_decision self df idx fb fs prices book a w D
                book1 w1 HD Hal Hcl Erow)
      as (ts & px & w0 & Hts & Hpx & Etr & Hc1 & Hn1 & D1 & HD1 & Hal1 & Hcl1).
    assert (Hrow : flagged_rows idx prices fb fs !! a
                   = Some (ts, px, fb ts, fs ts)).
    { unfold flagged_rows. rewrite lookup_zip_with, Hts. simpl.
      rewrite Hpx. reflexivity. }
    rewrite (drop_S _ _ _ Hrow). simpl take. simpl decisions.
    destruct (trade_row_live self book ts px (fb ts) (fs ts) w v Hc Hn)
      as (Hf & Hc' & Hn').
    rewrite Etr in Hf, Hc', Hn'. simpl in Hf, Hc', Hn'.
    unfold bind.
    destruct (trade_row self book ts px (fb ts) (fs ts) v)
      as [r v1] eqn:Ev. simpl in Hf, Hc', Hn'. subst r.
    apply (IH (S a) book1 w1 D1 book' w' v1 HD1 Hal1 Hcl1);
      [congruence | congruence | exact E].
Qed.

Lemma flagged_rows_ext (idx : list Z) (prices : list Q)
    (fb fs fb' fs' : Z -> bool) :
  (forall t, fb t = fb' t) -> (forall t, fs t = fs' t) ->
  flagged_rows idx prices fb fs = flagged_rows idx prices fb' fs'.
Proof.
  intros Hb Hs. unfold flagged_rows. revert prices.
  induction idx as [|t idx IH]; intros [|px prices]; simpl; try reflexivity.
  rewrite Hb, Hs, IH. reflexivity.
Qed.

(** C8, amended.  For every run of the single-instrument engine over an
    ascending signal index and a price frame without [nan] closes, the
    signal columns reach the loop forward-filled.  Each trade falls on a
    date where the buy or the sell column triggers: the latest signal row
    dated on or before it exists and carries a value that is not [nan]
    and is true.  And the trades of the run are exactly the decisions of
    the loop taken, row by row of the price frame, with these flags: a
    [nan] value counts as false, a date before the first signal row
    counts as false, and every other date missing from the signal frame
    takes the value of the latest earlier signal row. *)
Theorem trades_follow_filled_signals (self : Backtester) (p s : loc)
    (w : World) (pf sg : DataFrame) (bcol scol : list cell)
    (prices : list Q) (trades : list Fill) (pnl : loc) (sm : Summary) :
  holds w p pf -> holds w s sg ->
  StronglySorted Z.lt (index sg) ->
  column sg "buy" = Ok bcol -> column sg "sell" = Ok scol ->
  numeric_closes pf prices ->
  fst (run self p s w) = Ok (trades, pnl, sm) ->
  Forall (fun f => triggers (index sg) bcol (f_date f) \/
                   triggers (index sg) scol (f_date f)) trades /\
  forall fb fs : Z -> bool,
    (forall t, fb t = true <-> triggers (index sg) bcol t) ->
    (forall t, fs t = true <-> triggers (index sg) scol t) ->
    fst (decisions self (flagged_rows (index pf) prices fb fs) []
           (set_live (initial_cash self) 0 w))
    = Ok trades.
Proof.
  intros Hp Hs Hsorted Hb Hsl [Hcl Hlen] Hrun. split.
  - pose proof (run_flagged self p s w pf sg bcol scol trades pnl sm
                  Hp Hs Hb Hsl Hrun) as Hfl.
    unfold flagged in Hfl. eapply Forall_impl; [exact Hfl|].
    intros f Hf. simpl in Hf. apply orb_true_iff in Hf as [Hf|Hf];
      [left | right]; by apply flag_on_triggers.
  - intros fb fs Hfb Hfs.
    assert (Eb : forall t, fb t = flag_on (index sg) bcol t).
    { intros t. destruct (fb t) eqn:E1, (flag_on (index sg) bcol t) eqn:E2;
        try reflexivity.
      - apply Hfb, (triggers_flag_on _ _ _ Hsorted) in E1. congruence.
      - apply (flag_on_triggers _ _ _ Hsorted), Hfb in E2. congruence. }
    assert (Es : forall t, fs t = flag_on (index sg) scol t).
    { intros t. destruct (fs t) eqn:E1, (flag_on (index sg) scol t) eqn:E2;
        try reflexivity.
      - apply Hfs, (triggers_flag_on _ _ _ Hsorted) in E1. congruence.
      - apply (flag_on_triggers _ _ _ Hsorted), Hfs in E2. congruence. }
    rewrite (flagged_rows_ext _ _ _ _ _ _ Eb Es).
    unfold run in Hrun.
    apply bind_Ok in Hrun as (df & w1 & Hprep & H).
    destruct (prepare_state self p s w pf sg bcol scol df w1 Hp Hs Hb Hsl
                Hprep)
      as (Hc & Hn & D & HD & Hal & Hclose & _).
    rewrite (bind_step _ _ _ _ _ (read_holds w1 df D HD)) in H.
    apply bind_Ok in H as (book & w2 & Hloop & H).
    apply finish_summary in H as [-> _].
    assert (Hidx : index D = index pf) by (destruct Hal as [-> _]; reflexivity).
    rewrite Hidx in Hloop.
    pose proof (rows_loop_decisions self df (index pf) _ _ prices
                  (length (index pf)) 0%nat [] w1 D book w2
                  (set_live (initial_cash self) 0 w) HD Hal) as Hdec.
    rewrite drop_0 in Hdec.
    rewrite take_ge in Hdec.
    + apply Hdec; [rewrite Hclose; exact Hcl | | | exact Hloop].
      * simpl. by rewrite Hc.
      * simpl. by rewrite Hn.
    + unfold flagged_rows. rewrite length_zip_with. lia.
Qed.

Lemma trades_follow_filled_signals_witness :
  Forall (fun f => triggers [1%Z] [VBool true] (f_date f) \/
                   triggers [1%Z] [VBool true] (f_date f)) two_day_trades /\
  fst (decisions bt_plain
         (flagged_rows [1; 2]%Z [100; 110]%Q
            (flag_on [1%Z] [VBool true]) (flag_on [1%Z] [VBool true])) []
         (set_live (initial_cash bt_plain) 0
            (world_of prices_two_days signals_day_one)))
  = Ok two_day_trades.
Proof.
  assert (Hs : StronglySorted Z.lt [1%Z]) by repeat constructor.
  destruct (trades_follow_filled_signals bt_plain 1%positive 2%positive
              (world_of prices_two_days signals_day_one)
              prices_two_days signals_day_one [VBool true] [VBool true]
              [100; 110]%Q two_day_trades
              (snd (fst (match fst (run bt_plain 1%positive 2%positive
                           (world_of prices_two_days signals_day_one)) with
                         | Ok r => r
                         | Raise _ => ([], 1%positive,
                             {| Initial_Cash := 0; Final_NAV := 0;
                                Total_Return := 0; Trades := 0;
                                Win_Ratio := None |})
                         end)))
              {| Initial_Cash := 1000; Final_NAV := Py.round 1100 2;
                 Total_Return := Py.round ((1100 / 1000 - 1) * 100) 2;
                 Trades := 2; Win_Ratio := Some (Py.round (1 # 2) 2) |})
    as [H1 H2].
  - reflexivity.
  - reflexivity.
  - exact Hs.
  - reflexivity.
  - reflexivity.
  - split; reflexivity.
  - vm_compute. reflexivity.
  - split; [exact H1|]. apply H2.
    + intros t. split;
        [apply (flag_on_triggers _ _ _ Hs) | apply (triggers_flag_on _ _ _ Hs)].
    + intros t. split;
        [apply (flag_on_triggers _ _ _ Hs) | apply (triggers_flag_on _ _ _ Hs)].
Defined.

End SignalReplay.

(** ** The indicators and the signals of the strategy *)

Module StrategyFacts.
Import indicators rsi_ma_strategy StrategySpec.
Import PyFacts.

Lemma diff_after_length (series : Series) :
  forall prev, length (diff_after prev series) = length series.
Proof.
  induction series as [|x rest IH]; intros prev; simpl; [reflexivity|].
  by rewrite IH.
Qed.

Lemma lookup_map {A B} (f : A -> B) (l : list A) (i : nat) :
  map f l !! i = option_map f (l !! i).
Proof.
  revert i. induction l as [|a l IH]; intros [|i]; simpl; auto.
Qed.

Lemma rolling_mean_length (window : nat) (series : Series) :
  length (rolling_mean window series) = length series.
Proof. unfold rolling_mean. by rewrite length_map, length_seq. Qed.

Lemma rolling_mean_lookup (window : nat) (series : Series) (i : nat)
    (x : option Q) :
  rolling_mean window series !! i = Some x ->
  (i < length series)%nat /\ x = rolling_mean_at window series i.
Proof.
  unfold rolling_mean. intros H.
  rewrite lookup_map in H.
  destruct (seq 0 (length series) !! i) as [j|] eqn:E; [|discriminate].
  apply lookup_seq in E as [-> Hi]. simpl in H. injection H as <-. auto.
Qed.

(** A window without [nan] adds up within the bounds of its cells. *)
Lemma total_between (lo hi : Q) (xs : list (option Q)) :
  forall t,
    Forall (nan_or (fun q => (lo <= q)%Q /\ (q <= hi)%Q)) xs ->
    total xs = Some t ->
    (lo * inject_Z (Z.of_nat (length xs)) <= t)%Q /\
    (t <= hi * inject_Z (Z.of_nat (length xs)))%Q.
Proof.
  induction xs as [|x xs IH]; intros t Hall Ht.
  - injection Ht as <-.
    change (inject_Z (Z.of_nat (length (@nil (option Q))))) with 0%Q.
    lra.
  - apply Forall_cons in Hall as [Hx Hall].
    destruct x as [q|]; [|discriminate]. simpl in Ht, Hx.
    destruct (total xs) as [t'|]; [|discriminate]. injection Ht as <-.
    destruct (IH t' Hall eq_refl) as [H1 H2].
    assert (E : (inject_Z (Z.of_nat (length (Some q :: xs)))
                 == 1 + inject_Z (Z.of_nat (length xs)))%Q).
    { simpl length. rewrite Nat2Z.inj_succ. unfold Z.succ.
      rewrite inject_Z_plus. change (inject_Z 1) with 1%Q. ring. }
    rewrite E.
    revert H1 H2. generalize (inject_Z (Z.of_nat (length xs))).
    intros n H1 H2. split; nra.
Qed.

Lemma window_length (window i : nat) (series : Series) :
  (window <= S i)%nat -> (i < length series)%nat ->
  length (take window (drop (S i - window) series)) = window.
Proof.
  intros Hw Hi. rewrite length_take, length_drop. lia.
Qed.

(** The rolling mean of cells between two bounds lies between them. *)
Lemma rolling_mean_between (lo hi : Q) (window : nat) (series : Series) :
  Forall (nan_or (fun q => (lo <= q)%Q /\ (q <= hi)%Q)) series ->
  Forall (nan_or (fun q => (lo <= q)%Q /\ (q <= hi)%Q))
    (rolling_mean window series).
Proof.
  intros Hall. apply Forall_lookup. intros i x Hx.
  apply rolling_mean_lookup in Hx as [Hi ->].
  unfold rolling_mean_at. destruct window as [|w]; [exact I|].
  destruct (S w <=? S i)%nat eqn:Hw; [|exact I].
  apply Nat.leb_le in Hw.
  destruct (total (take (S w) (drop (S i - S w) series))) as [t|] eqn:Et;
    [|exact I].
  apply (total_between lo hi) in Et;
    [|by apply Forall_take, Forall_drop].
  rewrite (window_length (S w) i series Hw Hi) in Et.
  assert (Hn : (0 < inject_Z (Z.of_nat (S w)))%Q).
  { change 0%Q with (inject_Z 0). rewrite <- Zlt_Qlt. lia. }
  destruct Et as [H1 H2]. simpl. split.
  - apply Qle_shift_div_l; assumption.
  - apply Qle_shift_div_r; assumption.
Qed.

Lemma total_lower (lo : Q) (xs : list (option Q)) :
  forall t,
    Forall (nan_or (fun q => (lo <= q)%Q)) xs ->
    total xs = Some t ->
    (lo * inject_Z (Z.of_nat (length xs)) <= t)%Q.
Proof.
  induction xs as [|x xs IH]; intros t Hall Ht.
  - injection Ht as <-.
    change (inject_Z (Z.of_nat (length (@nil (option Q))))) with 0%Q.
    lra.
  - apply Forall_cons in Hall as [Hx Hall].
    destruct x as [q|]; [|discriminate]. simpl in Ht, Hx.
    destruct (total xs) as [t'|]; [|discriminate]. injection Ht as <-.
    pose proof (IH t' Hall eq_refl) as H1.
    assert (E : (inject_Z (Z.of_nat (length (Some q :: xs)))
                 == 1 + inject_Z (Z.of_nat (length xs)))%Q).
    { simpl length. rewrite Nat2Z.inj_succ. unfold Z.succ.
      rewrite inject_Z_plus. change (inject_Z 1) with 1%Q. ring. }
    rewrite E.
    revert H1. generalize (inject_Z (Z.of_nat (length xs))).
    intros n H1. nra.
Qed.

Lemma rolling_mean_lower (lo : Q) (window : nat) (series : Series) :
  Forall (nan_or (fun q => (lo <= q)%Q)) series ->
  Forall (nan_or (fun q => (lo <= q)%Q)) (rolling_mean window series).
Proof.
  intros Hall. apply Forall_lookup. intros i x Hx.
  apply rolling_mean_lookup in Hx as [Hi ->].
  unfold rolling_mean_at. destruct window as [|w]; [exact I|].
  destruct (S w <=? S i)%nat eqn:Hw; [|exact I].
  apply Nat.leb_le in Hw.
  destruct (total (take (S w) (drop (S i - S w) series))) as [t|] eqn:Et;
    [|exact I].
  apply (total_lower lo) in Et; [|by apply Forall_take, Forall_drop].
  rewrite (window_length (S w) i series Hw Hi) in Et.
  assert (Hn : (0 < inject_Z (Z.of_nat (S w)))%Q).
  { change 0%Q with (inject_Z 0). rewrite <- Zlt_Qlt. lia. }
  simpl. apply Qle_shift_div_l; assumption.
Qed.

(** The rolling mean is [nan] on the rows before the window is full. *)
Lemma rolling_mean_warm_up (window : nat) (series : Series) (i : nat) :
  (S i < window)%nat -> rolling_mean_at window series i = None.
Proof.
  intros H. unfold rolling_mean_at. destruct window as [|w]; [reflexivity|].
  destruct (S w <=? S i)%nat eqn:E; [|reflexivity].
  apply Nat.leb_le in E. lia.
Qed.

(** *** The gains and the losses *)

Lemma gains_nonneg (delta : Series) :
  Forall (nan_or (fun q => (0 <= q)%Q)) (map (clip_lower 0) delta).
Proof.
  apply List.Forall_map. apply Forall_forall. intros [v|] _; [|exact I].
  simpl. destruct (Qltb v 0) eqn:E; [lra|].
  by apply Qltb_false in E.
Qed.

Lemma losses_nonneg (delta : Series) :
  Forall (nan_or (fun q => (0 <= q)%Q))
    (map neg (map (clip_upper 0) delta)).
Proof.
  apply List.Forall_map, List.Forall_map.
  apply Forall_forall. intros [v|] _; [|exact I].
  simpl. destruct (Qltb 0 v) eqn:E; [lra|].
  apply Qltb_false in E. lra.
Qed.

Lemma gains_zero (delta : Series) :
  Forall (nan_or (fun d => (d <= 0)%Q)) delta ->
  Forall (nan_or (fun q => (0 <= q)%Q /\ (q <= 0)%Q))
    (map (clip_lower 0) delta).
Proof.
  intros H. apply List.Forall_map. eapply Forall_impl; [exact H|].
  intros [v|] Hv; [|exact I]. simpl in *.
  destruct (Qltb v 0) eqn:E; [lra|]. apply Qltb_false in E. lra.
Qed.

Lemma losses_zero (delta : Series) :
  Forall (nan_or (fun d => (0 <= d)%Q)) delta ->
  Forall (nan_or (fun q => (0 <= q)%Q /\ (q <= 0)%Q))
    (map neg (map (clip_upper 0) delta)).
Proof.
  intros H. apply List.Forall_map, List.Forall_map.
  eapply Forall_impl; [exact H|].
  intros [v|] Hv; [|exact I]. simpl in *.
  destruct (Qltb 0 v) eqn:E; [lra|]. apply Qltb_false in E. lra.
Qed.

(** *** One RSI value *)

Lemma rsi_cell_cases (a b : option Q) :
  nan_or (fun q => (0 <= q)%Q) a -> nan_or (fun q => (0 <= q)%Q) b ->
  match rsi_cell a b with
  | Fin q =>
      (0 <= q)%Q /\ (q <= 100)%Q /\
      (nan_or (fun y => (y <= 0)%Q) b -> (q == 100)%Q) /\
      (nan_or (fun x => (x <= 0)%Q) a -> (q == 0)%Q)
  | NaN => True
  | PInf | NInf => False
  end.
Proof.
  destruct a as [x|]; [|intros _ _; exact I].
  destruct b as [y|]; [|intros _ _; exact I].
  simpl. intros Hx Hy.
  unfold rsi_cell, cell_div, Py.np_div.
  destruct (Qeq_bool y 0) eqn:Ey.
  - destruct (Qeq_bool x 0) eqn:Ex; [exact I|].
    destruct (Qltb 0 x) eqn:Elt.
    + simpl. apply Qeq_bool_neq in Ex.
      split; [lra|]. split; [lra|]. split; [intros _; ring|].
      intros Hx0. exfalso. apply Ex. lra.
    + apply Qltb_false in Elt. apply Qeq_bool_neq in Ex.
      exfalso. apply Ex. lra.
  - apply Qeq_bool_neq in Ey.
    assert (Hy0 : (0 < y)%Q) by (apply Qle_lteq in Hy as [H|H]; [exact H|];
      exfalso; apply Ey; symmetry; exact H).
    assert (Hr : (0 <= x / y)%Q).
    { apply Qle_shift_div_l; [exact Hy0 | lra]. }
    simpl. unfold Py.np_div.
    destruct (Qeq_bool (x / y + 1) 0) eqn:Ed.
    { apply Qeq_bool_iff in Ed. lra. }
    simpl.
    assert (Hd : (0 < x / y + 1)%Q) by lra.
    assert (H1 : (0 <= 100 / (x / y + 1))%Q).
    { apply Qle_shift_div_l; [exact Hd | lra]. }
    assert (H2 : (100 / (x / y + 1) <= 100)%Q).
    { apply Qle_shift_div_r; [exact Hd | lra]. }
    split; [lra|]. split; [lra|]. split.
    + intros Hy1. lra.
    + intros Hx0. assert (E : (x == 0)%Q) by lra.
      rewrite E. field. lra.
Qed.

Lemma rsi_lookup (series : Series) (period i : nat) (v : Py.float64) :
  rsi series period !! i = Some v ->
  exists a b,
    rolling_mean period (map (clip_lower 0) (diff series)) !! i = Some a /\
    rolling_mean period (map neg (map (clip_upper 0) (diff series))) !! i
    = Some b /\
    v = rsi_cell a b.
Proof.
  unfold rsi. cbv zeta. rewrite lookup_map, lookup_zip_with.
  destruct (rolling_mean period (map (clip_lower 0) (diff series)) !! i)
    as [a|]; [|discriminate]. simpl.
  destruct (rolling_mean period
              (map neg (map (clip_upper 0) (diff series))) !! i)
    as [b|]; [|discriminate]. simpl.
  intros E. injection E as <-. eauto.
Qed.

Lemma rsi_length (series : Series) (period : nat) :
  length (rsi series period) = length series.
Proof.
  unfold rsi. cbv zeta.
  rewrite length_map, length_zip_with, !rolling_mean_length, !length_map.
  unfold diff. rewrite diff_after_length. lia.
Qed.




(** *** The rows of the signal frame *)

Lemma buy_row (cfg : RSIMAStrategyConfig) (close : Series) (i : nat)
    (b : bool) :
  col_buy (generate_signals cfg close) !! i = Some b ->
  exists r bull,
    rsi close (rsi_period cfg) !! i = Some r /\
    col_bullish_crossover (generate_signals cfg close) !! i = Some bull /\
    b = np_lt r (Py.Fin (buy_rsi cfg)) || (np_lt r (Py.Fin 45) && bull).
Proof.
  cbv [generate_signals _compute_indicators col_buy col_rsi
       col_bullish_crossover].
  rewrite lookup_zip_with, lookup_map.
  destruct (rsi close (rsi_period cfg) !! i) as [r|] eqn:Er;
    [|discriminate].
  simpl. rewrite lookup_zip_with, lookup_map, Er. simpl.
  match goal with
  | |- (?o ≫= _) ≫= _ = _ -> _ => destruct o as [bull|]; [|discriminate]
  end.
  simpl. intros E. injection E as <-. eauto.
Qed.

Lemma sell_row (cfg : RSIMAStrategyConfig) (close : Series) (i : nat)
    (s : bool) :
  col_sell (generate_signals cfg close) !! i = Some s ->
  exists r bear,
    rsi close (rsi_period cfg) !! i = Some r /\
    col_bearish_crossover (generate_signals cfg close) !! i = Some bear /\
    s = Py.np_gt r (Py.Fin (sell_rsi cfg))
        || (Py.np_gt r (Py.Fin 55) && bear).
Proof.
  cbv [generate_signals _compute_indicators col_sell col_rsi
       col_bearish_crossover].
  rewrite lookup_zip_with, lookup_map.
  destruct (rsi close (rsi_period cfg) !! i) as [r|] eqn:Er;
    [|discriminate].
  simpl. rewrite lookup_zip_with, lookup_map, Er. simpl.
  match goal with
  | |- (?o ≫= _) ≫= _ = _ -> _ => destruct o as [bear|]; [|discriminate]
  end.
  simpl. intros E. injection E as <-. eauto.
Qed.

Lemma crossover_rows (cfg : RSIMAStrategyConfig) (close : Series)
    (i : nat) :
  (forall bull,
     col_bullish_crossover (generate_signals cfg close) !! i = Some bull ->
     exists cross prev,
       col_ma_cross (generate_signals cfg close) !! i = Some cross /\
       shift_false (col_ma_cross (generate_signals cfg close)) !! i
       = Some prev /\
       bull = cross && negb prev) /\
  (forall bear,
     col_bearish_crossover (generate_signals cfg close) !! i = Some bear ->
     exists cross prev,
       col_ma_cross (generate_signals cfg close) !! i = Some cross /\
       shift_false (col_ma_cross (generate_signals cfg close)) !! i
       = Some prev /\
       bear = negb cross && prev).
Proof.
  cbv [generate_signals _compute_indicators col_bullish_crossover
       col_bearish_crossover col_ma_cross col_ma_cross_prev].
  set (cross := zip_with cell_gt _ _).
  split; intros x; rewrite lookup_zip_with, ?lookup_map.
  - destruct (cross !! i) as [c|]; [|discriminate]. simpl.
    destruct (shift_false cross !! i) as [pv|]; [|discriminate]. simpl.
    intros E. injection E as <-. eauto.
  - destruct (cross !! i) as [c|]; [|discriminate]. simpl.
    destruct (shift_false cross !! i) as [pv|]; [|discriminate]. simpl.
    intros E. injection E as <-. eauto.
Qed.

(** The previous-row column is the cross column one row later, with
    [False] in front. *)
Lemma shift_false_lookup (col : list bool) (i : nat) (x : bool) :
  shift_false col !! i = Some x ->
  match i with
  | O => x = false
  | S j => col !! j = Some x
  end.
Proof.
  unfold shift_false. intros H.
  apply lookup_take_Some in H as [H _].
  destruct i; simpl in H; [congruence | exact H].
Qed.

Lemma shift_false_length (col : list bool) :
  length (shift_false col) = length col.
Proof. unfold shift_false. rewrite length_take. simpl. lia. Qed.

Lemma np_lt_Fin (r : Py.float64) (k : Q) :
  np_lt r (Py.Fin k) = true ->
  r = Py.NInf \/ exists q, r = Py.Fin q /\ (q < k)%Q.
Proof.
  unfold np_lt. destruct r as [q| | |]; simpl; try discriminate.
  - intros H. apply Qltb_true in H. eauto.
  - auto.
Qed.

Lemma np_gt_Fin (r : Py.float64) (k : Q) :
  Py.np_gt r (Py.Fin k) = true ->
  r = Py.PInf \/ exists q, r = Py.Fin q /\ (k < q)%Q.
Proof.
  destruct r as [q| | |]; simpl; try discriminate.
  - intros H. apply Qltb_true in H. eauto.
  - auto.
Qed.

(** X25.  When the buy thresholds lie below the sell thresholds
    (buy_rsi <= sell_rsi, buy_rsi <= 55 and sell_rsi >= 45, as the
    defaults do), no row of the signal frame carries both a buy and a
    sell flag. *)
Theorem signals_exclusive (cfg : RSIMAStrategyConfig) (close : Series)
    (i : nat) :
  thresholds_apart cfg ->
  ~ (col_buy (generate_signals cfg close) !! i = Some true /\
     col_sell (generate_signals cfg close) !! i = Some true).
Proof.
  intros (H1 & H2 & H3) [Hb Hs].
  apply buy_row in Hb as (r & bull & Hr & _ & Hb).
  apply sell_row in Hs as (r' & bear & Hr' & _ & Hs).
  rewrite Hr in Hr'. injection Hr' as <-.
  assert (Hlt : exists k, (k <= 55)%Q /\ np_lt r (Py.Fin k) = true).
  { symmetry in Hb. apply orb_true_iff in Hb as [Hb|Hb].
    - exists (buy_rsi cfg). auto.
    - apply andb_true_iff in Hb as [Hb _]. exists 45%Q. split; [lra|auto]. }
  assert (Hgt : exists k, (45 <= k)%Q /\ Py.np_gt r (Py.Fin k) = true).
  { symmetry in Hs. apply orb_true_iff in Hs as [Hs|Hs].
    - exists (sell_rsi cfg). auto.
    - apply andb_true_iff in Hs as [Hs _]. exists 55%Q. split; [lra|auto]. }
  symmetry in Hb, Hs.
  apply orb_true_iff in Hb. apply orb_true_iff in Hs.
  destruct Hb as [Hb|Hb], Hs as [Hs|Hs];
    try (apply andb_true_iff in Hb as [Hb _]);
    try (apply andb_true_iff in Hs as [Hs _]);
    apply np_lt_Fin in Hb as [->|(q & -> & Hq)];
    apply np_gt_Fin in Hs as [Hs|(q' & Hs & Hq')];
    try discriminate; injection Hs as <-; lra.
Qed.

Lemma signals_exclusive_witness :
  ~ (col_buy (generate_signals default_config rising) !! 2%nat = Some true /\
     col_sell (generate_signals default_config rising) !! 2%nat
     = Some true).
Proof.
  apply (signals_exclusive default_config rising 2).
  unfold thresholds_apart. simpl. lra.
Defined.

Lemma gains_warm_up (period : nat) (close : Series) (i : nat) :
  (i < period)%nat -> (i < length close)%nat ->
  rolling_mean period (map (clip_lower 0) (diff close)) !! i = Some None.
Proof.
  intros Hw Hi. unfold rolling_mean.
  rewrite lookup_map, lookup_seq_lt
    by (rewrite length_map; unfold diff;
        rewrite diff_after_length; exact Hi).
  simpl. f_equal.
  destruct (Nat.eq_dec (S i) period) as [<-|Hne];
    [|apply rolling_mean_warm_up; lia].
  unfold rolling_mean_at.
  rewrite Nat.leb_refl, Nat.sub_diag.
  destruct close as [|c close]; [simpl in Hi; lia|]. reflexivity.
Qed.

(** X26.  The first [rsi_period] rows of the signal frame carry neither
    flag: the RSI is still [nan] there and every comparison with it is
    false. *)
Theorem no_signal_during_warm_up (cfg : RSIMAStrategyConfig)
    (close : Series) (i : nat) :
  (i < rsi_period cfg)%nat -> (i < length close)%nat ->
  col_rsi (generate_signals cfg close) !! i = Some Py.NaN /\
  col_buy (generate_signals cfg close) !! i = Some false /\
  col_sell (generate_signals cfg close) !! i = Some false.
Proof.
  intros Hw Hi.
  assert (Hr : rsi close (rsi_period cfg) !! i = Some Py.NaN).
  { unfold rsi. cbv zeta. rewrite lookup_map, lookup_zip_with.
    rewrite (gains_warm_up (rsi_period cfg) close i Hw Hi). simpl.
    match goal with
    | |- option_map _ (?o ≫= _) = _ =>
        assert (Hd : is_Some o); [|destruct Hd as [b ->]; reflexivity]
    end.
    apply lookup_lt_is_Some.
    rewrite rolling_mean_length, !length_map. unfold diff.
    rewrite diff_after_length. exact Hi. }
  split; [exact Hr|].
  cbv [generate_signals _compute_indicators col_buy col_sell col_rsi
       col_bullish_crossover col_bearish_crossover].
  set (cross := zip_with cell_gt _ _).
  assert (Hlen : length cross = length close).
  { subst cross. rewrite length_zip_with. unfold sma.
    rewrite !rolling_mean_length. lia. }
  assert (Hc : is_Some (cross !! i)) by (apply lookup_lt_is_Some; lia).
  assert (Hp : is_Some (shift_false cross !! i)).
  { apply lookup_lt_is_Some. rewrite shift_false_length. lia. }
  destruct Hc as [c Hc], Hp as [pv Hp].
  split; rewrite lookup_zip_with, lookup_map, Hr; simpl;
    rewrite lookup_zip_with, lookup_map, Hr; simpl;
    rewrite lookup_zip_with, ?lookup_map, Hc; simpl;
    rewrite ?lookup_map, Hp; reflexivity.
Qed.

Lemma no_signal_during_warm_up_witness :
  col_rsi (generate_signals quick_config rising) !! 1%nat = Some Py.NaN /\
  col_buy (generate_signals quick_config rising) !! 1%nat = Some false /\
  col_sell (generate_signals quick_config rising) !! 1%nat = Some false.
Proof.
  apply (no_signal_during_warm_up quick_config rising 1); simpl; lia.
Defined.

Lemma zero_nonneg (x : option Q) :
  nan_or (fun q => (0 <= q)%Q /\ (q <= 0)%Q) x ->
  nan_or (fun q => (0 <= q)%Q) x.
Proof. destruct x; simpl; tauto. Qed.

Lemma zero_nonpos (x : option Q) :
  nan_or (fun q => (0 <= q)%Q /\ (q <= 0)%Q) x ->
  nan_or (fun q => (q <= 0)%Q) x.
Proof. destruct x; simpl; tauto. Qed.

(** X27.  On a close series that never falls, with buy_rsi at most 100,
    the strategy never sets a buy flag: the RSI is 100 or [nan] on
    every row. *)
Theorem no_buy_without_a_fall (cfg : RSIMAStrategyConfig) (close : Series) :
  never_falls close -> (buy_rsi cfg <= 100)%Q ->
  Forall (fun b => b = false) (col_buy (generate_signals cfg close)).
Proof.
  intros Hnf Hthr. apply Forall_lookup. intros i b Hb.
  apply buy_row in Hb as (r & bull & Hr & _ & ->).
  apply rsi_lookup in Hr as (u & d & Hu & Hd & ->).
  pose proof (rolling_mean_lower 0 (rsi_period cfg) _
                (gains_nonneg (diff close))) as Hup.
  pose proof (rolling_mean_between 0 0 (rsi_period cfg) _
                (losses_zero (diff close) Hnf)) as Hdown.
  rewrite Forall_lookup in Hup. rewrite Forall_lookup in Hdown.
  specialize (Hup i u Hu). specialize (Hdown i d Hd).
  pose proof (rsi_cell_cases u d Hup (zero_nonneg d Hdown)) as H.
  destruct (rsi_cell u d) as [q| | |]; try contradiction; [|reflexivity].
  destruct H as (_ & _ & H100 & _).
  specialize (H100 (zero_nonpos d Hdown)).
  unfold np_lt. simpl.
  assert (E1 : Qltb q (buy_rsi cfg) = false) by (apply Qltb_false; lra).
  assert (E2 : Qltb q 45 = false) by (apply Qltb_false; lra).
  rewrite E1, E2. reflexivity.
Qed.

Lemma no_buy_without_a_fall_witness :
  Forall (fun b => b = false) (col_buy (generate_signals quick_config rising)).
Proof.
  apply (no_buy_without_a_fall quick_config rising).
  - repeat constructor; simpl; lra.
  - simpl. lra.
Defined.

(** X28.  On a close series that never rises, with sell_rsi at least 0,
    the strategy never sets a sell flag: the RSI is 0 or [nan] on every
    row. *)
Theorem no_sell_without_a_rise (cfg : RSIMAStrategyConfig)
    (close : Series) :
  never_rises close -> (0 <= sell_rsi cfg)%Q ->
  Forall (fun s => s = false) (col_sell (generate_signals cfg close)).
Proof.
  intros Hnr Hthr. apply Forall_lookup. intros i s Hs.
  apply sell_row in Hs as (r & bear & Hr & _ & ->).
  apply rsi_lookup in Hr as (u & d & Hu & Hd & ->).
  pose proof (rolling_mean_between 0 0 (rsi_period cfg) _
                (gains_zero (diff close) Hnr)) as Hup.
  pose proof (rolling_mean_lower 0 (rsi_period cfg) _
                (losses_nonneg (diff close))) as Hdown.
  rewrite Forall_lookup in Hup. rewrite Forall_lookup in Hdown.
  specialize (Hup i u Hu). specialize (Hdown i d Hd).
  pose proof (rsi_cell_cases u d (zero_nonneg u Hup) Hdown) as H.
  destruct (rsi_cell u d) as [q| | |]; try contradiction; [|reflexivity].
  destruct H as (_ & _ & _ & H0).
  specialize (H0 (zero_nonpos u Hup)).
  simpl.
  assert (E1 : Qltb (sell_rsi cfg) q = false) by (apply Qltb_false; lra).
  assert (E2 : Qltb 55 q = false) by (apply Qltb_false; lra).
  rewrite E1, E2. reflexivity.
Qed.

Lemma no_sell_without_a_rise_witness :
  Forall (fun s => s = false)
    (col_sell (generate_signals quick_config falling)).
Proof.
  apply (no_sell_without_a_rise quick_config falling).
  - repeat constructor; simpl; lra.
  - simpl. lra.
Defined.

Lemma cross_length (cfg : RSIMAStrategyConfig) (close : Series) :
  length (col_ma_cross (generate_signals cfg close)) = length close.
Proof.
  cbv [generate_signals _compute_indicators col_ma_cross].
  rewrite length_zip_with. unfold sma. rewrite !rolling_mean_length. lia.
Qed.

Lemma columns_length (cfg : RSIMAStrategyConfig) (close : Series) :
  length (col_buy (generate_signals cfg close)) = length close /\
  length (col_sell (generate_signals cfg close)) = length close.
Proof.
  pose proof (cross_length cfg close) as Hc. revert Hc.
  cbv [generate_signals _compute_indicators col_ma_cross col_buy col_sell
       col_rsi col_bullish_crossover col_bearish_crossover].
  set (cross := zip_with cell_gt _ _). intros Hc.
  repeat rewrite ?length_zip_with, ?length_map.
  rewrite shift_false_length, rsi_length. lia.
Qed.

(** X29.  The signal frame has one buy and one sell flag per close.  A row
    is never a bullish and a bearish crossover at once; a crossover of
    one kind is never followed by one of the same kind on the next row;
    and the first row is never a bearish crossover. *)
Theorem crossovers_take_turns (cfg : RSIMAStrategyConfig) (close : Series) :
  length (col_buy (generate_signals cfg close)) = length close /\
  length (col_sell (generate_signals cfg close)) = length close /\
  (forall i,
     ~ (col_bullish_crossover (generate_signals cfg close) !! i = Some true /\
        col_bearish_crossover (generate_signals cfg close) !! i
        = Some true)) /\
  (forall i,
     col_bullish_crossover (generate_signals cfg close) !! i = Some true ->
     col_bullish_crossover (generate_signals cfg close) !! S i
     <> Some true) /\
  (forall i,
     col_bearish_crossover (generate_signals cfg close) !! i = Some true ->
     col_bearish_crossover (generate_signals cfg close) !! S i
     <> Some true) /\
  col_bearish_crossover (generate_signals cfg close) !! 0%nat <> Some true.
Proof.
  split; [apply columns_length|]. split; [apply columns_length|].
  split; [|split; [|split]].
  - intros i [H1 H2].
    destruct (crossover_rows cfg close i) as [Hb Hr].
    destruct (Hb _ H1) as (c & pv & Ec & Ep & E).
    destruct (Hr _ H2) as (c' & pv' & Ec' & Ep' & E').
    rewrite Ec in Ec'. injection Ec' as <-.
    destruct c, pv; simpl in *; discriminate.
  - intros i H1 H2.
    destruct (crossover_rows cfg close i) as [Hb _].
    destruct (crossover_rows cfg close (S i)) as [Hb' _].
    destruct (Hb _ H1) as (c & pv & Ec & _ & E).
    destruct (Hb' _ H2) as (c' & pv' & _ & Ep' & E').
    apply shift_false_lookup in Ep'. rewrite Ec in Ep'.
    injection Ep' as <-.
    destruct c, c', pv; simpl in *; discriminate.
  - intros i H1 H2.
    destruct (crossover_rows cfg close i) as [_ Hr].
    destruct (crossover_rows cfg close (S i)) as [_ Hr'].
    destruct (Hr _ H1) as (c & pv & Ec & _ & E).
    destruct (Hr' _ H2) as (c' & pv' & _ & Ep' & E').
    apply shift_false_lookup in Ep'. rewrite Ec in Ep'.
    injection Ep' as <-.
    destruct c, c', pv; simpl in *; discriminate.
  - intros H.
    destruct (crossover_rows cfg close 0) as [_ Hr].
    destruct (Hr _ H) as (c & pv & _ & Ep & E).
    apply shift_false_lookup in Ep. subst pv.
    destruct c; discriminate.
Qed.

End StrategyFacts.
